(** * The Discord message harvester of [social_capture.discord_client]

    A shallow embedding of the [DiscordClient] class
    (src/docs_social/src/social_capture/discord_client.py) and the
    properties of its date codec, rate limiter, page fetcher, batch
    harvester, renderer and channel capture.

    Layout: Python values and builtins, the calendar arithmetic of
    [datetime], the client's methods, then the lemmas. *)

From Stdlib Require Import ZArith List String Ascii Bool Lia.
From Stdlib Require Import Permutation Sorted SpecFloat DecimalString.
From Stdlib Require Import DecimalPos.
From Stdlib Require DecimalFacts.
Import ListNotations.

Set Warnings "-register-all".

Local Open Scope string_scope.
Local Open Scope list_scope.
Local Open Scope Z_scope.

(* ===================================================================== *)
(** ** Python values *)
(* ===================================================================== *)

(** The exceptions the modelled code can meet. *)
Inductive Exn : Type :=
| TypeError
| ValueError
| AttributeError
| OverflowError
| RequestException.

(** A computation that returns a value or raises. *)
Inductive Py (A : Type) : Type :=
| Returned (a : A)
| Raised (e : Exn).
Arguments Returned {A} a.
Arguments Raised {A} e.

Definition py_bind {A B : Type} (m : Py A) (k : A -> Py B) : Py B :=
  match m with
  | Returned a => k a
  | Raised e => Raised e
  end.

Notation "x <- m ;; k" := (py_bind m (fun x => k))
  (at level 61, m at next level, right associativity).

(** [try: ... except Exception: return d]. *)
Definition py_except {A : Type} (m : Py A) (d : A) : A :=
  match m with
  | Returned a => a
  | Raised _ => d
  end.

Fixpoint py_mapM {A B : Type} (f : A -> Py B) (l : list A) : Py (list B) :=
  match l with
  | [] => Returned []
  | x :: l' => y <- f x ;; ys <- py_mapM f l' ;; Returned (y :: ys)
  end.

(** Python floats are IEEE binary64, here [spec_float] with 53 bits of
    precision. *)
Definition float : Type := spec_float.

(** What [response.json()] decodes: [JNull] is Python's [None], [JNum] an
    [int], [JStr] a [str] as its UTF-8 bytes, [JArr] a [list], [JObj] a
    [dict] in insertion order, and [JFloat] a [float], which a JSON
    number with a fraction or an exponent becomes (infinite when it is
    too large, and [NaN] and [Infinity] are read as well). *)
Inductive json : Type :=
| JNull
| JBool (b : bool)
| JNum (n : Z)
| JStr (s : string)
| JArr (l : list json)
| JObj (d : list (string * json))
| JFloat (f : float).

Fixpoint dict_lookup {A : Type} (k : string) (d : list (string * A)) : option A :=
  match d with
  | [] => None
  | (k', v) :: d' => if String.eqb k k' then Some v else dict_lookup k d'
  end.

(** [obj.get(key, default)]: only a dict has the method. *)
Definition py_get (obj : json) (key : string) (default : json) : Py json :=
  match obj with
  | JObj d =>
      match dict_lookup key d with
      | Some v => Returned v
      | None => Returned default
      end
  | _ => Raised AttributeError
  end.

(** Truth value of an object, as [if x:] tests it. *)
Definition py_truthy (v : json) : bool :=
  match v with
  | JNull => false
  | JBool b => b
  | JNum n => negb (n =? 0)
  | JStr s => negb (String.eqb s "")
  | JArr l => match l with [] => false | _ => true end
  | JObj d => match d with [] => false | _ => true end
  | JFloat f => match f with S754_zero _ => false | _ => true end
  end.

Fixpoint chars (s : string) : list json :=
  match s with
  | EmptyString => []
  | String c s' => JStr (String c EmptyString) :: chars s'
  end.

(** [for x in v]: a list yields its items, a dict its keys, a str its
    characters (here one str for each byte: the code does nothing with
    such an item but call [get] on it, which raises); nothing else is
    iterable. *)
Definition py_iter (v : json) : Py (list json) :=
  match v with
  | JArr l => Returned l
  | JObj d => Returned (map (fun kv => JStr (fst kv)) d)
  | JStr s => Returned (chars s)
  | _ => Raised TypeError
  end.

(** *** Characters *)

(** A str is held as its UTF-8 bytes (a str with a lone surrogate has
    none and is outside the model). [code_points] gives its characters;
    [None] when the bytes are not the UTF-8 form of any str. *)
Definition byte (c : ascii) : Z := Z.of_nat (nat_of_ascii c).

Definition continuation (c : ascii) : bool :=
  (128 <=? byte c) && (byte c <? 192).

Definition utf8_2 (a b : ascii) : option Z :=
  if (194 <=? byte a) && (byte a <? 224) && continuation b
  then Some ((byte a - 192) * 64 + (byte b - 128))
  else None.

Definition utf8_3 (a b c : ascii) : option Z :=
  let cp := (byte a - 224) * 4096 + (byte b - 128) * 64 + (byte c - 128) in
  if (224 <=? byte a) && (byte a <? 240) && continuation b && continuation c
     && (2048 <=? cp) && negb ((55296 <=? cp) && (cp <=? 57343))
  then Some cp
  else None.

Definition utf8_4 (a b c d : ascii) : option Z :=
  let cp := (byte a - 240) * 262144 + (byte b - 128) * 4096
            + (byte c - 128) * 64 + (byte d - 128) in
  if (240 <=? byte a) && (byte a <? 245)
     && continuation b && continuation c && continuation d
     && (65536 <=? cp) && (cp <=? 1114111)
  then Some cp
  else None.

Fixpoint code_points (s : string) : option (list Z) :=
  match s with
  | EmptyString => Some []
  | String a s1 =>
      if byte a <? 128 then option_map (cons (byte a)) (code_points s1)
      else
        match s1 with
        | String b s2 =>
            match utf8_2 a b with
            | Some cp => option_map (cons cp) (code_points s2)
            | None =>
                match s2 with
                | String c s3 =>
                    match utf8_3 a b c with
                    | Some cp => option_map (cons cp) (code_points s3)
                    | None =>
                        match s3 with
                        | String d s4 =>
                            match utf8_4 a b c d with
                            | Some cp => option_map (cons cp) (code_points s4)
                            | None => None
                            end
                        | EmptyString => None
                        end
                    end
                | EmptyString => None
                end
            end
        | EmptyString => None
        end
  end.

(** White space as [str.isspace] has it. *)
Definition unicode_space (cp : Z) : bool :=
  ((9 <=? cp) && (cp <=? 13)) || ((28 <=? cp) && (cp <=? 32))
  || (cp =? 133) || (cp =? 160) || (cp =? 5760)
  || ((8192 <=? cp) && (cp <=? 8202))
  || (cp =? 8232) || (cp =? 8233) || (cp =? 8239) || (cp =? 8287)
  || (cp =? 12288).

(** The zeros of the decimal digits of Unicode, ASCII first (version
    14.0, the database of CPython 3.11); the digits 1 to 9 of a script
    follow its zero. *)
Definition decimal_zeros : list Z :=
  [48; 1632; 1776; 1984; 2406; 2534; 2662; 2790; 2918; 3046; 3174; 3302;
   3430; 3558; 3664; 3792; 3872; 4160; 4240; 6112; 6160; 6470; 6608; 6784;
   6800; 6992; 7088; 7232; 7248; 42528; 43216; 43264; 43472; 43504; 43600;
   44016; 65296; 66720; 68912; 69734; 69872; 69942; 70096; 70384; 70736;
   70864; 71248; 71360; 71472; 71904; 72016; 72784; 73040; 73120; 92768;
   92864; 93008; 120782; 120792; 120802; 120812; 120822; 123200; 123632;
   125264; 130032].

(** The value of a decimal digit: what [int] reads it as, and what [\d]
    matches in a str pattern. *)
Definition decimal_of (cp : Z) : option Z :=
  match find (fun z => (z <=? cp) && (cp <=? z + 9)) decimal_zeros with
  | Some z => Some (cp - z)
  | None => None
  end.

(** *** [int(x)] *)

(** What [int] makes of a character of a str before it parses: an ASCII
    character is kept, other white space becomes a blank, another
    decimal digit the ASCII digit of its value, and any other character
    one that no numeral has. *)
Definition to_ascii (cp : Z) : Z :=
  if cp <? 127 then cp
  else if unicode_space cp then 32
  else match decimal_of cp with
       | Some d => 48 + d
       | None => 63
       end.

(** The white space the parser skips: 0x09-0x0D and the blank. *)
Definition is_blank (c : Z) : bool := ((9 <=? c) && (c <=? 13)) || (c =? 32).

(** An ASCII digit. *)
Definition digit_of (c : Z) : option Z :=
  if (48 <=? c) && (c <=? 57) then Some (c - 48) else None.

Fixpoint lstrip (s : list Z) : list Z :=
  match s with
  | c :: s' => if is_blank c then lstrip s' else s
  | [] => []
  end.

Definition all_space (s : list Z) : bool := forallb is_blank s.

(** Decimal digits with single underscores between them, then optional
    trailing white space. [after_digit] tells whether the previous
    character was a digit. *)
Fixpoint int_digits (s : list Z) (acc : Z) (after_digit : bool) : option Z :=
  match s with
  | [] => if after_digit then Some acc else None
  | c :: s' =>
      match digit_of c with
      | Some d => int_digits s' (10 * acc + d) true
      | None =>
          if c =? 95 then
            if after_digit then int_digits s' acc false else None
          else if (after_digit && all_space s)%bool then Some acc
          else None
      end
  end.

(** The number of digits of a text. *)
Fixpoint count_digits (s : list Z) : Z :=
  match s with
  | [] => 0
  | c :: s' =>
      match digit_of c with
      | Some _ => 1 + count_digits s'
      | None => count_digits s'
      end
  end.

(** The default of [sys.get_int_max_str_digits()]: [int] refuses a
    numeral of more digits, and [str] an integer of more. *)
Definition int_max_str_digits : Z := 4300.

(** [int(s)] for a str, base 10; [None] is [ValueError]. *)
Definition int_of_str (s : string) : option Z :=
  match code_points s with
  | Some cps =>
      let text := map to_ascii cps in
      if int_max_str_digits <? count_digits text then None
      else
        match lstrip text with
        | c :: s' =>
            if c =? 45 then option_map Z.opp (int_digits s' 0 false)
            else if c =? 43 then int_digits s' 0 false
            else int_digits (c :: s') 0 false
        | [] => None
        end
  | None => None
  end.

(** [int(x)]: a float is cut to its whole part, and has none when it
    is infinite ([OverflowError]) or NaN ([ValueError]). *)
Definition py_int (v : json) : Py Z :=
  match v with
  | JNum n => Returned n
  | JBool b => Returned (Z.b2z b)
  | JStr s =>
      match int_of_str s with
      | Some n => Returned n
      | None => Raised ValueError
      end
  | JFloat f =>
      match f with
      | S754_zero _ => Returned 0
      | S754_finite s m e =>
          let whole := Z.shiftl (Z.pos m) e in
          Returned (if s then - whole else whole)
      | S754_infinity _ => Raised OverflowError
      | S754_nan => Raised ValueError
      end
  | _ => Raised TypeError
  end.

(** *** Comparison *)

(** How an int [n] stands to a float [f]; Python compares the two
    exactly. [None] when [f] is NaN. *)
Definition compare_int_float (n : Z) (f : float) : option comparison :=
  match f with
  | S754_zero _ => Some (n ?= 0)
  | S754_infinity s => Some (if s then Gt else Lt)
  | S754_nan => None
  | S754_finite s m e =>
      let v := if s then Z.neg m else Z.pos m in
      Some (if 0 <=? e then n ?= v * 2 ^ e else n * 2 ^ (- e) ?= v)
  end.

Definition is_cmp (c : comparison) (r : option comparison) : bool :=
  match r, c with
  | Some Eq, Eq | Some Lt, Lt | Some Gt, Gt => true
  | _, _ => false
  end.

(** [a == b], on values that are not one and the same object: a NaN
    is equal to nothing. *)
Fixpoint py_eq (a b : json) {struct a} : bool :=
  match a, b with
  | JNull, JNull => true
  | JBool x, JBool y => Bool.eqb x y
  | JBool x, JNum n => Z.b2z x =? n
  | JNum n, JBool y => n =? Z.b2z y
  | JNum n, JNum m => n =? m
  | JFloat f, JFloat g => SFeqb f g
  | JNum n, JFloat f => is_cmp Eq (compare_int_float n f)
  | JFloat f, JNum n => is_cmp Eq (compare_int_float n f)
  | JBool x, JFloat f => is_cmp Eq (compare_int_float (Z.b2z x) f)
  | JFloat f, JBool x => is_cmp Eq (compare_int_float (Z.b2z x) f)
  | JStr s, JStr t => String.eqb s t
  | JArr l, JArr l' =>
      (fix go (l l' : list json) {struct l} : bool :=
         match l, l' with
         | [], [] => true
         | x :: l, y :: l' => py_eq x y && go l l'
         | _, _ => false
         end) l l'
  | JObj d, JObj d' =>
      Nat.eqb (List.length d) (List.length d') &&
      (fix go (d : list (string * json)) {struct d} : bool :=
         match d with
         | [] => true
         | (k, v) :: d =>
             match dict_lookup k d' with
             | Some v' => py_eq v v'
             | None => false
             end && go d
         end) d
  | _, _ => false
  end.

(** [a < b]; raises [TypeError] between unordered types. *)
Fixpoint py_lt (a b : json) {struct a} : Py bool :=
  match a, b with
  | JStr s, JStr t => Returned (String.ltb s t)
  | JNum n, JNum m => Returned (n <? m)
  | JNum n, JBool y => Returned (n <? Z.b2z y)
  | JBool x, JNum m => Returned (Z.b2z x <? m)
  | JBool x, JBool y => Returned (Z.b2z x <? Z.b2z y)
  | JFloat f, JFloat g => Returned (SFltb f g)
  | JNum n, JFloat f => Returned (is_cmp Lt (compare_int_float n f))
  | JFloat f, JNum n => Returned (is_cmp Gt (compare_int_float n f))
  | JBool x, JFloat f => Returned (is_cmp Lt (compare_int_float (Z.b2z x) f))
  | JFloat f, JBool x => Returned (is_cmp Gt (compare_int_float (Z.b2z x) f))
  | JArr l, JArr l' =>
      (fix go (l l' : list json) {struct l} : Py bool :=
         match l, l' with
         | x :: l, y :: l' => if py_eq x y then go l l' else py_lt x y
         | [], _ :: _ => Returned true
         | _, [] => Returned false
         end) l l'
  | _, _ => Raised TypeError
  end.

(** [sorted(l, key=key)]: stable, only [<] is used; a comparison that
    raises aborts the sort. Insertion from the right keeps equal keys in
    their input order. On keys that [<] orders consistently, which is
    all keys but a NaN among floats, the list returned does not depend
    on the order in which the sort compares them. *)
Section Sorted.
Context {A : Type} (key : A -> json).

Fixpoint insert_sorted (x : A) (l : list A) : Py (list A) :=
  match l with
  | [] => Returned [x]
  | y :: l' =>
      b <- py_lt (key y) (key x) ;;
      if b then r <- insert_sorted x l' ;; Returned (y :: r)
      else Returned (x :: l)
  end.

Fixpoint py_sorted (l : list A) : Py (list A) :=
  match l with
  | [] => Returned []
  | x :: l' => r <- py_sorted l' ;; insert_sorted x r
  end.
End Sorted.

(* ===================================================================== *)
(** ** Calendar arithmetic of [datetime] *)
(* ===================================================================== *)

(** The proleptic Gregorian ordinal of the standard library
    ([_is_leap], [_days_before_year], [_days_in_month],
    [_days_before_month], [_ymd2ord]). *)

Definition _is_leap (year : Z) : bool :=
  (year mod 4 =? 0) && (negb (year mod 100 =? 0) || (year mod 400 =? 0)).

Definition _days_before_year (year : Z) : Z :=
  let y := year - 1 in
  y * 365 + y / 4 - y / 100 + y / 400.

Definition _DAYS_IN_MONTH : list Z :=
  [-1; 31; 28; 31; 30; 31; 30; 31; 31; 30; 31; 30; 31].

Definition _DAYS_BEFORE_MONTH : list Z :=
  [-1; 0; 31; 59; 90; 120; 151; 181; 212; 243; 273; 304; 334].

Definition _days_in_month (year month : Z) : Z :=
  if (month =? 2) && _is_leap year then 29
  else nth (Z.to_nat month) _DAYS_IN_MONTH 0.

Definition _days_before_month (year month : Z) : Z :=
  nth (Z.to_nat month) _DAYS_BEFORE_MONTH 0
  + Z.b2z ((2 <? month) && _is_leap year).

Definition _ymd2ord (year month day : Z) : Z :=
  _days_before_year year + _days_before_month year month + day.

(** A calendar date that [datetime] accepts. *)
Record date : Type := mkdate { year : Z; month : Z; day : Z }.

Definition valid_date (d : date) : bool :=
  (1 <=? year d) && (year d <=? 9999)
  && (1 <=? month d) && (month d <=? 12)
  && (1 <=? day d) && (day d <=? _days_in_month (year d) (month d)).

(** *** [datetime.strptime(s, '%Y-%m-%d')]

    The format compiles to the regular expression
    [(\d\d\d\d)-(1[0-2]|0[1-9]|[1-9])-(3[01]|[12]\d|0[1-9]|[1-9]| [1-9])],
    matched on the characters of the text: [\d] takes any decimal
    digit, the classes ASCII digits only. Each group is a list of the
    ways it can match, in the order the alternatives are tried, with
    the text left over. *)

Definition re_Y (s : list Z) : list (Z * list Z) :=
  match s with
  | a :: b :: c :: d :: rest =>
      match decimal_of a, decimal_of b, decimal_of c, decimal_of d with
      | Some x, Some y, Some z, Some w =>
          [(1000 * x + 100 * y + 10 * z + w, rest)]
      | _, _, _, _ => []
      end
  | _ => []
  end.

Definition re_dash (s : list Z) : list (list Z) :=
  match s with
  | c :: rest => if c =? 45 then [rest] else []
  | [] => []
  end.

(** Two characters read as ASCII digits. *)
Definition two_digits (s : list Z) : option (Z * Z * list Z) :=
  match s with
  | a :: b :: rest =>
      match digit_of a, digit_of b with
      | Some x, Some y => Some (x, y, rest)
      | _, _ => None
      end
  | _ => None
  end.

Definition one_digit (s : list Z) : option (Z * list Z) :=
  match s with
  | a :: rest =>
      match digit_of a with
      | Some x => Some (x, rest)
      | None => None
      end
  | [] => None
  end.

Definition re_m (s : list Z) : list (Z * list Z) :=
  match two_digits s with
  | Some (x, y, rest) =>
      if ((x =? 1) && (y <=? 2)) || ((x =? 0) && (1 <=? y))
      then [(10 * x + y, rest)] else []
  | None => []
  end
  ++
  match one_digit s with
  | Some (x, rest) => if 1 <=? x then [(x, rest)] else []
  | None => []
  end.

(** [1] or [2] and then [\d]. *)
Definition re_d_teens (s : list Z) : list (Z * list Z) :=
  match s with
  | a :: b :: rest =>
      match digit_of a, decimal_of b with
      | Some x, Some y =>
          if (1 <=? x) && (x <=? 2) then [(10 * x + y, rest)] else []
      | _, _ => []
      end
  | _ => []
  end.

Definition re_d (s : list Z) : list (Z * list Z) :=
  match two_digits s with
  | Some (x, y, rest) =>
      if (x =? 3) && (y <=? 1) then [(10 * x + y, rest)] else []
  | None => []
  end
  ++ re_d_teens s
  ++
  match two_digits s with
  | Some (x, y, rest) =>
      if (x =? 0) && (1 <=? y) then [(10 * x + y, rest)] else []
  | None => []
  end
  ++
  match one_digit s with
  | Some (x, rest) => if 1 <=? x then [(x, rest)] else []
  | None => []
  end
  ++
  match s with
  | c :: rest =>
      if c =? 32 then
        match one_digit rest with
        | Some (x, rest') => if 1 <=? x then [(x, rest')] else []
        | None => []
        end
      else []
  | [] => []
  end.

(** All matches of the whole pattern at the start of [s], first first. *)
Definition re_matches (s : list Z) : list (date * list Z) :=
  flat_map (fun Yr =>
    flat_map (fun r1 =>
      flat_map (fun mr =>
        flat_map (fun r2 =>
          map (fun dr => (mkdate (fst Yr) (fst mr) (fst dr), snd dr))
              (re_d r2))
          (re_dash (snd mr)))
        (re_m r1))
      (re_dash (snd Yr)))
    (re_Y s).

(** [None] is [ValueError]: no match, unconverted data after the match,
    or a day the month does not have (or year 0). *)
Definition strptime (date_str : string) : option date :=
  match code_points date_str with
  | Some text =>
      match re_matches text with
      | (d, rest) :: _ =>
          if match rest with [] => true | _ :: _ => false end && valid_date d
          then Some d else None
      | [] => None
      end
  | None => None
  end.

(** Seconds from [discord_epoch = datetime(2015, 1, 1, tzinfo=utc)] to
    the UTC time [hour:minute:second] of [d]; what
    [(dt - discord_epoch).total_seconds()] holds. The timedelta has whole
    seconds and stays below 2^53 in magnitude, so the float it is
    returned as, its product with 1000 and the [int] of that are exact. *)
Definition seconds_since_epoch (d : date) (hour minute second : Z) : Z :=
  (_ymd2ord (year d) (month d) (day d) - _ymd2ord 2015 1 1) * 86400
  + hour * 3600 + minute * 60 + second.

(* ===================================================================== *)
(** ** The client *)
(* ===================================================================== *)

(** The methods are modelled by the values they compute and the
    requests they issue. Log records and the time spent in
    [asyncio.sleep] and [time.sleep] change neither and are left out. *)

(** *** Rate limiting *)

Definition float_2_0 : float := S754_finite false 4503599627370496 (-51).
Definition float_2_5 : float := S754_finite false 5629499534213120 (-51).

(** [max(a, b)] keeps [a] unless [b > a]. *)
Definition py_max (a b : float) : float :=
  if SFltb a b then b else a.

(** [__init__]: the delay the client keeps. *)
Definition init_rate_limit_delay (rate_limit_delay : float) : float :=
  py_max rate_limit_delay float_2_0.

(** [_rate_limit]: how long the call sleeps, if it does, when
    [time_since_last] seconds have passed since the last request. *)
Definition _rate_limit (rate_limit_delay time_since_last : float) : option float :=
  if SFltb time_since_last rate_limit_delay
  then Some (SFsub 53 1024 rate_limit_delay time_since_last)
  else None.

(** *** Snowflakes *)

(** [_date_to_snowflake]. [Some z] stands for the str that [str(z)]
    returns (never empty, and [int] of it is [z]); [None] is the [None]
    returned after the [ValueError] is logged. *)
Definition _date_to_snowflake (date_str : string) : option Z :=
  match strptime date_str with
  | Some dt =>
      let timestamp_ms := seconds_since_epoch dt 0 0 0 * 1000 in
      let snowflake := Z.shiftl timestamp_ms 22 in
      Some snowflake
  | None => None
  end.

(** The [before_snowflake] that [get_messages_batch] computes in line;
    [None] is the [except ValueError] branch. *)
Definition before_snowflake (before_date : string) : option Z :=
  match strptime before_date with
  | Some before_dt =>
      let timestamp_ms := seconds_since_epoch before_dt 23 59 59 * 1000 in
      Some (Z.shiftl timestamp_ms 22)
  | None => None
  end.

(** *** Messages *)

Record Author : Type := mkAuthor {
  a_id : json;
  a_username : json;
  a_discriminator : json;
  a_bot : json
}.

Record Attachment : Type := mkAttachment {
  att_filename : json;
  att_url : json;
  att_size : json
}.

(** The dict [get_messages] builds for each message. *)
Record Message : Type := mkMessage {
  m_id : json;
  m_content : json;
  m_timestamp : json;
  m_author : Author;
  m_attachments : list Attachment;
  m_embeds : json;
  m_reactions : json;
  m_edited_timestamp : json;
  m_channel_id : string
}.

(** *** The transport *)

(** The query of one [GET /channels/{id}/messages]. [req_after] holds
    the integer whose decimal string is sent. *)
Record Request : Type := mkRequest {
  req_channel : string;
  req_limit : Z;
  req_before : option json;
  req_after : option Z
}.

(** What [self._make_request(...)] followed by [response.json()] comes
    to: an exception (HTTP error status, network failure, undecodable
    body) or the decoded body. The waits and retries on status 429
    happen inside [_make_request]; a request that is throttled without
    end never comes back and has no [Response]. *)
Inductive Response : Type :=
| Failed
| Body (j : json).

(** The remote side: the answer to the latest request, given every
    request of this client so far (latest first). *)
Definition Transport : Type := list Request -> Response.

(** *** [get_messages] *)

Definition process_attachment (att : json) : Py Attachment :=
  filename <- py_get att "filename" JNull ;;
  url <- py_get att "url" JNull ;;
  size <- py_get att "size" JNull ;;
  Returned (mkAttachment filename url size).

Definition process_author (msg : json) : Py Author :=
  a1 <- py_get msg "author" (JObj []) ;;
  id <- py_get a1 "id" JNull ;;
  a2 <- py_get msg "author" (JObj []) ;;
  username <- py_get a2 "username" JNull ;;
  a3 <- py_get msg "author" (JObj []) ;;
  discriminator <- py_get a3 "discriminator" JNull ;;
  a4 <- py_get msg "author" (JObj []) ;;
  bot <- py_get a4 "bot" (JBool false) ;;
  Returned (mkAuthor id username discriminator bot).

Definition process_message (channel_id : string) (msg : json) : Py Message :=
  id <- py_get msg "id" JNull ;;
  content <- py_get msg "content" (JStr "") ;;
  timestamp <- py_get msg "timestamp" JNull ;;
  author <- process_author msg ;;
  atts <- py_get msg "attachments" (JArr []) ;;
  atts <- py_iter atts ;;
  attachments <- py_mapM process_attachment atts ;;
  embeds <- py_get msg "embeds" (JArr []) ;;
  reactions <- py_get msg "reactions" (JArr []) ;;
  edited_timestamp <- py_get msg "edited_timestamp" JNull ;;
  Returned (mkMessage id content timestamp author attachments embeds
                      reactions edited_timestamp channel_id).

(** The query [get_messages] sends: [before] is added when it is
    truthy, [after] when it is given. *)
Definition params (channel_id : string) (limit : Z) (before : json)
    (after : option Z) : Request :=
  mkRequest channel_id limit
            (if py_truthy before then Some before else None)
            after.

(** The body of the [try] block once the request is built. *)
Definition fetch_and_process (tr : Transport) (log : list Request)
    (channel_id : string) : Py (list Message) :=
  match tr log with
  | Failed => Raised RequestException
  | Body messages =>
      msgs <- py_iter messages ;;
      py_mapM (process_message channel_id) msgs
  end.

(** [get_messages]: the page, and the request log with this request
    added. Every exception is logged and turned into an empty page. *)
Definition get_messages (tr : Transport) (log : list Request)
    (channel_id : string) (limit : Z) (before : json) (after : option Z)
    : list Message * list Request :=
  let limit := Z.min limit 100 in
  let log := params channel_id limit before after :: log in
  (py_except (fetch_and_process tr log channel_id) [], log).

(** *** [get_messages_batch] *)

(** [len(l)] as the integer Python computes with. *)
Definition len {A : Type} (l : list A) : Z := Z.of_nat (List.length l).

(** The head of the loop body: [None] is the [break] on an exhausted
    budget, [Some n] the [current_batch_size]. The guard
    [total_limit and total_limit > 0] holds for a positive integer
    only. *)
Definition current_batch_size (total_limit : option Z) (batch_size : Z)
    (collected : Z) : option Z :=
  match total_limit with
  | Some tl =>
      if negb (tl =? 0) && (0 <? tl) then
        let remaining := tl - collected in
        if remaining <=? 0 then None
        else Some (Z.min batch_size remaining)
      else Some batch_size
  | None => Some batch_size
  end.

(** The date filter over one page: the messages kept, and whether a
    message older than the bound was met (which ends the harvest). *)
Fixpoint filter_after (after_snowflake : Z) (messages : list Message)
    : Py (list Message * bool) :=
  match messages with
  | [] => Returned ([], false)
  | msg :: rest =>
      i <- py_int (m_id msg) ;;
      if after_snowflake <=? i then
        r <- filter_after after_snowflake rest ;;
        Returned (msg :: fst r, snd r)
      else Returned ([], true)
  end.

(** [messages[-1]['id']] of a page known not to be empty. *)
Definition last_id (messages : list Message) : json :=
  match rev messages with
  | m :: _ => m_id m
  | [] => JNull
  end.

(** What a run of the harvest comes to: the value returned or the
    exception raised ([None] while the loop is still running after
    [fuel] iterations), and the requests issued, latest first. *)
Definition Run : Type := (option (Py (list Message)) * list Request)%type.

(** One pass through the body of [while True]: the harvest ends, or the
    loop goes round again with a new [all_messages] and [before_id]. *)
Inductive Step : Type :=
| Done (result : Py (list Message)) (log : list Request)
| Again (all_messages : list Message) (before_id : json) (log : list Request).

Section Batch.
Variable tr : Transport.
Variable channel_id : string.
Variable total_limit : option Z.
Variable batch_size : Z.             (* already [min(batch_size, 100)] *)
Variable after_snowflake : option Z.

Definition batch_step (all_messages : list Message) (before_id : json)
    (log : list Request) : Step :=
  match current_batch_size total_limit batch_size (len all_messages) with
  | None => Done (Returned all_messages) log
  | Some size =>
      let after_param :=
        if len all_messages =? 0 then after_snowflake else None in
      let '(messages, log) :=
        get_messages tr log channel_id size before_id after_param in
      match messages with
      | [] => Done (Returned all_messages) log
      | _ :: _ =>
          let filtered :=
            match after_snowflake with
            | Some lo => filter_after lo messages
            | None => Returned (messages, false)
            end in
          match filtered with
          | Raised e => Done (Raised e) log
          | Returned (filtered_messages, true) =>
              Done (Returned (all_messages ++ filtered_messages)) log
          | Returned (messages, false) =>
              match messages with
              | [] => Done (Returned all_messages) log
              | _ :: _ =>
                  let all_messages := all_messages ++ messages in
                  let before_id := last_id messages in
                  if len messages <? size
                  then Done (Returned all_messages) log
                  else Again all_messages before_id log
              end
          end
      end
  end.

(** The [while True] loop from a state [all_messages], [before_id]. *)
Fixpoint batch_loop (fuel : nat) (all_messages : list Message)
    (before_id : json) (log : list Request) : Run :=
  match fuel with
  | O => (None, log)
  | S fuel' =>
      match batch_step all_messages before_id log with
      | Done result log => (Some result, log)
      | Again all_messages before_id log =>
          batch_loop fuel' all_messages before_id log
      end
  end.
End Batch.

(** A date argument is used when it is given and not the empty string. *)
Definition given (date : option string) : option string :=
  match date with
  | Some s => if String.eqb s "" then None else Some s
  | None => None
  end.

(** The prologue for one bound of the window: [None] is the early
    [return []] on a date that does not parse, [Some b] the bound to go
    on with ([Some None] when no date is given). *)
Definition bound (to_snowflake : string -> option Z) (date : option string)
    : option (option Z) :=
  match given date with
  | Some d =>
      match to_snowflake d with
      | Some s => Some (Some s)
      | None => None
      end
  | None => Some None
  end.

(** [get_messages_batch], run for at most [fuel] iterations of its loop
    on a client whose request log is [log]. The [before_snowflake] it
    computes is not used after the prologue. *)
Definition get_messages_batch (tr : Transport) (log : list Request)
    (fuel : nat) (channel_id : string) (total_limit : option Z)
    (batch_size : Z) (after_date before_date : option string) : Run :=
  let batch_size := Z.min batch_size 100 in
  match bound _date_to_snowflake after_date with
  | None => (Some (Returned []), log)
  | Some after_snowflake =>
      match bound before_snowflake before_date with
      | None => (Some (Returned []), log)
      | Some _ =>
          batch_loop tr channel_id total_limit batch_size after_snowflake
                     fuel [] JNull log
      end
  end.

(** *** [format_messages_markdown] *)

(** The ordering step of the renderer,
    [sorted(messages, key=lambda x: x['timestamp'])]. *)
Definition sorted_messages (messages : list Message) : Py (list Message) :=
  py_sorted m_timestamp messages.

(** *** The shape of a normalised record *)

(** The value [d.get(key, default)] has on a dict. *)
Definition field (d : list (string * json)) (key : string) (default : json)
    : json :=
  match dict_lookup key d with
  | Some v => v
  | None => default
  end.

Definition is_object (v : json) : bool :=
  match v with
  | JObj _ => true
  | _ => false
  end.

(** The raw records [get_messages] can normalise: a dict whose author,
    when present, is a dict and whose attachments, when present, can be
    iterated and are dicts. No other field is looked into. *)
Definition normalizable (raw : json) : bool :=
  match raw with
  | JObj d =>
      is_object (field d "author" (JObj []))
      && match py_iter (field d "attachments" (JArr [])) with
         | Returned atts => forallb is_object atts
         | Raised _ => false
         end
  | _ => false
  end.

Definition normalized_author (a : list (string * json)) : Author :=
  mkAuthor (field a "id" JNull) (field a "username" JNull)
           (field a "discriminator" JNull) (field a "bot" (JBool false)).

Definition normalized_attachment (att : json) : Attachment :=
  match att with
  | JObj d =>
      mkAttachment (field d "filename" JNull) (field d "url" JNull)
                   (field d "size" JNull)
  | _ => mkAttachment JNull JNull JNull
  end.

(** The record a normalisable raw message becomes, field by field: a
    key that is missing reads as [None], or as the default the code
    names for it. *)
Definition normalized (channel_id : string) (raw : json) : Message :=
  let d := match raw with JObj d => d | _ => [] end in
  mkMessage
    (field d "id" JNull)
    (field d "content" (JStr ""))
    (field d "timestamp" JNull)
    (normalized_author
       match field d "author" (JObj []) with JObj a => a | _ => [] end)
    (map normalized_attachment
       match py_iter (field d "attachments" (JArr [])) with
       | Returned atts => atts
       | Raised _ => []
       end)
    (field d "embeds" (JArr []))
    (field d "reactions" (JArr []))
    (field d "edited_timestamp" JNull)
    channel_id.

(* ===================================================================== *)
(** ** Transports and channels to run the client against *)
(* ===================================================================== *)

(** A transport that answers the n-th request of the client with the
    n-th entry of a script, and with an empty page after that. *)
Definition scripted (script : list Response) : Transport :=
  fun log => nth (List.length log - 1) script (Body (JArr [])).

(** [str(n)] for an integer of at most 4300 digits, as are the
    snowflakes, ids and counts it is used on; of a longer one [str]
    raises [ValueError]. *)
Definition py_str (n : Z) : string :=
  NilZero.string_of_int (Z.to_int n).

(** A raw message object as the platform sends it. *)
Definition raw_message (id : Z) (timestamp : string) : json :=
  JObj [("id", JStr (py_str id));
        ("content", JStr "hello");
        ("timestamp", JStr timestamp);
        ("author", JObj [("id", JStr "7"); ("username", JStr "ann");
                         ("discriminator", JStr "0")]);
        ("attachments", JArr []);
        ("embeds", JArr [])].

(** The integer a raw message carries as its id, when the client can
    normalise the message and the id is a str that [int] reads. *)
Definition raw_id (raw : json) : option Z :=
  match process_message "" raw with
  | Returned m =>
      match m_id m with
      | JStr s => int_of_str s
      | _ => None
      end
  | Raised _ => None
  end.

Definition older_than (b : Z) (raw : json) : bool :=
  match raw_id raw with
  | Some i => i <? b
  | None => false
  end.

Definition newer_than (a : Z) (raw : json) : bool :=
  match raw_id raw with
  | Some i => a <? i
  | None => false
  end.

(** A model of the remote endpoint for one channel, whose messages are
    listed newest first. A limit outside 1..100 or a cursor that is not
    a number is refused; [before] serves the newest messages older than
    the cursor, [after] alone the oldest messages newer than it, no
    cursor the newest messages; at most [limit] of them, newest first. *)
Definition channel_transport (channel : list json) : Transport :=
  fun log =>
    match log with
    | [] => Failed
    | r :: _ =>
        if (1 <=? req_limit r) && (req_limit r <=? 100) then
          let n := Z.to_nat (req_limit r) in
          match req_before r, req_after r with
          | Some b, _ =>
              match py_int b with
              | Returned b => Body (JArr (firstn n (filter (older_than b) channel)))
              | Raised _ => Failed
              end
          | None, Some a =>
              let newer := filter (newer_than a) channel in
              Body (JArr (skipn (List.length newer - n) newer))
          | None, None => Body (JArr (firstn n channel))
          end
        else Failed
    end.

(** Ids strictly descending: the order of the wire, newest first. *)
Fixpoint descending (ids : list Z) : bool :=
  match ids with
  | a :: (b :: _) as rest => (b <? a) && descending rest
  | _ => true
  end.

Fixpoint ascending (ids : list Z) : bool :=
  match ids with
  | a :: (b :: _) as rest => (a <? b) && ascending rest
  | _ => true
  end.

Fixpoint all_some {A : Type} (l : list (option A)) : option (list A) :=
  match l with
  | [] => Some []
  | Some x :: l' => option_map (cons x) (all_some l')
  | None :: _ => None
  end.

(** A channel the client can walk: every message normalises, carries a
    decimal id, and the ids strictly descend. *)
Definition channel_ok (channel : list json) : bool :=
  match all_some (map raw_id channel) with
  | Some ids => descending ids
  | None => false
  end.

(** The integer ids of a list of messages, when [int] reads them all. *)
Definition message_ids (l : list Message) : option (list Z) :=
  all_some (map (fun m => match py_int (m_id m) with
                          | Returned i => Some i
                          | Raised _ => None
                          end) l).

(** Strictly ascending by identifier. *)
Definition ascending_by_id (l : list Message) : bool :=
  match message_ids l with
  | Some ids => ascending ids
  | None => false
  end.

(** The ids of the messages a run returned. *)
Definition returned_ids (r : Run) : option (list Z) :=
  match fst r with
  | Some (Returned l) => message_ids l
  | _ => None
  end.

(** [a <= b] on timestamps that are strs. *)
Definition timestamp_le (a b : Message) : Prop :=
  exists s t, m_timestamp a = JStr s /\ m_timestamp b = JStr t
              /\ String.leb s t = true.

Definition str_timestamp (m : Message) : Prop :=
  exists s, m_timestamp m = JStr s.

(** A channel of [n] messages with ids [n], ..., 1, newest first. *)
Definition sample_channel (n : nat) : list json :=
  map (fun i => raw_message (Z.of_nat i) "2024-05-01T00:00:00+00:00")
      (rev (seq 1 n)).

(* ===================================================================== *)
(** ** The renderer: [format_messages_markdown] *)
(* ===================================================================== *)

(** A line feed. *)
Definition nl : string := String (ascii_of_nat 10) EmptyString.

(** [s.replace(old, new)] for an [old] of one character. *)
Fixpoint replace_char (old : ascii) (new : string) (s : string) : string :=
  match s with
  | EmptyString => EmptyString
  | String c s' =>
      if Ascii.eqb c old then (new ++ replace_char old new s')%string
      else String c (replace_char old new s')
  end.

(** ASCII white space as [str.strip] sees it: 0x09-0x0D, 0x1C-0x20. *)
Definition is_space (c : ascii) : bool :=
  let n := nat_of_ascii c in
  ((9 <=? n)%nat && (n <=? 13)%nat) || ((28 <=? n)%nat && (n <=? 32)%nat).

(** White space as [str.strip] sees it, on the UTF-8 bytes of a str:
    the ASCII characters of [is_space], U+0085 and U+00A0 (two bytes),
    U+1680, U+2000 to U+200A, U+2028, U+2029, U+202F, U+205F and U+3000
    (three bytes). *)
Definition space2 (a b : ascii) : bool :=
  let x := nat_of_ascii a in
  let y := nat_of_ascii b in
  ((x =? 194) && ((y =? 133) || (y =? 160)))%nat.

Definition space3 (a b c : ascii) : bool :=
  let x := nat_of_ascii a in
  let y := nat_of_ascii b in
  let z := nat_of_ascii c in
  (((x =? 225) && (y =? 154) && (z =? 128))
   || ((x =? 226) && (y =? 128)
       && (((128 <=? z) && (z <=? 138))
           || (z =? 168) || (z =? 169) || (z =? 175)))
   || ((x =? 226) && (y =? 129) && (z =? 159))
   || ((x =? 227) && (y =? 128) && (z =? 128)))%nat.

Fixpoint strip_left (s : string) : string :=
  match s with
  | String a s1 =>
      if is_space a then strip_left s1
      else
        match s1 with
        | String b s2 =>
            if space2 a b then strip_left s2
            else
              match s2 with
              | String c s3 => if space3 a b c then strip_left s3 else s
              | EmptyString => s
              end
        | EmptyString => s
        end
  | EmptyString => EmptyString
  end.

(** The same on a str whose bytes are in reverse order. *)
Fixpoint strip_left_reversed (s : string) : string :=
  match s with
  | String c s1 =>
      if is_space c then strip_left_reversed s1
      else
        match s1 with
        | String b s2 =>
            if space2 b c then strip_left_reversed s2
            else
              match s2 with
              | String a s3 =>
                  if space3 a b c then strip_left_reversed s3 else s
              | EmptyString => s
              end
        | EmptyString => s
        end
  | EmptyString => EmptyString
  end.

Definition string_rev (s : string) : string :=
  string_of_list_ascii (rev (list_ascii_of_string s)).

(** [s.strip()]. *)
Definition py_strip (s : string) : string :=
  strip_left (string_rev (strip_left_reversed (string_rev s))).

(** The number of characters of a str: its bytes that do not continue a
    character. *)
Fixpoint utf8_length (s : string) : Z :=
  match s with
  | EmptyString => 0
  | String c s' =>
      let n := nat_of_ascii c in
      (if ((128 <=? n) && (n <? 192))%nat then 0 else 1) + utf8_length s'
  end.

(** [len(v)]. *)
Definition py_len (v : json) : Py Z :=
  match v with
  | JStr s => Returned (utf8_length s)
  | JArr l => Returned (len l)
  | JObj d => Returned (len d)
  | _ => Raised TypeError
  end.

(** The three replacements applied to the content of a message. *)
Definition escape_markdown (content : string) : string :=
  replace_char "_" "\_"
    (replace_char "*" "\*"
       (replace_char "\" "\\" content)).

Section Render.
(** What the renderer takes from the standard library and the clock:
    the text [str] gives for a list, a dict or a float,
    [datetime.now().isoformat()],
    and [datetime.fromisoformat(s).strftime('%Y-%m-%d %H:%M:%S UTC')],
    which raises on a text it cannot read. *)
Variable repr_container : json -> string.
Variable now : string.
Variable strftime_utc : string -> Py string.

(** The text an f-string puts for a value. *)
Definition py_format (v : json) : string :=
  match v with
  | JNull => "None"
  | JBool true => "True"
  | JBool false => "False"
  | JNum n => py_str n
  | JStr s => s
  | JArr _ | JObj _ | JFloat _ => repr_container v
  end.

Definition time_str (timestamp : json) : Py string :=
  if py_truthy timestamp then
    match timestamp with
    | JStr s => strftime_utc (replace_char "Z" "+00:00" s)
    | _ => Raised AttributeError
    end
  else Returned "Unknown time".

Definition author_name (author : Author) : string :=
  let name := py_format (a_username author) in
  let name :=
    if py_truthy (a_discriminator author)
       && negb (py_eq (a_discriminator author) (JStr "0"))
    then (name ++ "#" ++ py_format (a_discriminator author))%string
    else name in
  if py_truthy (a_bot author) then (name ++ " [BOT]")%string else name.

Definition attachment_line (att : Attachment) : string :=
  ("- [" ++ py_format (att_filename att) ++ "]("
   ++ py_format (att_url att) ++ ") ("
   ++ py_format (att_size att) ++ " bytes)" ++ nl)%string.

(** The body of the loop for one message; a message with nothing to show
    adds nothing. *)
Definition render_message (msg : Message) : Py string :=
  time <- time_str (m_timestamp msg) ;;
  let name := author_name (m_author msg) in
  content <- match m_content msg with
             | JStr s => Returned (py_strip s)
             | _ => Raised AttributeError
             end ;;
  let no_content := String.eqb content "" in
  let no_attachments :=
    match m_attachments msg with [] => true | _ :: _ => false end in
  if no_content && no_attachments && negb (py_truthy (m_embeds msg)) then
    Returned ""
  else
    embeds <- (if py_truthy (m_embeds msg) then
                 n <- py_len (m_embeds msg) ;;
                 Returned (nl ++ "*Embeds: " ++ py_str n ++ " embed(s)*" ++ nl)%string
               else Returned "") ;;
    Returned
      ("**[" ++ time ++ "]** **" ++ name ++ ":**" ++ nl
       ++ (if no_content then "" else escape_markdown content ++ nl)
       ++ (if no_attachments then ""
           else nl ++ "*Attachments:*" ++ nl
                ++ String.concat "" (map attachment_line (m_attachments msg)))
       ++ embeds ++ nl)%string.

(** The lines on the channel. *)
Definition render_channel (channel_info : json) : Py string :=
  if py_truthy channel_info then
    name <- py_get channel_info "name" (JStr "Unknown") ;;
    channel_id <- py_get channel_info "channel_id" (JStr "Unknown") ;;
    topic <- py_get channel_info "topic" JNull ;;
    Returned
      ("**Channel:** #" ++ py_format name ++ nl
       ++ "**Channel ID:** " ++ py_format channel_id ++ nl
       ++ (if py_truthy topic
           then "**Topic:** " ++ py_format topic ++ nl else ""))%string
  else Returned "".

(** [format_messages_markdown(messages, channel_info)], with [JNull]
    for a [channel_info] that is not given. *)
Definition format_messages_markdown (messages : list Message)
    (channel_info : json) : Py string :=
  match messages with
  | [] =>
      Returned ("# Discord Messages" ++ nl ++ nl
                ++ "No messages found." ++ nl)%string
  | _ :: _ =>
      sorted <- sorted_messages messages ;;
      channel <- render_channel channel_info ;;
      entries <- py_mapM render_message sorted ;;
      Returned
        ("# Discord Messages" ++ nl ++ nl
         ++ channel
         ++ "**Messages:** " ++ py_str (len sorted) ++ nl
         ++ "**Captured:** " ++ now ++ nl ++ nl
         ++ "---" ++ nl ++ nl
         ++ String.concat "" entries)%string
  end.
End Render.

(* ===================================================================== *)
(** ** Capturing a channel: [get_channel_info] and [capture_channel] *)
(* ===================================================================== *)

(** [DiscordChannelConfig]. *)
Record DiscordChannelConfig : Type := mkDiscordChannelConfig {
  cfg_name : string;
  cfg_guild_id : option string;
  cfg_channel_id : string;
  cfg_thread_id : option string;
  cfg_last_message_id : option string;
  cfg_enabled : bool;
  cfg_max_history : Z
}.

(** What [get_channel_info] returns: the dict whose [success] is
    [False] (the text of its [error] is not modelled), or the five
    entries read off the channel. *)
Inductive ChannelInfo : Type :=
| InfoError
| Info (channel_id name type guild_id topic : json).

(** [get_channel_info], from the answer of the platform to the request
    for the channel. Every exception gives the error dict. *)
Definition get_channel_info (response : Response) : ChannelInfo :=
  match response with
  | Failed => InfoError
  | Body channel_data =>
      py_except
        (channel_id <- py_get channel_data "id" JNull ;;
         name <- py_get channel_data "name" JNull ;;
         type <- py_get channel_data "type" JNull ;;
         guild_id <- py_get channel_data "guild_id" JNull ;;
         topic <- py_get channel_data "topic" JNull ;;
         Returned (Info channel_id name type guild_id topic))
        InfoError
  end.

(** The dict [capture_channel] returns, by its [status]; the
    [channel_config] entry is the argument itself and is left out. *)
Inductive Capture : Type :=
| Skipped
| CannotAccess
| CaptureFailed (e : Exn)
| Success (channel_info : ChannelInfo) (messages : list Message)
          (message_count : Z).

(** [capture_channel]: [info] is the answer to the request for the
    channel, [tr] answers the requests for its messages. *)
Definition capture_channel (info : Response) (tr : Transport)
    (log : list Request) (fuel : nat) (channel_config : DiscordChannelConfig)
    : option Capture * list Request :=
  if negb (cfg_enabled channel_config) then (Some Skipped, log)
  else
    match get_channel_info info with
    | InfoError => (Some CannotAccess, log)
    | Info _ _ _ _ _ as channel_info =>
        match get_messages_batch tr log fuel (cfg_channel_id channel_config)
                                 (Some (cfg_max_history channel_config)) 50
                                 None None with
        | (Some (Returned messages), log) =>
            (Some (Success channel_info messages (len messages)), log)
        | (Some (Raised e), log) => (Some (CaptureFailed e), log)
        | (None, log) => (None, log)
        end
    end.

(* ===================================================================== *)
(** ** Notions the statements use *)
(* ===================================================================== *)

(** The character of a decimal digit. *)
Definition digit_char (x : Z) : ascii := ascii_of_nat (48 + Z.to_nat x).

(** The zero-padded text YYYY-MM-DD of a date, as [date.isoformat()]
    writes it. *)
Definition isoformat (d : date) : string :=
  String (digit_char (year d / 1000))
 (String (digit_char (year d / 100 mod 10))
 (String (digit_char (year d / 10 mod 10))
 (String (digit_char (year d mod 10))
 (String "-"
 (String (digit_char (month d / 10))
 (String (digit_char (month d mod 10))
 (String "-"
 (String (digit_char (day d / 10))
 (String (digit_char (day d mod 10)) EmptyString))))))))).

(** [int(msg['id'])] is read and is at least [lo]. *)
Definition at_or_above (lo : Z) (m : Message) : Prop :=
  exists i, py_int (m_id m) = Returned i /\ lo <= i.

Definition below (lo : Z) (m : Message) : Prop :=
  exists i, py_int (m_id m) = Returned i /\ i < lo.

(** The exceptions [int(x)] raises. *)
Definition int_error (e : Exn) : Prop :=
  e = TypeError \/ e = ValueError \/ e = OverflowError.

(** The platform's contract for [limit]: a page holds no more records
    than were asked for. *)
Definition respects_limit (tr : Transport) : Prop :=
  forall r log l, tr (r :: log) = Body (JArr l) -> len l <= Z.max 0 (req_limit r).

(** The request log a step leaves. *)
Definition step_log (s : Step) : list Request :=
  match s with
  | Done _ log => log
  | Again _ _ log => log
  end.

(** The raw messages [raws] carry the integer ids [ids], in order. *)
Definition has_ids (raws : list json) (ids : list Z) : Prop :=
  map raw_id raws = map Some ids.

(** The page [get_messages] hands back for the latest request of [log]. *)
Definition page_of (tr : Transport) (channel_id : string)
    (log : list Request) : list Message :=
  py_except (fetch_and_process tr log channel_id) [].

(** What the date filter keeps of a page. *)
Definition kept (after_snowflake : option Z) (page : list Message)
    : list Message :=
  match after_snowflake with
  | Some lo =>
      match filter_after lo page with
      | Returned (filtered_messages, _) => filtered_messages
      | Raised _ => []
      end
  | None => page
  end.

(** The pages answered to the requests [new] (latest first) that were
    issued after the requests [base]; oldest request first. *)
Fixpoint pages (tr : Transport) (channel_id : string) (base new : list Request)
    : list (list Message) :=
  match new with
  | [] => []
  | r :: new' =>
      pages tr channel_id base new'
      ++ [page_of tr channel_id (r :: new' ++ base)]
  end.

(** The lower bound a harvest runs with. *)
Definition after_bound (after_date : option string) : option Z :=
  match bound _date_to_snowflake after_date with
  | Some b => b
  | None => None
  end.

(** What is left of a budget after [collected] messages: [None] when the
    harvest runs without one. *)
Definition quota (total_limit : option Z) (collected : Z) : option Z :=
  match total_limit with
  | Some B => if 0 <? B then Some (B - collected) else None
  | None => None
  end.

(** The part of [rest] a harvest still has to bring in under a quota. *)
Definition within_quota {A : Type} (q : option Z) (rest : list A) : list A :=
  match q with
  | Some n => firstn (Z.to_nat n) rest
  | None => rest
  end.

(** The cursor [get_messages] sends for a [before] argument. *)
Definition sent_cursor (before : json) : option json :=
  if py_truthy before then Some before else None.

(** The requests [new] (latest first) follow the paging protocol of a
    harvest that returned [r]: the first carries the cursor and the lower
    bound it was started with; every later one carries no lower bound,
    and as cursor nothing or the id of a harvested message. *)
Definition paging (first_before : option json) (first_after : option Z)
    (r : list Message) (new : list Request) : Prop :=
  new = []
  \/ exists later first,
       new = later ++ [first]
       /\ req_before first = first_before
       /\ req_after first = first_after
       /\ Forall (fun q =>
                    req_after q = None
                    /\ (req_before q = None
                        \/ exists m, In m r /\ req_before q = Some (m_id m)))
                 later.

(** A page one of whose records has no id. *)
Definition page_without_id : Transport :=
  scripted [Body (JArr [raw_message 500000000000000 "2015-01-02T09:06:49+00:00";
                        JObj [("content", JStr "no id")];
                        raw_message 400000000000000 "2015-01-02T02:29:27+00:00"])].

(** A page whose record has the id 1e400, which [response.json()]
    reads as the float infinity. *)
Definition page_with_infinite_id : Transport :=
  scripted [Body (JArr [JObj [("id", JFloat (S754_infinity false))]])].

(** The str whose UTF-8 bytes are [l]. *)
Definition of_bytes (l : list Z) : string :=
  string_of_list_ascii (map (fun b => ascii_of_nat (Z.to_nat b)) l).

(** A second page one of whose records has an author that is not an
    object. *)
Definition bad_second_page : Transport :=
  scripted [Body (JArr [raw_message 6 "2024-05-06T00:00:00+00:00";
                        raw_message 5 "2024-05-05T00:00:00+00:00"]);
            Body (JArr [raw_message 4 "2024-05-04T00:00:00+00:00";
                        JObj [("id", JStr "3"); ("author", JNull)]])].

(** [d1] is an earlier day than [d2]. *)
Definition date_lt (d1 d2 : date) : Prop :=
  year d1 < year d2
  \/ (year d1 = year d2
      /\ (month d1 < month d2
          \/ (month d1 = month d2 /\ day d1 < day d2))).

(** The number a decimal numeral stands for, read from the left with
    [acc] the number read so far. *)
Fixpoint uint_value (d : Decimal.uint) (acc : Z) : Z :=
  match d with
  | Decimal.Nil => acc
  | Decimal.D0 l => uint_value l (10 * acc + 0)
  | Decimal.D1 l => uint_value l (10 * acc + 1)
  | Decimal.D2 l => uint_value l (10 * acc + 2)
  | Decimal.D3 l => uint_value l (10 * acc + 3)
  | Decimal.D4 l => uint_value l (10 * acc + 4)
  | Decimal.D5 l => uint_value l (10 * acc + 5)
  | Decimal.D6 l => uint_value l (10 * acc + 6)
  | Decimal.D7 l => uint_value l (10 * acc + 7)
  | Decimal.D8 l => uint_value l (10 * acc + 8)
  | Decimal.D9 l => uint_value l (10 * acc + 9)
  end.

(** The characters of a decimal numeral. *)
Fixpoint uint_codes (d : Decimal.uint) : list Z :=
  match d with
  | Decimal.Nil => []
  | Decimal.D0 l => 48 :: uint_codes l
  | Decimal.D1 l => 49 :: uint_codes l
  | Decimal.D2 l => 50 :: uint_codes l
  | Decimal.D3 l => 51 :: uint_codes l
  | Decimal.D4 l => 52 :: uint_codes l
  | Decimal.D5 l => 53 :: uint_codes l
  | Decimal.D6 l => 54 :: uint_codes l
  | Decimal.D7 l => 55 :: uint_codes l
  | Decimal.D8 l => 56 :: uint_codes l
  | Decimal.D9 l => 57 :: uint_codes l
  end.

(** [b] was sent strictly before [a]: both timestamps are strs and the
    one of [b] is the smaller. *)
Definition timestamp_gt (a b : Message) : Prop :=
  exists s t, m_timestamp a = JStr s /\ m_timestamp b = JStr t
              /\ String.ltb t s = true.

(** Reading an escaped text back: a backslash is dropped and the
    character after it is kept as it is. *)
Fixpoint unescape (s : string) : string :=
  match s with
  | String c s1 =>
      if Ascii.eqb c "\" then
        match s1 with
        | String d s2 => String d (unescape s2)
        | EmptyString => String c EmptyString
        end
      else String c (unescape s1)
  | EmptyString => EmptyString
  end.

(** A message the renderer can print: a str timestamp that is empty or
    that [fromisoformat] reads, a str content, and embeds that are empty
    or have a length. *)
Definition renderable (strftime_utc : string -> Py string) (m : Message)
    : Prop :=
  (exists s, m_timestamp m = JStr s
             /\ (s = ""
                 \/ exists t, strftime_utc (replace_char "Z" "+00:00" s)
                              = Returned t))
  /\ (exists c, m_content m = JStr c)
  /\ (py_truthy (m_embeds m) = false
      \/ exists n, py_len (m_embeds m) = Returned n).

(** A message with nothing to show: a content of white space only, no
    attachments and no embeds. *)
Definition blank (m : Message) : Prop :=
  (exists c, m_content m = JStr c /\ py_strip c = "")
  /\ m_attachments m = []
  /\ py_truthy (m_embeds m) = false.

(** A transport that answers every request with as many records as
    were asked for, all of which can be normalised. *)
Definition always_full (tr : Transport) : Prop :=
  forall r log,
    1 <= req_limit r ->
    exists l, tr (r :: log) = Body (JArr l)
              /\ forallb normalizable l = true
              /\ len l = req_limit r.

(** *** Sample transports *)

(** A transport that serves the same message over and over, whatever
    cursor it is sent. *)
Definition endless : Transport :=
  fun log =>
    match log with
    | r :: _ =>
        Body (JArr (repeat (raw_message 1 "2024-05-01T00:00:00+00:00")
                           (Z.to_nat (req_limit r))))
    | [] => Failed
    end.

(** A transport every request of which fails. *)
Definition unreachable : Transport := fun _ => Failed.

(** Two records whose content is white space. *)
Definition blank_records : list json :=
  [JObj [("id", JStr "2"); ("content", JStr "  ");
         ("timestamp", JStr "2024-05-02T10:00:00Z")];
   JObj [("id", JStr "1"); ("content", JStr "");
         ("timestamp", JStr "2024-05-01T10:00:00Z")]].

(** Messages of three days, newest first. *)
Definition three_days : list json :=
  [raw_message 3 "2024-05-03T10:00:00+00:00";
   raw_message 2 "2024-05-02T10:00:00+00:00";
   raw_message 1 "2024-05-01T10:00:00+00:00"].

(** A transport that serves two pages of a channel and then fails. *)
Definition fails_on_third : Transport :=
  scripted [Body (JArr [raw_message 6 "2024-05-06T00:00:00+00:00";
                        raw_message 5 "2024-05-05T00:00:00+00:00"]);
            Body (JArr [raw_message 4 "2024-05-04T00:00:00+00:00";
                        raw_message 3 "2024-05-03T00:00:00+00:00"]);
            Failed].

(** A page that crosses the bound of 2015-01-02. *)
Definition crossing_page : Transport :=
  scripted [Body (JArr [raw_message 500000000000000 "2015-01-02T09:06:49+00:00";
                        raw_message 400000000000000 "2015-01-02T02:29:27+00:00";
                        raw_message 300000000000000 "2015-01-01T19:52:05+00:00";
                        raw_message 200000000000000 "2015-01-01T13:14:43+00:00"])].

(* ===================================================================== *)
(** ** Lemmas *)
(* ===================================================================== *)

(** *** The date codec *)

Lemma seconds_end_of_day (d : date) :
  seconds_since_epoch d 23 59 59 = seconds_since_epoch d 0 0 0 + 86399.
Proof. unfold seconds_since_epoch. lia. Qed.

Example epoch_is_zero : _date_to_snowflake "2015-01-01" = Some 0.
Proof. reflexivity. Qed.

Example strptime_one_digit_fields :
  strptime "2024-1-5" = Some (mkdate 2024 1 5)
  /\ strptime "2024-01- 5" = Some (mkdate 2024 1 5).
Proof. split; reflexivity. Qed.

(** [\d] takes the digits of any script: a year in fullwidth digits is
    read, a month is not. *)
Example strptime_other_digits :
  strptime (of_bytes [239; 188; 146; 239; 188; 144; 239; 188; 146;
                      239; 188; 148; 45; 48; 49; 45; 48; 53])
  = Some (mkdate 2024 1 5)
  /\ strptime (of_bytes [50; 48; 50; 52; 45; 48; 49; 45; 49; 239; 188; 149])
     = Some (mkdate 2024 1 15)
  /\ strptime (of_bytes [50; 48; 50; 52; 45; 239; 188; 144; 239; 188; 145;
                         45; 48; 53])
     = None.
Proof. vm_compute. repeat split. Qed.

Example strptime_rejects :
  strptime "2024/01/05" = None /\ strptime "2023-02-29" = None
  /\ strptime "2024-01-05 " = None /\ strptime "0000-01-01" = None.
Proof. repeat split; reflexivity. Qed.

Lemma byte_digit_char (x : Z) :
  0 <= x <= 9 -> byte (digit_char x) = 48 + x.
Proof.
  intros H.
  assert (Hx : x = 0 \/ x = 1 \/ x = 2 \/ x = 3 \/ x = 4 \/ x = 5 \/ x = 6
               \/ x = 7 \/ x = 8 \/ x = 9) by lia.
  repeat destruct Hx as [-> | Hx]; try reflexivity. now subst.
Qed.

Lemma code_points_ascii (c : ascii) (s : string) :
  byte c < 128 ->
  code_points (String c s) = option_map (cons (byte c)) (code_points s).
Proof.
  intros H. cbn [code_points].
  destruct (Z.ltb_spec (byte c) 128); [reflexivity | lia].
Qed.

Lemma code_points_digit_char (x : Z) (s : string) :
  0 <= x <= 9 ->
  code_points (String (digit_char x) s)
  = option_map (cons (48 + x)) (code_points s).
Proof.
  intros H. cbn [code_points]. rewrite byte_digit_char by assumption.
  destruct (Z.ltb_spec (48 + x) 128); [reflexivity | lia].
Qed.

Lemma digit_of_digit (x : Z) : 0 <= x <= 9 -> digit_of (48 + x) = Some x.
Proof.
  intros H. unfold digit_of.
  destruct (Z.leb_spec 48 (48 + x)); [|lia].
  destruct (Z.leb_spec (48 + x) 57); [|lia].
  cbn [andb]. f_equal. lia.
Qed.

Lemma decimal_of_digit (x : Z) : 0 <= x <= 9 -> decimal_of (48 + x) = Some x.
Proof.
  intros H. unfold decimal_of, decimal_zeros. cbn [find].
  destruct (Z.leb_spec 48 (48 + x)); [|lia].
  destruct (Z.leb_spec (48 + x) (48 + 9)); [|lia].
  cbn [andb]. f_equal. lia.
Qed.

Lemma days_in_month_le_31 (y m : Z) : 1 <= m <= 12 -> _days_in_month y m <= 31.
Proof.
  intros H.
  assert (Hm : m = 1 \/ m = 2 \/ m = 3 \/ m = 4 \/ m = 5 \/ m = 6 \/ m = 7
               \/ m = 8 \/ m = 9 \/ m = 10 \/ m = 11 \/ m = 12) by lia.
  unfold _days_in_month.
  repeat destruct Hm as [-> | Hm]; try subst m; simpl;
    try destruct (_is_leap y); simpl; lia.
Qed.

(** Every calendar date is read back from its ISO text: the codec has no
    failure path on well-formed dates. *)
Lemma strptime_isoformat (d : date) :
  valid_date d = true -> strptime (isoformat d) = Some d.
Proof.
  destruct d as [y m dd]. unfold valid_date. cbn [year month day].
  rewrite !andb_true_iff, !Z.leb_le. intros [[[[[Hy1 Hy2] Hm1] Hm2] Hd1] Hd2].
  pose proof (days_in_month_le_31 y m ltac:(lia)) as H31.
  unfold strptime, isoformat. cbn [year month day].
  do 2 (rewrite !code_points_digit_char by (Z.div_mod_to_equations; lia);
        rewrite (code_points_ascii "-") by reflexivity).
  rewrite !code_points_digit_char by (Z.div_mod_to_equations; lia).
  change (byte "-") with 45. cbn [code_points option_map].
  unfold re_matches. cbn [re_Y].
  rewrite !decimal_of_digit by (Z.div_mod_to_equations; lia).
  replace (1000 * (y / 1000) + 100 * ((y / 100) mod 10)
           + 10 * ((y / 10) mod 10) + y mod 10) with y
    by (Z.div_mod_to_equations; lia).
  cbn [flat_map app fst snd re_dash Z.eqb Pos.eqb].
  unfold re_m. cbn [two_digits one_digit].
  rewrite !digit_of_digit by (Z.div_mod_to_equations; lia).
  assert (Hm : ((m / 10 =? 1) && (m mod 10 <=? 2)
                || (m / 10 =? 0) && (1 <=? m mod 10)) = true).
  { rewrite orb_true_iff, !andb_true_iff, !Z.eqb_eq, !Z.leb_le.
    Z.div_mod_to_equations. lia. }
  rewrite Hm.
  replace (10 * (m / 10) + m mod 10) with m by (Z.div_mod_to_equations; lia).
  cbn [flat_map app fst snd re_dash Z.eqb Pos.eqb].
  assert (Hday : exists more,
             re_d [48 + dd / 10; 48 + dd mod 10] = (dd, []) :: more).
  { unfold re_d, re_d_teens. cbn [two_digits one_digit].
    rewrite !digit_of_digit, !decimal_of_digit
      by (Z.div_mod_to_equations; lia).
    replace (10 * (dd / 10) + dd mod 10) with dd
      by (Z.div_mod_to_equations; lia).
    assert (Hcase : dd / 10 = 3 /\ dd mod 10 <= 1
                    \/ 1 <= dd / 10 <= 2
                    \/ dd / 10 = 0 /\ 1 <= dd mod 10)
      by (Z.div_mod_to_equations; lia).
    destruct Hcase as [[H3 H1] | [H12 | [H0 H1]]].
    - rewrite H3 in *. cbn [Z.eqb Pos.eqb andb].
      destruct (Z.leb_spec (dd mod 10) 1); [|lia]. now eexists.
    - destruct (Z.eqb_spec (dd / 10) 3); [lia|]. cbn [andb app].
      destruct (Z.leb_spec 1 (dd / 10)); [|lia].
      destruct (Z.leb_spec (dd / 10) 2); [|lia]. now eexists.
    - rewrite H0 in *. cbn [Z.eqb Z.leb Z.compare Pos.eqb andb app].
      destruct (Z.leb_spec 1 (dd mod 10)); [|lia]. now eexists. }
  destruct Hday as [more ->].
  cbn [flat_map app fst snd map andb].
  unfold valid_date. cbn [year month day].
  repeat match goal with
         | |- context [?a <=? ?b] => destruct (Z.leb_spec a b); [|lia]
         end.
  reflexivity.
Qed.

Lemma strptime_valid (D : string) (d : date) :
  strptime D = Some d -> valid_date d = true.
Proof.
  unfold strptime. destruct (code_points D) as [text|]; [|discriminate].
  destruct (re_matches text) as [|[d0 rest] ?]; [discriminate|].
  destruct rest; [|discriminate].
  destruct (valid_date d0) eqn:Hv; [|discriminate].
  now intros [= <-].
Qed.

(** C7: for every calendar date [d], the lower bound
    ([_date_to_snowflake], midnight UTC) and the upper bound (the
    [before_snowflake] of [get_messages_batch], 23:59:59 UTC) are
    computed from the date's text YYYY-MM-DD, and from every other text
    that reads as [d]; each is the count of milliseconds since
    2015-01-01T00:00:00Z shifted left by 22 bits; the lower is at most
    the upper, and their difference is 86399000 shifted left by 22
    bits. *)
Theorem day_bounds_gap (d : date) (H : valid_date d = true) :
  exists lo hi,
    lo = Z.shiftl (seconds_since_epoch d 0 0 0 * 1000) 22
    /\ hi = Z.shiftl (seconds_since_epoch d 23 59 59 * 1000) 22
    /\ seconds_since_epoch d 0 0 0
       = (_ymd2ord (year d) (month d) (day d) - _ymd2ord 2015 1 1) * 86400
    /\ _date_to_snowflake (isoformat d) = Some lo
    /\ before_snowflake (isoformat d) = Some hi
    /\ (forall D, strptime D = Some d ->
                  _date_to_snowflake D = Some lo /\ before_snowflake D = Some hi)
    /\ lo <= hi
    /\ hi - lo = Z.shiftl 86399000 22.
Proof.
  do 2 eexists. do 2 (split; [reflexivity|]).
  split; [unfold seconds_since_epoch; lia|].
  unfold _date_to_snowflake, before_snowflake.
  rewrite (strptime_isoformat d H). do 2 (split; [reflexivity|]).
  split; [now intros D ->|].
  rewrite seconds_end_of_day, !Z.shiftl_mul_pow2 by lia. split; lia.
Qed.

Lemma day_bounds_gap_witness :
  let d := mkdate 2024 2 29 in
  valid_date d = true
  /\ isoformat d = "2024-02-29"
  /\ exists lo hi,
       lo = Z.shiftl (seconds_since_epoch d 0 0 0 * 1000) 22
       /\ hi = Z.shiftl (seconds_since_epoch d 23 59 59 * 1000) 22
       /\ seconds_since_epoch d 0 0 0
          = (_ymd2ord 2024 2 29 - _ymd2ord 2015 1 1) * 86400
       /\ _date_to_snowflake (isoformat d) = Some lo
       /\ before_snowflake (isoformat d) = Some hi
       /\ (forall D, strptime D = Some d ->
                     _date_to_snowflake D = Some lo
                     /\ before_snowflake D = Some hi)
       /\ lo <= hi
       /\ hi - lo = Z.shiftl 86399000 22.
Proof.
  intros d. split; [reflexivity|]. split; [reflexivity|].
  exact (day_bounds_gap d eq_refl).
Defined.

Example leap_day_bounds :
  _date_to_snowflake "2024-02-29" = Some 1212549798297600000
  /\ before_snowflake "2024-02-29" = Some 1212912181968896000
  /\ 1212912181968896000 - 1212549798297600000 = Z.shiftl 86399000 22.
Proof. repeat split. Qed.

(** *** Malformed dates *)

Lemma bound_malformed (to_snowflake : string -> option Z) (date : option string)
    (d : string) :
  given date = Some d -> to_snowflake d = None -> bound to_snowflake date = None.
Proof. unfold bound. intros -> ->. reflexivity. Qed.

(** C6, as the code has it: a date string that [strptime] rejects makes
    [_date_to_snowflake] return [None] (the [ValueError] is caught and
    logged, nothing is raised), and a harvest given such a string as
    either bound returns the ordinary empty list without issuing a
    request, whatever the transport and however long it could run. *)
Theorem malformed_date_returns_empty (tr : Transport) (log : list Request)
    (fuel : nat) (channel_id : string) (total_limit : option Z)
    (batch_size : Z) (after_date before_date : option string) (d : string)
    (Hgiven : given after_date = Some d \/ given before_date = Some d)
    (Hbad : strptime d = None) :
  _date_to_snowflake d = None
  /\ before_snowflake d = None
  /\ get_messages_batch tr log fuel channel_id total_limit batch_size
                        after_date before_date
     = (Some (Returned []), log).
Proof.
  assert (Ha : _date_to_snowflake d = None)
    by (unfold _date_to_snowflake; now rewrite Hbad).
  assert (Hb : before_snowflake d = None)
    by (unfold before_snowflake; now rewrite Hbad).
  repeat split; trivial.
  unfold get_messages_batch.
  destruct Hgiven as [Hg | Hg].
  - now rewrite (bound_malformed _ _ _ Hg Ha).
  - rewrite (bound_malformed _ _ _ Hg Hb).
    now destruct (bound _date_to_snowflake after_date).
Qed.

Lemma malformed_date_returns_empty_witness :
  (given (Some "05/01/2024") = Some "05/01/2024"
   \/ given None = Some "05/01/2024")
  /\ strptime "05/01/2024" = None
  /\ _date_to_snowflake "05/01/2024" = None
  /\ before_snowflake "05/01/2024" = None
  /\ get_messages_batch (channel_transport (sample_channel 3)) [] 4 "c"
                        (Some 10) 50 (Some "05/01/2024") None
     = (Some (Returned []), []).
Proof.
  split; [left; reflexivity|]. split; [reflexivity|].
  exact (malformed_date_returns_empty
           (channel_transport (sample_channel 3)) [] 4 "c" (Some 10) 50
           (Some "05/01/2024") None "05/01/2024"
           (or_introl eq_refl) eq_refl).
Defined.

(** C6, as stated, fails: on the malformed bound "2024/01/05" the
    conversion returns [None] instead of raising, and the harvest
    returns an ordinary empty list instead of raising. *)
Lemma malformed_date_does_not_raise :
  _date_to_snowflake "2024/01/05" = None
  /\ get_messages_batch (scripted []) [] 3 "c" None 50
                        (Some "2024/01/05") None
     = (Some (Returned []), [])
  /\ forall e,
       fst (get_messages_batch (scripted []) [] 3 "c" None 50
                               (Some "2024/01/05") None)
       <> Some (Raised e).
Proof. repeat split. intros e. discriminate. Qed.

(** *** The budget *)

Lemma current_batch_size_unbounded (z batch_size collected : Z) :
  z <= 0 -> current_batch_size (Some z) batch_size collected = Some batch_size.
Proof.
  intros H. unfold current_batch_size.
  destruct (Z.ltb_spec 0 z); [lia|].
  now rewrite andb_false_r.
Qed.

Lemma current_batch_size_bounded (B batch_size collected : Z) :
  0 < B ->
  current_batch_size (Some B) batch_size collected
  = if B - collected <=? 0 then None
    else Some (Z.min batch_size (B - collected)).
Proof.
  intros H. unfold current_batch_size.
  destruct (Z.ltb_spec 0 B); [|lia].
  destruct (Z.eqb_spec B 0); [lia|]. reflexivity.
Qed.

Lemma batch_step_unbounded (tr : Transport) (channel_id : string)
    (batch_size : Z) (after_snowflake : option Z) (z : Z)
    (all_messages : list Message) (before_id : json) (log : list Request) :
  z <= 0 ->
  batch_step tr channel_id (Some z) batch_size after_snowflake
             all_messages before_id log
  = batch_step tr channel_id None batch_size after_snowflake
               all_messages before_id log.
Proof.
  intros H. unfold batch_step.
  now rewrite current_batch_size_unbounded.
Qed.

Lemma batch_loop_unbounded (tr : Transport) (channel_id : string)
    (batch_size : Z) (after_snowflake : option Z) (z : Z) (fuel : nat) :
  z <= 0 ->
  forall all_messages before_id log,
    batch_loop tr channel_id (Some z) batch_size after_snowflake fuel
               all_messages before_id log
    = batch_loop tr channel_id None batch_size after_snowflake fuel
                 all_messages before_id log.
Proof.
  intros H. induction fuel as [|fuel IH]; intros; simpl; [reflexivity|].
  rewrite batch_step_unbounded by assumption.
  destruct batch_step; [reflexivity | apply IH].
Qed.

(** *** The rate-limit delay *)

Lemma SFleb_finite_refl (m : positive) (e : Z) :
  SFleb (S754_finite false m e) (S754_finite false m e) = true.
Proof.
  unfold SFleb, SFcompare.
  now rewrite Z.compare_refl, Pos.compare_cont_refl.
Qed.

(** [max(d, t)] is at least a positive finite [t] when [d] is a number. *)
Lemma py_max_at_least (d : float) (m : positive) (e : Z) :
  d <> S754_nan ->
  SFleb (S754_finite false m e) (py_max d (S754_finite false m e)) = true.
Proof.
  intros Hd. unfold py_max, SFltb.
  destruct d as [s | s | | s md ed]; try congruence.
  - destruct s; apply SFleb_finite_refl.
  - destruct s; [apply SFleb_finite_refl | reflexivity].
  - destruct s; [apply SFleb_finite_refl|].
    unfold SFcompare at 1.
    destruct (Z.compare ed e) eqn:He.
    + destruct (Pos.compare_cont Eq md m) eqn:Hm;
        try apply SFleb_finite_refl;
        unfold SFleb, SFcompare; rewrite Z.compare_antisym, He; simpl;
        change Eq with (CompOpp Eq) at 1;
        rewrite <- Pos.compare_cont_antisym, Hm; reflexivity.
    + apply SFleb_finite_refl.
    + unfold SFleb, SFcompare. rewrite Z.compare_antisym, He. reflexivity.
Qed.

(** For every delay that is a number the client keeps [max(d, 2.0)],
    which is 2.0 when [d < 2.0] and [d] otherwise, and is never below
    2.0. *)
Lemma rate_limit_delay_clamped (d : float) :
  d <> S754_nan ->
  SFleb float_2_0 (init_rate_limit_delay d) = true
  /\ init_rate_limit_delay d = (if SFltb d float_2_0 then float_2_0 else d).
Proof.
  intros Hd. split; [|reflexivity].
  now apply py_max_at_least.
Qed.

(** C8 at the delay NaN, which [float(os.getenv(...))] yields for the
    setting "nan": [max(nan, 2.0)] keeps NaN because [2.0 > nan] is
    false; the delay kept is not at least 2.0, and [_rate_limit] then
    never sleeps, since [time_since_last < nan] is false for every
    elapsed time. *)
Theorem nan_delay_not_clamped :
  init_rate_limit_delay S754_nan = S754_nan
  /\ SFleb float_2_0 (init_rate_limit_delay S754_nan) = false
  /\ forall time_since_last,
       _rate_limit (init_rate_limit_delay S754_nan) time_since_last = None.
Proof.
  repeat split. intros t. unfold _rate_limit, SFltb.
  now destruct t.
Qed.

(** A delay of 0.5 is raised to 2.0, the default of 2.5 is kept, and a
    request made at once after the last one sleeps the whole delay. *)
Example small_delay_raised_to_two :
  init_rate_limit_delay (S754_finite false 4503599627370496 (-53)) = float_2_0
  /\ init_rate_limit_delay float_2_5 = float_2_5
  /\ _rate_limit float_2_0 (S754_zero false) = Some float_2_0.
Proof. repeat split. Qed.

(** *** The upper bound *)

(** A [before_date] that parses changes nothing in the harvest: the
    loop never reads the [before_snowflake] computed from it. *)
Lemma before_date_ignored (tr : Transport) (log : list Request) (fuel : nat)
    (channel_id : string) (total_limit : option Z) (batch_size : Z)
    (after_date before_date : option string) (b : option Z) :
  bound before_snowflake before_date = Some b ->
  get_messages_batch tr log fuel channel_id total_limit batch_size
                     after_date before_date
  = get_messages_batch tr log fuel channel_id total_limit batch_size
                       after_date None.
Proof.
  intros H. unfold get_messages_batch. rewrite H.
  now destruct (bound _date_to_snowflake after_date).
Qed.

(** C2 at [before_date = "2015-01-01"]: the upper bound is
    362383671296000, the channel holds the messages 500000000000000 and
    400000000000000 (both newer than the bound) and 300000000000000, and
    the harvest returns all three, the two above the bound included. *)
Theorem upper_bound_not_enforced :
  before_snowflake "2015-01-01" = Some 362383671296000
  /\ returned_ids
       (get_messages_batch
          (channel_transport
             [raw_message 500000000000000 "2015-01-02T09:06:49+00:00";
              raw_message 400000000000000 "2015-01-02T02:29:27+00:00";
              raw_message 300000000000000 "2015-01-01T19:52:05+00:00"])
          [] 5 "c" None 50 None (Some "2015-01-01"))
     = Some [500000000000000; 400000000000000; 300000000000000].
Proof. split; vm_compute; reflexivity. Qed.

(** *** Normalisation of a page *)

Lemma py_get_object (d : list (string * json)) (key : string) (default : json) :
  py_get (JObj d) key default = Returned (field d key default).
Proof. unfold py_get, field. now destruct dict_lookup. Qed.

Lemma py_get_not_object (v : json) (key : string) (default : json) :
  is_object v = false -> py_get v key default = Raised AttributeError.
Proof. now destruct v. Qed.

Lemma process_attachment_object (att : json) :
  is_object att = true ->
  process_attachment att = Returned (normalized_attachment att).
Proof.
  destruct att; try discriminate. intros _.
  unfold process_attachment. now rewrite !py_get_object.
Qed.

Lemma process_attachment_not_object (att : json) :
  is_object att = false -> process_attachment att = Raised AttributeError.
Proof.
  intros H. unfold process_attachment. now rewrite py_get_not_object.
Qed.

Lemma py_mapM_all {A B : Type} (f : A -> Py B) (g : A -> B) (l : list A) :
  (forall x, In x l -> f x = Returned (g x)) ->
  py_mapM f l = Returned (map g l).
Proof.
  induction l as [|x l IH]; intros H; simpl; [reflexivity|].
  rewrite (H x) by now left. simpl.
  rewrite IH by (intros; apply H; now right). reflexivity.
Qed.

Lemma py_mapM_raises {A B : Type} (f : A -> Py B) (l : list A) :
  (exists x, In x l /\ exists e, f x = Raised e) ->
  exists e, py_mapM f l = Raised e.
Proof.
  induction l as [|x l IH]; intros (y & Hin & e & He); [destruct Hin|].
  simpl. destruct (f x) as [b|e'] eqn:Hx; [|now exists e'].
  destruct Hin as [-> | Hin]; [congruence|].
  destruct IH as [e'' He'']; [now exists y; split; [|exists e]|].
  simpl. rewrite He''. now exists e''.
Qed.

Lemma process_message_normalizable (channel_id : string) (raw : json) :
  normalizable raw = true ->
  process_message channel_id raw = Returned (normalized channel_id raw).
Proof.
  destruct raw as [| | | | |d|]; try discriminate.
  unfold normalizable, process_message, process_author, normalized.
  rewrite !py_get_object. simpl.
  destruct (field d "author" (JObj [])) as [| | | | |a|]; try discriminate.
  rewrite !py_get_object. simpl.
  destruct (py_iter (field d "attachments" (JArr []))) as [atts|]; [|discriminate].
  intros H. simpl.
  rewrite (py_mapM_all process_attachment normalized_attachment).
  - reflexivity.
  - intros att Hin. apply process_attachment_object.
    rewrite forallb_forall in H. now apply H.
Qed.

Lemma process_message_not_normalizable (channel_id : string) (raw : json) :
  normalizable raw = false ->
  exists e, process_message channel_id raw = Raised e.
Proof.
  intros H. unfold process_message.
  destruct raw as [| | | | |d|]; try (now eexists).
  unfold normalizable in H. unfold process_author.
  rewrite !py_get_object. simpl.
  destruct (is_object (field d "author" (JObj []))) eqn:Ha.
  - destruct (field d "author" (JObj [])) as [| | | | |a|]; try discriminate.
    rewrite !py_get_object. simpl. simpl in H.
    destruct (py_iter (field d "attachments" (JArr []))) as [atts|e];
      [|now exists e].
    simpl.
    destruct (py_mapM_raises process_attachment atts) as [e He].
    + assert (Hex : existsb (fun a => negb (is_object a)) atts = true).
      { clear -H. induction atts as [|x l IH]; [discriminate|].
        simpl in *. destruct (is_object x); simpl in *; auto. }
      apply existsb_exists in Hex. destruct Hex as (x & Hin & Hx).
      exists x. split; [assumption|]. exists AttributeError.
      apply process_attachment_not_object. now destruct (is_object x).
    + rewrite He. now exists e.
  - rewrite (py_get_not_object _ "id") by assumption. now eexists.
Qed.

Lemma get_messages_body (tr : Transport) (log : list Request)
    (channel_id : string) (limit : Z) (before : json) (after : option Z)
    (raws : list json) :
  tr (params channel_id (Z.min limit 100) before after :: log)
  = Body (JArr raws) ->
  fst (get_messages tr log channel_id limit before after)
  = if forallb normalizable raws then map (normalized channel_id) raws else [].
Proof.
  intros Hbody.
  unfold get_messages, fetch_and_process. simpl. rewrite Hbody. simpl.
  destruct (forallb normalizable raws) eqn:H.
  - rewrite (py_mapM_all _ (normalized channel_id)); [reflexivity|].
    intros raw Hin. apply process_message_normalizable.
    rewrite forallb_forall in H. now apply H.
  - destruct (py_mapM_raises (process_message channel_id) raws) as [e He];
      [|now rewrite He].
    assert (Hex : existsb (fun r => negb (normalizable r)) raws = true).
    { clear -H. induction raws as [|x l IH]; [discriminate|].
      simpl in *. destruct (normalizable x); simpl in *; auto. }
    apply existsb_exists in Hex. destruct Hex as (x & Hin & Hx).
    exists x. split; [assumption|].
    apply process_message_not_normalizable. now destruct (normalizable x).
Qed.

(** C9, as the code has it: no record is dropped for lacking fields.
    When the body is a list of records that can all be normalised, the
    page holds exactly one record per raw record, in order, each in the
    fixed shape with a missing key read as [None] or its default; when
    one record cannot be normalised the exception is caught and the
    whole page is returned empty. *)
Theorem get_messages_keeps_every_record (tr : Transport) (log : list Request)
    (channel_id : string) (limit : Z) (before : json) (after : option Z)
    (raws : list json)
    (Hbody : tr (params channel_id (Z.min limit 100) before after :: log)
             = Body (JArr raws)) :
  (forallb normalizable raws = true ->
   fst (get_messages tr log channel_id limit before after)
   = map (normalized channel_id) raws)
  /\ (forallb normalizable raws = false ->
      fst (get_messages tr log channel_id limit before after) = []).
Proof.
  rewrite (get_messages_body _ _ _ _ _ _ _ Hbody).
  split; intros ->; reflexivity.
Qed.

Lemma get_messages_keeps_every_record_witness :
  scripted [Body (JArr [JObj [("content", JStr "no id")];
                        raw_message 41 "2024-05-01T00:00:00+00:00"])]
           [mkRequest "c" 50 None None]
  = Body (JArr [JObj [("content", JStr "no id")];
                raw_message 41 "2024-05-01T00:00:00+00:00"])
  /\ map m_id
       (fst (get_messages
               (scripted
                  [Body (JArr [JObj [("content", JStr "no id")];
                               raw_message 41 "2024-05-01T00:00:00+00:00"])])
               [] "c" 50 JNull None))
     = [JNull; JStr "41"].
Proof.
  split; [reflexivity|].
  rewrite (proj1 (get_messages_keeps_every_record
                    (scripted
                       [Body (JArr [JObj [("content", JStr "no id")];
                                    raw_message 41 "2024-05-01T00:00:00+00:00"])])
                    [] "c" 50 JNull None
                    [JObj [("content", JStr "no id")];
                     raw_message 41 "2024-05-01T00:00:00+00:00"]
                    eq_refl)
             eq_refl).
  reflexivity.
Defined.

(** C9, as stated, fails: a raw record with no field at all is not
    dropped; it is returned as a record whose id and timestamp are
    [None]. *)
Lemma record_without_fields_is_kept :
  get_messages (scripted [Body (JArr [JObj []])]) [] "c" 50 JNull None
  = ([mkMessage JNull (JStr "") JNull
                (mkAuthor JNull JNull JNull (JBool false))
                [] (JArr []) (JArr []) JNull "c"],
     [mkRequest "c" 50 None None]).
Proof. reflexivity. Qed.

Example record_with_bad_author_empties_page :
  fst (get_messages
         (scripted [Body (JArr [raw_message 41 "2024-05-01T00:00:00+00:00";
                                JObj [("id", JStr "40"); ("author", JNull)]])])
         [] "c" 50 JNull None)
  = [].
Proof. reflexivity. Qed.

(** *** A failing fetch *)

Lemma get_messages_failed (tr : Transport) (log : list Request)
    (channel_id : string) (limit : Z) (before : json) (after : option Z) :
  tr (params channel_id (Z.min limit 100) before after :: log) = Failed ->
  get_messages tr log channel_id limit before after
  = ([], params channel_id (Z.min limit 100) before after :: log).
Proof.
  intros H. unfold get_messages, fetch_and_process. simpl. now rewrite H.
Qed.

Lemma batch_step_failed (tr : Transport) (channel_id : string)
    (total_limit : option Z) (batch_size : Z) (after_snowflake : option Z)
    (all_messages : list Message) (before_id : json) (log : list Request)
    (size : Z) :
  let request :=
    params channel_id (Z.min size 100) before_id
           (if len all_messages =? 0 then after_snowflake else None) in
  current_batch_size total_limit batch_size (len all_messages) = Some size ->
  tr (request :: log) = Failed ->
  batch_step tr channel_id total_limit batch_size after_snowflake
             all_messages before_id log
  = Done (Returned all_messages) (request :: log).
Proof.
  intros request Hsize Hfail. unfold batch_step. rewrite Hsize.
  now rewrite get_messages_failed.
Qed.

(** C3, as the code has it: a failing fetch never makes the harvest
    raise. When the first request fails the harvest returns the empty
    list, having issued that one request; when a later request fails,
    from any state of the loop, the harvest returns the messages
    collected so far. *)
Theorem fetch_failure_returns_collected (tr : Transport)
    (channel_id : string) (total_limit : option Z) (fuel : nat) :
  (forall log batch_size after_date before_date after_snowflake b size,
      bound _date_to_snowflake after_date = Some after_snowflake ->
      bound before_snowflake before_date = Some b ->
      current_batch_size total_limit (Z.min batch_size 100) 0 = Some size ->
      tr (params channel_id (Z.min size 100) JNull after_snowflake :: log)
      = Failed ->
      get_messages_batch tr log (S fuel) channel_id total_limit batch_size
                         after_date before_date
      = (Some (Returned []),
         params channel_id (Z.min size 100) JNull after_snowflake :: log))
  /\ (forall batch_size after_snowflake all_messages before_id log size,
         current_batch_size total_limit batch_size (len all_messages)
         = Some size ->
         tr (params channel_id (Z.min size 100) before_id
                    (if len all_messages =? 0 then after_snowflake else None)
               :: log)
         = Failed ->
         batch_loop tr channel_id total_limit batch_size after_snowflake
                    (S fuel) all_messages before_id log
         = (Some (Returned all_messages),
            params channel_id (Z.min size 100) before_id
                   (if len all_messages =? 0 then after_snowflake else None)
              :: log)).
Proof.
  split.
  - intros log batch_size after_date before_date after_snowflake b size
           Ha Hb Hsize Hfail.
    unfold get_messages_batch. rewrite Ha, Hb. simpl.
    now rewrite (batch_step_failed tr channel_id total_limit _ after_snowflake
                                   [] JNull log size Hsize Hfail).
  - intros batch_size after_snowflake all_messages before_id log size
           Hsize Hfail.
    simpl. now rewrite (batch_step_failed _ _ _ _ _ _ _ _ _ Hsize Hfail).
Qed.

Lemma fetch_failure_returns_collected_witness :
  let collected :=
    map (normalized "c")
        [raw_message 6 "2024-05-06T00:00:00+00:00";
         raw_message 5 "2024-05-05T00:00:00+00:00";
         raw_message 4 "2024-05-04T00:00:00+00:00";
         raw_message 3 "2024-05-03T00:00:00+00:00"] in
  let log := [params "c" 2 (JStr "5") None; params "c" 2 JNull None] in
  scripted [Failed] [params "c" 50 JNull None] = Failed
  /\ get_messages_batch (scripted [Failed]) [] 1 "c" None 50 None None
     = (Some (Returned []), [params "c" 50 JNull None])
  /\ fails_on_third (params "c" 2 (JStr "3") None :: log) = Failed
  /\ batch_loop fails_on_third "c" None 2 None 1 collected (JStr "3") log
     = (Some (Returned collected), params "c" 2 (JStr "3") None :: log)
  /\ get_messages_batch fails_on_third [] 3 "c" None 2 None None
     = (Some (Returned collected), params "c" 2 (JStr "3") None :: log).
Proof.
  intros collected log.
  split; [reflexivity|]. split; [|split; [reflexivity|split]].
  - exact (proj1 (fetch_failure_returns_collected (scripted [Failed]) "c" None 0)
                 [] 50 None None None None 50 eq_refl eq_refl eq_refl eq_refl).
  - exact (proj2 (fetch_failure_returns_collected fails_on_third "c" None 0)
                 2 None collected (JStr "3") log 2 eq_refl eq_refl).
  - vm_compute. reflexivity.
Defined.

(** C3, as stated, fails: when the first fetch fails the harvest does
    not raise; it returns the empty list like a harvest of an empty
    channel. *)
Lemma first_page_failure_does_not_raise :
  get_messages_batch (scripted [Failed]) [] 4 "c" None 50 None None
  = (Some (Returned []), [params "c" 50 JNull None])
  /\ forall e,
       fst (get_messages_batch (scripted [Failed]) [] 4 "c" None 50 None None)
       <> Some (Raised e).
Proof. split; [reflexivity | intros e; discriminate]. Qed.

(** *** The lower bound *)

Lemma filter_after_kept (lo : Z) (messages kept : list Message) (stop : bool) :
  filter_after lo messages = Returned (kept, stop) ->
  Forall (at_or_above lo) kept
  /\ (List.length kept <= List.length messages)%nat.
Proof.
  revert kept stop. induction messages as [|m rest IH]; intros kept stop; simpl.
  - intros [= <- <-]. split; [constructor | reflexivity].
  - destruct (py_int (m_id m)) as [i|e] eqn:Hi; simpl; [|discriminate].
    destruct (Z.leb_spec lo i) as [Hle|Hlt].
    + destruct (filter_after lo rest) as [[k s]|e] eqn:Hr; simpl; [|discriminate].
      intros [= <- <-]. destruct (IH k s eq_refl) as [Hk Hlen].
      split; [constructor; [now exists i | assumption] | simpl; lia].
    + intros [= <- <-]. split; [constructor | simpl; lia].
Qed.

Lemma filter_after_cut (lo : Z) (pre post : list Message) (m : Message) :
  Forall (at_or_above lo) pre -> below lo m ->
  filter_after lo (pre ++ m :: post) = Returned (pre, true).
Proof.
  intros Hpre (j & Hj & Hlt). induction Hpre as [|x pre (i & Hi & Hle) _ IH]; simpl.
  - rewrite Hj. simpl. destruct (Z.leb_spec lo j); [lia | reflexivity].
  - rewrite Hi. simpl. destruct (Z.leb_spec lo i); [|lia].
    now rewrite IH.
Qed.

Lemma batch_step_above (tr : Transport) (channel_id : string)
    (total_limit : option Z) (batch_size lo : Z)
    (all_messages : list Message) (before_id : json) (log : list Request) :
  Forall (at_or_above lo) all_messages ->
  match batch_step tr channel_id total_limit batch_size (Some lo)
                   all_messages before_id log with
  | Done (Returned r) _ => Forall (at_or_above lo) r
  | Done (Raised _) _ => True
  | Again all_messages' _ _ => Forall (at_or_above lo) all_messages'
  end.
Proof.
  intros Hall. unfold batch_step.
  destruct current_batch_size as [size|]; [|assumption].
  destruct get_messages as [messages log'].
  destruct messages as [|m0 rest]; [assumption|].
  destruct (filter_after lo (m0 :: rest)) as [[kept stop]|e] eqn:Hf; [|exact I].
  apply filter_after_kept in Hf. destruct Hf as [Hkept _].
  destruct stop; [now apply Forall_app|].
  destruct kept as [|k kept']; [assumption|].
  destruct (len (k :: kept') <? size); now apply Forall_app.
Qed.

Lemma batch_loop_above (tr : Transport) (channel_id : string)
    (total_limit : option Z) (batch_size lo : Z) (fuel : nat) :
  forall all_messages before_id log r log',
    Forall (at_or_above lo) all_messages ->
    batch_loop tr channel_id total_limit batch_size (Some lo) fuel
               all_messages before_id log
    = (Some (Returned r), log') ->
    Forall (at_or_above lo) r.
Proof.
  induction fuel as [|fuel IH]; intros all_messages before_id log r log' Hall;
    simpl; [discriminate|].
  pose proof (batch_step_above tr channel_id total_limit batch_size lo
                               all_messages before_id log Hall) as Hstep.
  destruct batch_step as [[r0|e] l0 | a b l0].
  - now intros [= <- <-].
  - discriminate.
  - now apply IH.
Qed.

Lemma given_parsed (to_snowflake : string -> option Z) (D : string) (s : Z) :
  to_snowflake "" = None -> to_snowflake D = Some s ->
  bound to_snowflake (Some D) = Some (Some s).
Proof.
  intros Hempty HD. unfold bound, given.
  destruct (String.eqb_spec D ""); [congruence|]. now rewrite HD.
Qed.

(** C4: in a harvest with the lower-bound date [D], whose bound is
    [lo], every message of a returned result has an id that [int] reads
    and that is at least [lo]; and when a page is [pre ++ m :: post]
    with the ids of [pre] at or above [lo] and the id of [m] below it,
    the harvest returns at that point with the messages collected so far
    followed by [pre], dropping [m] and all of [post] and issuing no
    further request. *)
Theorem lower_bound_respected (tr : Transport) (channel_id : string)
    (total_limit : option Z) (D : string) (lo : Z)
    (Hlo : _date_to_snowflake D = Some lo) :
  (forall log fuel batch_size before_date r log',
      get_messages_batch tr log fuel channel_id total_limit batch_size
                         (Some D) before_date
      = (Some (Returned r), log') ->
      Forall (at_or_above lo) r)
  /\ (forall fuel batch_size all_messages before_id log size pre m post,
         current_batch_size total_limit batch_size (len all_messages)
         = Some size ->
         fst (get_messages tr log channel_id size before_id
                           (if len all_messages =? 0 then Some lo else None))
         = pre ++ m :: post ->
         Forall (at_or_above lo) pre ->
         below lo m ->
         batch_loop tr channel_id total_limit batch_size (Some lo) (S fuel)
                    all_messages before_id log
         = (Some (Returned (all_messages ++ pre)),
            params channel_id (Z.min size 100) before_id
                   (if len all_messages =? 0 then Some lo else None)
              :: log)).
Proof.
  split.
  - intros log fuel batch_size before_date r log'.
    unfold get_messages_batch.
    rewrite (given_parsed _date_to_snowflake D lo eq_refl Hlo).
    destruct (bound before_snowflake before_date).
    + apply batch_loop_above. constructor.
    + intros [= <- <-]. constructor.
  - intros fuel batch_size all_messages before_id log size pre m post
           Hsize Hpage Hpre Hm.
    simpl. unfold batch_step. rewrite Hsize.
    unfold get_messages in *. simpl in Hpage. rewrite Hpage.
    destruct (pre ++ m :: post) as [|m0 rest] eqn:Hsplit;
      [now destruct pre|].
    rewrite <- Hsplit. now rewrite filter_after_cut.
Qed.

Lemma lower_bound_respected_witness :
  let lo := 362387865600000 in
  let pre := map (normalized "c")
                 [raw_message 500000000000000 "2015-01-02T09:06:49+00:00";
                  raw_message 400000000000000 "2015-01-02T02:29:27+00:00"] in
  let m := normalized "c"
             (raw_message 300000000000000 "2015-01-01T19:52:05+00:00") in
  let post := [normalized "c"
                 (raw_message 200000000000000 "2015-01-01T13:14:43+00:00")] in
  _date_to_snowflake "2015-01-02" = Some lo
  /\ get_messages_batch crossing_page [] 2 "c" None 50 (Some "2015-01-02") None
     = (Some (Returned pre), [params "c" 50 JNull (Some lo)])
  /\ Forall (at_or_above lo) pre
  /\ current_batch_size None 50 (len (@nil Message)) = Some 50
  /\ fst (get_messages crossing_page [] "c" 50 JNull
                       (if len (@nil Message) =? 0 then Some lo else None))
     = pre ++ m :: post
  /\ below lo m
  /\ batch_loop crossing_page "c" None 50 (Some lo) 1 [] JNull []
     = (Some (Returned ([] ++ pre)), [params "c" 50 JNull (Some lo)]).
Proof.
  intros lo pre m post.
  assert (Hrun : get_messages_batch crossing_page [] 2 "c" None 50
                                    (Some "2015-01-02") None
                 = (Some (Returned pre), [params "c" 50 JNull (Some lo)]))
    by (vm_compute; reflexivity).
  assert (Hpre : Forall (at_or_above lo) pre)
    by exact (proj1 (lower_bound_respected crossing_page "c" None "2015-01-02"
                                           lo eq_refl)
                    [] 2%nat 50 None pre _ Hrun).
  assert (Hm : below lo m) by (exists 300000000000000; split; [reflexivity|lia]).
  repeat (split; [first [reflexivity | assumption] |]).
  exact (proj2 (lower_bound_respected crossing_page "c" None "2015-01-02"
                                      lo eq_refl)
               0%nat 50 [] JNull [] 50 pre m post eq_refl eq_refl Hpre Hm).
Defined.

(** *** The budget bounds the count *)

Lemma py_mapM_length {A B : Type} (f : A -> Py B) (l : list A) (l' : list B) :
  py_mapM f l = Returned l' -> List.length l' = List.length l.
Proof.
  revert l'. induction l as [|x l IH]; intros l'; simpl.
  - now intros [= <-].
  - destruct (f x); simpl; [|discriminate].
    destruct (py_mapM f l); simpl; [|discriminate].
    intros [= <-]. simpl. now rewrite (IH _ eq_refl).
Qed.

Lemma py_mapM_none_ok {A B : Type} (f : A -> Py B) (l : list A) :
  (forall x, In x l -> exists e, f x = Raised e) ->
  py_except (py_mapM f l) [] = [].
Proof.
  destruct l as [|x l]; intros H; simpl; [reflexivity|].
  destruct (H x (or_introl eq_refl)) as [e ->]. reflexivity.
Qed.

Lemma process_message_str (channel_id : string) (s : string) :
  exists e, process_message channel_id (JStr s) = Raised e.
Proof. now eexists. Qed.

Lemma in_chars (x : json) (s : string) : In x (chars s) -> exists c, x = JStr c.
Proof.
  induction s as [|c s IH]; simpl; [tauto|].
  intros [<- | H]; [now eexists | auto].
Qed.

(** A page is never longer than the body it was decoded from, and is
    empty unless the body is a list. *)
Lemma get_messages_page (tr : Transport) (log : list Request)
    (channel_id : string) (limit : Z) (before : json) (after : option Z) :
  let request := params channel_id (Z.min limit 100) before after in
  snd (get_messages tr log channel_id limit before after) = request :: log
  /\ (fst (get_messages tr log channel_id limit before after) = []
      \/ exists l, tr (request :: log) = Body (JArr l)
                   /\ List.length (fst (get_messages tr log channel_id limit
                                                     before after))
                      = List.length l).
Proof.
  intros request. split; [reflexivity|].
  unfold get_messages, fetch_and_process. simpl. fold request.
  destruct (tr (request :: log)) as [|j]; [now left|].
  destruct j as [| | |s|l|d|]; try (now left).
  - left. simpl. apply py_mapM_none_ok. intros x Hx.
    apply in_chars in Hx. destruct Hx as [c ->]. apply process_message_str.
  - simpl. destruct (py_mapM (process_message channel_id) l) as [page|e] eqn:Hp;
      [|now left].
    right. exists l. split; [reflexivity|]. simpl.
    now apply py_mapM_length in Hp.
  - left. simpl. apply py_mapM_none_ok. intros x Hx.
    apply in_map_iff in Hx. destruct Hx as (kv & <- & _).
    apply process_message_str.
Qed.

Lemma get_messages_within_limit (tr : Transport) (log : list Request)
    (channel_id : string) (limit : Z) (before : json) (after : option Z) :
  respects_limit tr ->
  len (fst (get_messages tr log channel_id limit before after))
  <= Z.max 0 (Z.min limit 100).
Proof.
  intros Htr.
  destruct (get_messages_page tr log channel_id limit before after)
    as [_ [-> | (l & Hbody & Hlen)]]; [unfold len; simpl; lia|].
  unfold len. rewrite Hlen. apply (Htr _ _ _ Hbody).
Qed.

Lemma batch_step_within_budget (tr : Transport) (channel_id : string)
    (B batch_size : Z) (after_snowflake : option Z)
    (all_messages : list Message) (before_id : json) (log : list Request) :
  respects_limit tr -> 0 < B -> len all_messages <= B ->
  match batch_step tr channel_id (Some B) batch_size after_snowflake
                   all_messages before_id log with
  | Done (Returned r) _ => len r <= B
  | Done (Raised _) _ => True
  | Again all_messages' _ _ => len all_messages' <= B
  end.
Proof.
  intros Htr HB Hall. unfold batch_step.
  rewrite current_batch_size_bounded by assumption.
  destruct (Z.leb_spec (B - len all_messages) 0) as [|Hrem]; [assumption|].
  set (size := Z.min batch_size (B - len all_messages)).
  set (after_param := if len all_messages =? 0 then after_snowflake else None).
  pose proof (get_messages_within_limit tr log channel_id size before_id
                                        after_param Htr) as Hpage.
  destruct get_messages as [messages log']. simpl in Hpage.
  destruct messages as [|m0 rest]; [assumption|].
  assert (Hfit : len all_messages + len (m0 :: rest) <= B)
    by (unfold len in *; simpl List.length in *; lia).
  assert (Hkept : forall kept,
             (List.length kept <= List.length (m0 :: rest))%nat ->
             len (all_messages ++ kept) <= B).
  { intros kept Hk. unfold len in *. rewrite length_app. lia. }
  destruct after_snowflake as [lo|].
  - destruct (filter_after lo (m0 :: rest)) as [[kept stop]|e] eqn:Hf; [|exact I].
    apply filter_after_kept in Hf. destruct Hf as [_ Hlen].
    destruct stop; [now apply Hkept|].
    destruct kept as [|k kept']; [assumption|].
    destruct (len (k :: kept') <? size); now apply Hkept.
  - destruct (len (m0 :: rest) <? size); now apply Hkept.
Qed.

Lemma batch_loop_within_budget (tr : Transport) (channel_id : string)
    (B batch_size : Z) (after_snowflake : option Z) (fuel : nat) :
  respects_limit tr -> 0 < B ->
  forall all_messages before_id log r log',
    len all_messages <= B ->
    batch_loop tr channel_id (Some B) batch_size after_snowflake fuel
               all_messages before_id log
    = (Some (Returned r), log') ->
    len r <= B.
Proof.
  intros Htr HB.
  induction fuel as [|fuel IH]; intros all_messages before_id log r log' Hall;
    simpl; [discriminate|].
  pose proof (batch_step_within_budget tr channel_id B batch_size
                after_snowflake all_messages before_id log Htr HB Hall) as Hstep.
  destruct batch_step as [[r0|e] l0 | a b l0].
  - now intros [= <- <-].
  - discriminate.
  - now apply IH.
Qed.

(** The request a step issues while budget remains asks for
    [min(batch_size, remaining)] messages, clamped to 100 by
    [get_messages]. *)
Lemma batch_step_request (tr : Transport) (channel_id : string)
    (B batch_size : Z) (after_snowflake : option Z)
    (all_messages : list Message) (before_id : json) (log : list Request) :
  0 < B -> len all_messages < B ->
  step_log (batch_step tr channel_id (Some B) batch_size after_snowflake
                       all_messages before_id log)
  = params channel_id
           (Z.min (Z.min batch_size (B - len all_messages)) 100)
           before_id
           (if len all_messages =? 0 then after_snowflake else None)
      :: log.
Proof.
  intros HB Hall. unfold batch_step.
  rewrite current_batch_size_bounded by assumption.
  destruct (Z.leb_spec (B - len all_messages) 0); [lia|].
  unfold get_messages.
  repeat match goal with
         | |- context [match ?x with _ => _ end] => destruct x; try reflexivity
         end.
Qed.

(** *** Walking a channel *)

Lemma all_some_map {A : Type} (l : list (option A)) (l' : list A) :
  all_some l = Some l' -> l = map Some l'.
Proof.
  revert l'. induction l as [|[x|] l IH]; intros l'; simpl; try discriminate.
  - now intros [= <-].
  - destruct (all_some l); simpl; [|discriminate].
    intros [= <-]. simpl. now rewrite (IH _ eq_refl).
Qed.

Lemma channel_ok_ids (channel : list json) :
  channel_ok channel = true ->
  exists ids, has_ids channel ids /\ descending ids = true.
Proof.
  unfold channel_ok, has_ids.
  destruct (all_some (map raw_id channel)) as [ids|] eqn:H; [|discriminate].
  intros Hd. exists ids. split; [now apply all_some_map | assumption].
Qed.

Lemma has_ids_app (a b : list json) (ia ib : list Z) :
  has_ids a ia -> has_ids b ib -> has_ids (a ++ b) (ia ++ ib).
Proof. unfold has_ids. intros Ha Hb. now rewrite !map_app, Ha, Hb. Qed.

Lemma has_ids_firstn (n : nat) (raws : list json) (ids : list Z) :
  has_ids raws ids -> has_ids (firstn n raws) (firstn n ids).
Proof. unfold has_ids. intros H. now rewrite <- !firstn_map, H. Qed.

Lemma has_ids_skipn (n : nat) (raws : list json) (ids : list Z) :
  has_ids raws ids -> has_ids (skipn n raws) (skipn n ids).
Proof. unfold has_ids. intros H. now rewrite <- !skipn_map, H. Qed.

Lemma has_ids_in (raws : list json) (ids : list Z) (raw : json) :
  has_ids raws ids -> In raw raws -> exists i, In i ids /\ raw_id raw = Some i.
Proof.
  unfold has_ids. revert ids.
  induction raws as [|x raws IH]; intros [|i ids]; simpl; try discriminate;
    [tauto|].
  intros [= Hx Hrest] [<- | Hin].
  - exists i. split; [now left | assumption].
  - destruct (IH ids Hrest Hin) as (j & Hj & Hraw). exists j. split; auto.
Qed.

(** A message with an integer id is one the client normalises, and its
    [id] field is the non-empty str [int] reads that integer from. *)
Lemma raw_id_spec (channel_id : string) (raw : json) (i : Z) :
  raw_id raw = Some i ->
  normalizable raw = true
  /\ exists s, m_id (normalized channel_id raw) = JStr s
               /\ int_of_str s = Some i.
Proof.
  unfold raw_id. intros H.
  destruct (normalizable raw) eqn:Hn.
  - split; [reflexivity|].
    rewrite (process_message_normalizable "" raw Hn) in H.
    change (m_id (normalized channel_id raw)) with (m_id (normalized "" raw)).
    destruct (m_id (normalized "" raw)); try discriminate. now eexists.
  - destruct (process_message_not_normalizable "" raw Hn) as [e He].
    now rewrite He in H.
Qed.

Lemma int_of_str_truthy (s : string) (i : Z) :
  int_of_str s = Some i -> py_truthy (JStr s) = true.
Proof. now destruct s. Qed.

Lemma descending_cons (a : Z) (l : list Z) :
  descending (a :: l) = true -> Forall (fun x => x < a) l /\ descending l = true.
Proof.
  revert a. induction l as [|b l IH]; intros a H; [now split|].
  simpl in H. apply andb_prop in H. destruct H as [Hba Hl].
  apply Z.ltb_lt in Hba. destruct (IH b Hl) as [Hall Hd].
  split; [|assumption].
  constructor; [assumption|].
  eapply Forall_impl; [|exact Hall]. simpl. intros; lia.
Qed.

Lemma descending_app (l1 l2 : list Z) :
  descending (l1 ++ l2) = true ->
  descending l2 = true /\ forall x y, In x l1 -> In y l2 -> y < x.
Proof.
  induction l1 as [|a l1 IH]; intros H; [now split|].
  rewrite <- app_comm_cons in H. apply descending_cons in H.
  destruct H as [Hall Hd]. destruct (IH Hd) as [H2 Hlt].
  split; [assumption|].
  intros x y [<- | Hx] Hy; [|now apply Hlt].
  rewrite Forall_forall in Hall. apply Hall. apply in_or_app. now right.
Qed.

Lemma descending_last (l : list Z) (c : Z) :
  descending (l ++ [c]) = true -> Forall (fun x => c <= x) (l ++ [c]).
Proof.
  intros H. apply descending_app in H. destruct H as [_ H].
  apply Forall_app. split.
  - apply Forall_forall. intros x Hx.
    specialize (H x c Hx (or_introl eq_refl)). lia.
  - constructor; [lia | constructor].
Qed.

Lemma filter_older_none (c : Z) (raws : list json) (ids : list Z) :
  has_ids raws ids -> Forall (fun i => c <= i) ids ->
  filter (older_than c) raws = [].
Proof.
  unfold has_ids. revert ids.
  induction raws as [|x raws IH]; intros [|i ids]; simpl; try discriminate;
    [reflexivity|].
  intros [= Hx Hrest] Hall. inversion Hall; subst.
  unfold older_than. rewrite Hx.
  destruct (Z.ltb_spec i c); [lia|]. now apply (IH ids).
Qed.

Lemma filter_older_all (c : Z) (raws : list json) (ids : list Z) :
  has_ids raws ids -> Forall (fun i => i < c) ids ->
  filter (older_than c) raws = raws.
Proof.
  unfold has_ids. revert ids.
  induction raws as [|x raws IH]; intros [|i ids]; simpl; try discriminate;
    [reflexivity|].
  intros [= Hx Hrest] Hall. inversion Hall; subst.
  unfold older_than. rewrite Hx.
  destruct (Z.ltb_spec i c); [|lia]. f_equal. now apply (IH ids).
Qed.

Lemma descending_app_l (l1 l2 : list Z) :
  descending (l1 ++ l2) = true -> descending l1 = true.
Proof.
  induction l1 as [|a l1 IH]; intros H; [reflexivity|].
  destruct l1 as [|b l1]; [reflexivity|].
  simpl in H. apply andb_prop in H. destruct H as [Hba H].
  change (descending (a :: b :: l1)) with ((b <? a) && descending (b :: l1)).
  rewrite Hba. simpl. apply IH. exact H.
Qed.

Lemma last_id_snoc (channel_id : string) (taken : list json) (x : json) :
  last_id (map (normalized channel_id) (taken ++ [x]))
  = m_id (normalized channel_id x).
Proof. unfold last_id. now rewrite map_app, rev_app_distr. Qed.

Lemma last_id_app (a b : list Message) :
  b <> [] -> last_id (a ++ b) = last_id b.
Proof.
  intros Hb. unfold last_id. rewrite rev_app_distr.
  destruct (rev b) as [|m r] eqn:Hr; [|reflexivity].
  apply (f_equal (@rev _)) in Hr. rewrite rev_involutive in Hr. now subst.
Qed.

Lemma nil_or_snoc {A : Type} (l : list A) :
  l = [] \/ exists l' x, l = l' ++ [x].
Proof.
  destruct l as [|a l]; [now left|]. right.
  destruct (@exists_last _ (a :: l)) as (l' & x & H); [discriminate|].
  now exists l', x.
Qed.

(** The remote side answers the request that follows the messages
    [taken] with the next [size] messages of the channel. *)
Lemma channel_transport_next (channel_id : string) (size : Z)
    (taken rest : list json) (ids_t ids_r : list Z) (log : list Request) :
  has_ids taken ids_t -> has_ids rest ids_r ->
  descending (ids_t ++ ids_r) = true ->
  1 <= size <= 100 ->
  channel_transport (taken ++ rest)
    (params channel_id size (last_id (map (normalized channel_id) taken)) None
       :: log)
  = Body (JArr (firstn (Z.to_nat size) rest)).
Proof.
  intros Ht Hr Hd Hsize. unfold channel_transport, params.
  cbn [req_limit req_before req_after].
  destruct (Z.leb_spec 1 size); [|lia].
  destruct (Z.leb_spec size 100); [|lia]. cbn [andb].
  destruct (nil_or_snoc taken) as [-> | (t' & x & ->)].
  - reflexivity.
  - rewrite last_id_snoc.
    unfold has_ids in Ht. rewrite map_app in Ht. symmetry in Ht.
    apply map_eq_app in Ht. destruct Ht as (it & b & -> & Hit & Hb).
    destruct b as [|c [|? ?]]; try discriminate.
    injection Hb as Hc.
    destruct (raw_id_spec channel_id x c (eq_sym Hc)) as (_ & s & Hs & Hint).
    rewrite Hs, (int_of_str_truthy _ _ Hint). cbn [py_int]. rewrite Hint.
    rewrite filter_app.
    rewrite (filter_older_none c (t' ++ [x]) (it ++ [c])).
    + rewrite (filter_older_all c rest ids_r); [reflexivity | assumption |].
      apply descending_app in Hd. destruct Hd as [_ Hd].
      apply Forall_forall. intros y Hy. apply (Hd c y); [|assumption].
      apply in_or_app. right. now left.
    + unfold has_ids. rewrite !map_app. simpl. now rewrite <- Hit, Hc.
    + apply descending_last. now apply descending_app_l in Hd.
Qed.

Lemma firstn_plus {A : Type} (n m : nat) (l : list A) :
  firstn (n + m) l = firstn n l ++ firstn m (skipn n l).
Proof.
  revert l. induction n as [|n IH]; intros l; [reflexivity|].
  destruct l as [|x l]; simpl; [now rewrite firstn_nil | now rewrite IH].
Qed.

Lemma len_map {A B : Type} (f : A -> B) (l : list A) : len (map f l) = len l.
Proof. unfold len. now rewrite length_map. Qed.

Lemma has_ids_normalizable (raws : list json) (ids : list Z) :
  has_ids raws ids -> forallb normalizable raws = true.
Proof.
  intros H. apply forallb_forall. intros raw Hin.
  destruct (has_ids_in _ _ _ H Hin) as (i & _ & Hi).
  now destruct (raw_id_spec "" raw i Hi).
Qed.

(** The harvest of a channel under a budget [B], from the state reached
    after the messages [taken]: while the channel has at least the
    remaining budget left in [rest], the loop ends with exactly the next
    [B - len taken] messages added. *)
Lemma channel_walk (channel_id : string) (B batch_size : Z) :
  0 < B -> 1 <= batch_size <= 100 ->
  forall fuel taken rest ids_t ids_r log,
    has_ids taken ids_t -> has_ids rest ids_r ->
    descending (ids_t ++ ids_r) = true ->
    len taken <= B -> B - len taken <= len rest ->
    (Z.to_nat (B - len taken) < fuel)%nat ->
    fst (batch_loop (channel_transport (taken ++ rest)) channel_id (Some B)
                    batch_size None fuel
                    (map (normalized channel_id) taken)
                    (last_id (map (normalized channel_id) taken)) log)
    = Some (Returned
              (map (normalized channel_id)
                   (taken ++ firstn (Z.to_nat (B - len taken)) rest))).
Proof.
  intros HB Hbs.
  induction fuel as [|fuel IH];
    intros taken rest ids_t ids_r log Ht Hr Hd Htaken Hrest Hfuel; [lia|].
  cbn [batch_loop]. unfold batch_step.
  rewrite len_map, current_batch_size_bounded by assumption.
  destruct (Z.leb_spec (B - len taken) 0) as [Hdone|Hmore].
  - replace (B - len taken) with 0 by lia. simpl. now rewrite app_nil_r.
  - set (size := Z.min batch_size (B - len taken)).
    assert (Hsize : 1 <= size <= 100) by (unfold size; lia).
    set (n := Z.to_nat size).
    assert (Hn : (n <= List.length rest)%nat) by (unfold n, size, len in *; lia).
    assert (Hpage : fst (get_messages (channel_transport (taken ++ rest)) log
                           channel_id size
                           (last_id (map (normalized channel_id) taken)) None)
                    = map (normalized channel_id) (firstn n rest)).
    { rewrite (get_messages_body _ _ _ _ _ _ (firstn n rest)).
      - now rewrite (has_ids_normalizable _ _ (has_ids_firstn n _ _ Hr)).
      - replace (Z.min size 100) with size by lia.
        now apply (channel_transport_next _ _ _ _ ids_t ids_r). }
    replace (if len taken =? 0 then None else None) with (@None Z)
      by now destruct (len taken =? 0).
    destruct (get_messages (channel_transport (taken ++ rest)) log channel_id
                           size (last_id (map (normalized channel_id) taken))
                           None) as [messages log'] eqn:Hget.
    cbn [fst] in Hpage. subst messages.
    assert (Hlen : len (map (normalized channel_id) (firstn n rest)) = size).
    { rewrite len_map. unfold len. rewrite firstn_length_le by assumption.
      unfold n. lia. }
    destruct (map (normalized channel_id) (firstn n rest)) as [|m0 ms] eqn:Hmap;
      [unfold len in Hlen; simpl in Hlen; lia|].
    rewrite Hlen, Z.ltb_irrefl. rewrite <- Hmap.
    rewrite <- (last_id_app (map (normalized channel_id) taken))
      by (rewrite Hmap; discriminate).
    rewrite <- map_app.
    assert (Hlen' : len (taken ++ firstn n rest) = len taken + size).
    { unfold len. rewrite length_app, firstn_length_le by assumption.
      unfold n. lia. }
    replace (taken ++ rest) with ((taken ++ firstn n rest) ++ skipn n rest)
      by now rewrite <- app_assoc, firstn_skipn.
    rewrite (IH (taken ++ firstn n rest) (skipn n rest)
                (ids_t ++ firstn n ids_r) (skipn n ids_r)).
    + do 3 f_equal. rewrite <- !app_assoc. f_equal.
      rewrite Hlen'.
      replace (Z.to_nat (B - len taken))
        with (n + Z.to_nat (B - (len taken + size)))%nat
        by (unfold n, size in *; lia).
      now rewrite firstn_plus.
    + apply has_ids_app; [assumption | now apply has_ids_firstn].
    + now apply has_ids_skipn.
    + now rewrite <- app_assoc, firstn_skipn.
    + rewrite Hlen'. unfold size. lia.
    + rewrite Hlen'. unfold len in *. rewrite length_skipn.
      unfold n, size in *. lia.
    + rewrite Hlen'. unfold size in *. lia.
Qed.

Lemma channel_transport_respects_limit (channel : list json) :
  respects_limit (channel_transport channel).
Proof.
  intros r log l. unfold channel_transport.
  destruct (Z.leb_spec 1 (req_limit r)); [|discriminate].
  destruct (Z.leb_spec (req_limit r) 100); [|discriminate]. cbn [andb].
  assert (Hfirst : forall l0 : list json,
             len (firstn (Z.to_nat (req_limit r)) l0) <= Z.max 0 (req_limit r)).
  { intros l0. unfold len. rewrite length_firstn. lia. }
  destruct (req_before r) as [b|].
  - destruct (py_int b); [|discriminate]. intros [= <-]. apply Hfirst.
  - destruct (req_after r) as [a|]; intros [= <-]; [|apply Hfirst].
    unfold len. rewrite length_skipn. lia.
Qed.

(** C5: under a budget [B > 0], against a transport that honours
    [limit], a returned result holds at most [B] messages; while budget
    remains, the request of each iteration asks for
    [min(batch_size, B - collected)] messages (clamped to the page
    maximum of 100), and once the budget is used up the loop returns
    without a further request; and from a channel that holds more than
    [B] messages, with no date window and a batch size of at least 1,
    the harvest returns exactly the [B] newest messages. *)
Theorem budget_bounds_count (tr : Transport) (channel_id : string) (B : Z)
    (HB : 0 < B) :
  (respects_limit tr ->
   forall log fuel batch_size after_date before_date r log',
     get_messages_batch tr log fuel channel_id (Some B) batch_size
                        after_date before_date
     = (Some (Returned r), log') ->
     len r <= B)
  /\ (forall batch_size after_snowflake all_messages before_id log,
         len all_messages < B ->
         step_log (batch_step tr channel_id (Some B) batch_size
                              after_snowflake all_messages before_id log)
         = params channel_id
                  (Z.min (Z.min batch_size (B - len all_messages)) 100)
                  before_id
                  (if len all_messages =? 0 then after_snowflake else None)
             :: log)
  /\ (forall batch_size after_snowflake all_messages before_id log,
         B <= len all_messages ->
         batch_step tr channel_id (Some B) batch_size after_snowflake
                    all_messages before_id log
         = Done (Returned all_messages) log)
  /\ (forall channel batch_size fuel,
         channel_ok channel = true -> B < len channel -> 1 <= batch_size ->
         (Z.to_nat B < fuel)%nat ->
         exists r,
           fst (get_messages_batch (channel_transport channel) [] fuel
                                   channel_id (Some B) batch_size None None)
           = Some (Returned r)
           /\ r = map (normalized channel_id) (firstn (Z.to_nat B) channel)
           /\ len r = B).
Proof.
  split; [|split; [|split]].
  - intros Htr log fuel batch_size after_date before_date r log'.
    unfold get_messages_batch.
    destruct (bound _date_to_snowflake after_date) as [after_snowflake|].
    + destruct (bound before_snowflake before_date).
      * apply batch_loop_within_budget; try assumption. unfold len; simpl; lia.
      * intros [= <- <-]. unfold len; simpl; lia.
    + intros [= <- <-]. unfold len; simpl; lia.
  - intros. now apply batch_step_request.
  - intros batch_size after_snowflake all_messages before_id log Hall.
    unfold batch_step. rewrite current_batch_size_bounded by assumption.
    destruct (Z.leb_spec (B - len all_messages) 0); [reflexivity | lia].
  - intros channel batch_size fuel Hok Hlen Hbs Hfuel.
    destruct (channel_ok_ids channel Hok) as (ids & Hids & Hd).
    eexists. split; [|split; [reflexivity|]].
    + unfold get_messages_batch. cbn [bound given].
      replace (Z.to_nat B) with (Z.to_nat (B - len (@nil json)))
        by (unfold len; simpl; f_equal; lia).
      apply (channel_walk channel_id B (Z.min batch_size 100) HB
                          ltac:(lia) fuel [] channel [] ids []);
        try assumption; try reflexivity; unfold len in *; simpl; lia.
    + rewrite len_map. unfold len in *. rewrite firstn_length_le; lia.
Qed.

Lemma budget_bounds_count_witness :
  0 < 50
  /\ respects_limit (channel_transport (sample_channel 120))
  /\ channel_ok (sample_channel 120) = true
  /\ 50 < len (sample_channel 120)
  /\ 1 <= 50
  /\ (Z.to_nat 50 < 60)%nat
  /\ (forall r log',
         get_messages_batch (channel_transport (sample_channel 120)) [] 60 "c"
                            (Some 50) 50 None None
         = (Some (Returned r), log') ->
         len r <= 50)
  /\ exists r,
       fst (get_messages_batch (channel_transport (sample_channel 120)) [] 60
                               "c" (Some 50) 50 None None)
       = Some (Returned r)
       /\ r = map (normalized "c") (firstn (Z.to_nat 50) (sample_channel 120))
       /\ len r = 50.
Proof.
  split; [lia|].
  split; [apply channel_transport_respects_limit|].
  split; [vm_compute; reflexivity|].
  split; [vm_compute; reflexivity|].
  split; [lia|]. split; [lia|].
  pose proof (budget_bounds_count (channel_transport (sample_channel 120)) "c"
                                  50 ltac:(lia)) as (H1 & _ & _ & H4).
  split.
  - intros r log'.
    apply (H1 (channel_transport_respects_limit _) [] 60%nat 50 None None).
  - apply (H4 (sample_channel 120) 50 60%nat); [vm_compute; reflexivity | | lia | lia].
    vm_compute. reflexivity.
Defined.

(** Scenario B of the specification: 120 messages in the channel, no
    window, budget 50, batch size 50; one request for 50 messages is
    issued and the 50 newest messages are returned. *)
Example budget_50_of_120 :
  let run := get_messages_batch (channel_transport (sample_channel 120)) []
                                60 "c" (Some 50) 50 None None in
  option_map (@List.length Z) (returned_ids run) = Some 50%nat
  /\ snd run = [params "c" 50 JNull None].
Proof. vm_compute. split; reflexivity. Qed.

(** *** The order of a harvest *)

Lemma batch_step_pages (tr : Transport) (channel_id : string)
    (total_limit : option Z) (batch_size : Z) (after_snowflake : option Z)
    (all_messages : list Message) (before_id : json) (log : list Request) :
  match batch_step tr channel_id total_limit batch_size after_snowflake
                   all_messages before_id log with
  | Done (Returned r) log' =>
      (log' = log /\ r = all_messages)
      \/ exists req, log' = req :: log
                     /\ r = all_messages
                            ++ kept after_snowflake
                                    (page_of tr channel_id (req :: log))
  | Done (Raised _) _ => True
  | Again all_messages' _ log' =>
      exists req, log' = req :: log
                  /\ all_messages' = all_messages
                                     ++ kept after_snowflake
                                             (page_of tr channel_id (req :: log))
  end.
Proof.
  unfold batch_step.
  destruct current_batch_size as [size|]; [|now left].
  unfold get_messages. cbv zeta.
  set (req := params channel_id (Z.min size 100) before_id _).
  fold (page_of tr channel_id (req :: log)).
  destruct (page_of tr channel_id (req :: log)) as [|m0 rest] eqn:Hpage.
  - right. exists req. split; [reflexivity|]. rewrite Hpage.
    destruct after_snowflake; simpl; now rewrite app_nil_r.
  - destruct after_snowflake as [lo|].
    + destruct (filter_after lo (m0 :: rest)) as [[k stop]|e] eqn:Hf; [|exact I].
      assert (Hk : kept (Some lo) (page_of tr channel_id (req :: log)) = k)
        by (unfold kept; now rewrite Hpage, Hf).
      destruct stop; [right; exists req; now rewrite Hk|].
      destruct k as [|k0 k'].
      * right. exists req. now rewrite Hk, app_nil_r.
      * destruct (len (k0 :: k') <? size); [right|]; exists req; now rewrite Hk.
    + destruct (len (m0 :: rest) <? size); [right|]; exists req;
        unfold kept; now rewrite Hpage.
Qed.

Lemma pages_snoc (tr : Transport) (channel_id : string)
    (base new : list Request) (req : Request) :
  pages tr channel_id base (new ++ [req])
  = page_of tr channel_id (req :: base) :: pages tr channel_id (req :: base) new.
Proof.
  induction new as [|q new IH]; simpl; [reflexivity|].
  now rewrite IH, <- app_assoc.
Qed.

Lemma batch_loop_pages (tr : Transport) (channel_id : string)
    (total_limit : option Z) (batch_size : Z) (after_snowflake : option Z)
    (fuel : nat) :
  forall all_messages before_id log r log',
    batch_loop tr channel_id total_limit batch_size after_snowflake fuel
               all_messages before_id log
    = (Some (Returned r), log') ->
    exists new,
      log' = new ++ log
      /\ r = all_messages
             ++ List.concat (map (kept after_snowflake)
                                 (pages tr channel_id log new)).
Proof.
  induction fuel as [|fuel IH]; intros all_messages before_id log r log';
    simpl; [discriminate|].
  pose proof (batch_step_pages tr channel_id total_limit batch_size
                after_snowflake all_messages before_id log) as Hstep.
  destruct batch_step as [[r0|e] l0 | a b l0].
  - intros [= <- <-]. destruct Hstep as [[-> ->] | (req & -> & ->)].
    + exists []. simpl. now rewrite app_nil_r.
    + exists [req]. simpl. now rewrite app_nil_r.
  - discriminate.
  - destruct Hstep as (req & -> & ->). intros Hrun.
    destruct (IH _ _ _ _ _ Hrun) as (new & -> & ->).
    exists (new ++ [req]). rewrite <- !app_assoc. split; [reflexivity|].
    now rewrite pages_snoc.
Qed.

(** *** The renderer's sort *)

Lemma ltb_false_leb (x y : string) :
  String.ltb y x = false -> String.leb x y = true.
Proof.
  unfold String.ltb, String.leb. rewrite (String.compare_antisym x y).
  now destruct (String.compare y x).
Qed.

Lemma ltb_true_leb (x y : string) :
  String.ltb y x = true -> String.leb y x = true.
Proof.
  unfold String.ltb, String.leb. now destruct (String.compare y x).
Qed.

Lemma insert_sorted_str (x : Message) (l : list Message) :
  str_timestamp x -> Forall str_timestamp l -> Sorted timestamp_le l ->
  exists l',
    insert_sorted m_timestamp x l = Returned l'
    /\ Permutation (x :: l) l'
    /\ Sorted timestamp_le l'
    /\ (forall y, timestamp_le y x -> HdRel timestamp_le y l ->
                  HdRel timestamp_le y l').
Proof.
  intros [sx Hx] Hl Hs. induction l as [|y0 l0 IH]; simpl.
  - exists [x]. repeat split; auto.
  - inversion Hl as [|? ? [s0 H0] Hl0]; subst.
    inversion Hs as [|? ? Hs0 Hhd]; subst.
    rewrite H0, Hx. simpl.
    destruct (String.ltb s0 sx) eqn:Hlt.
    + destruct (IH Hl0 Hs0) as (l' & -> & Hperm & Hsorted & Hhead). simpl.
      exists (y0 :: l'). split; [reflexivity|]. split; [|split].
      * rewrite perm_swap. now constructor.
      * constructor; [assumption|]. apply Hhead; [|assumption].
        exists s0, sx. auto using ltb_true_leb.
      * intros y _ Hy. inversion Hy; subst. now constructor.
    + exists (x :: y0 :: l0). split; [reflexivity|]. split; [reflexivity|].
      split.
      * constructor; [assumption|]. constructor.
        exists sx, s0. auto using ltb_false_leb.
      * intros y Hy _. now constructor.
Qed.

(** On messages whose timestamps are strs the sort returns: a
    rearrangement of its input in which no message is followed by one
    with a smaller timestamp. *)
Lemma sorted_messages_str (messages : list Message) :
  Forall str_timestamp messages ->
  exists l,
    sorted_messages messages = Returned l
    /\ Permutation messages l
    /\ Sorted timestamp_le l.
Proof.
  unfold sorted_messages. induction messages as [|x l IH]; intros H; simpl.
  - exists []. repeat split; constructor.
  - inversion H as [|? ? Hx Hl]; subst.
    destruct (IH Hl) as (l' & -> & Hperm & Hsorted). simpl.
    destruct (insert_sorted_str x l') as (l'' & Hins & Hp & Hs & _);
      try assumption.
    + eapply Permutation_Forall; eassumption.
    + exists l''. split; [assumption|]. split; [|assumption].
      now rewrite <- Hp, <- Hperm.
Qed.

(** C1, as the code has it: a returned harvest is the pages fetched, in
    the order they were fetched and each as the date filter left it,
    laid end to end; nothing is re-sorted, so pages delivered newest
    first come back newest first. The ascending order is made afterwards
    by [format_messages_markdown]: on a harvest whose timestamps are
    strs its sort returns a rearrangement of the harvest in which
    timestamps never decrease. *)
Theorem harvest_in_fetch_order (tr : Transport) (log : list Request)
    (fuel : nat) (channel_id : string) (total_limit : option Z)
    (batch_size : Z) (after_date before_date : option string)
    (r : list Message) (log' : list Request)
    (Hrun : get_messages_batch tr log fuel channel_id total_limit batch_size
                               after_date before_date
            = (Some (Returned r), log')) :
  (exists new,
      log' = new ++ log
      /\ r = List.concat (map (kept (after_bound after_date))
                              (pages tr channel_id log new)))
  /\ (Forall str_timestamp r ->
      exists l,
        sorted_messages r = Returned l
        /\ Permutation r l
        /\ Sorted timestamp_le l).
Proof.
  split; [|apply sorted_messages_str].
  revert Hrun. unfold get_messages_batch, after_bound.
  destruct (bound _date_to_snowflake after_date) as [after_snowflake|].
  - destruct (bound before_snowflake before_date).
    + intros Hrun. apply batch_loop_pages in Hrun.
      destruct Hrun as (new & -> & ->). now exists new.
    + intros [= <- <-]. now exists [].
  - intros [= <- <-]. now exists [].
Qed.

Lemma harvest_in_fetch_order_witness :
  let tr := channel_transport three_days in
  let r := map (normalized "c") three_days in
  let log' := [params "c" 2 (JStr "2") None; params "c" 2 JNull None] in
  get_messages_batch tr [] 5 "c" None 2 None None = (Some (Returned r), log')
  /\ Forall str_timestamp r
  /\ (exists new,
         log' = new ++ []
         /\ r = List.concat (map (kept (after_bound None))
                                 (pages tr "c" [] new)))
  /\ exists l,
       sorted_messages r = Returned l
       /\ Permutation r l
       /\ Sorted timestamp_le l.
Proof.
  intros tr r log'.
  assert (Hrun : get_messages_batch tr [] 5 "c" None 2 None None
                 = (Some (Returned r), log')) by (vm_compute; reflexivity).
  assert (Hts : Forall str_timestamp r)
    by (repeat constructor; eexists; reflexivity).
  split; [assumption|]. split; [assumption|].
  destruct (harvest_in_fetch_order tr [] 5 "c" None 2 None None r log' Hrun)
    as [Hpages Hsort].
  split; [exact Hpages | exact (Hsort Hts)].
Defined.

(** C1, as stated, fails: a channel serving the messages 3, 2, 1 newest
    first is harvested as 3, 2, 1, strictly descending by id and by
    timestamp; the renderer's sort is what turns it into 1, 2, 3. *)
Lemma harvest_is_newest_first :
  exists r,
    fst (get_messages_batch (channel_transport three_days) [] 5 "c"
                            None 50 None None)
    = Some (Returned r)
    /\ message_ids r = Some [3; 2; 1]
    /\ ascending_by_id r = false
    /\ map m_timestamp r = [JStr "2024-05-03T10:00:00+00:00";
                            JStr "2024-05-02T10:00:00+00:00";
                            JStr "2024-05-01T10:00:00+00:00"]
    /\ sorted_messages r = Returned (rev r).
Proof. eexists. split; [reflexivity|]. repeat split. Qed.

(* ===================================================================== *)
(** ** Further properties of the client *)
(* ===================================================================== *)

(** *** A whole channel *)

Lemma current_batch_size_quota (total_limit : option Z) (batch_size k : Z) :
  match current_batch_size total_limit batch_size k with
  | None => exists q, quota total_limit k = Some q /\ q <= 0
  | Some size =>
      match quota total_limit k with
      | Some q => 0 < q /\ size = Z.min batch_size q
      | None => size = batch_size
      end
  end.
Proof.
  unfold current_batch_size, quota. destruct total_limit as [B|]; [|reflexivity].
  destruct (Z.ltb_spec 0 B) as [HB|HB].
  - destruct (Z.eqb_spec B 0); [lia|]. cbn [negb andb].
    destruct (Z.leb_spec (B - k) 0); [now exists (B - k) | split; [lia|reflexivity]].
  - rewrite andb_false_r. reflexivity.
Qed.

Lemma firstn_short {A : Type} (n : nat) (l : list A) :
  (List.length l <= n)%nat -> firstn n l = l.
Proof. intros H. now apply firstn_all2. Qed.

(** The harvest of a channel from the state reached after the messages
    [taken]: the loop ends with what the quota allows of [rest] added,
    in the order of the channel. *)
Lemma channel_harvest (channel_id : string) (total_limit : option Z)
    (batch_size : Z) :
  1 <= batch_size <= 100 ->
  forall fuel taken rest ids_t ids_r log,
    has_ids taken ids_t -> has_ids rest ids_r ->
    descending (ids_t ++ ids_r) = true ->
    (List.length rest < fuel)%nat ->
    fst (batch_loop (channel_transport (taken ++ rest)) channel_id total_limit
                    batch_size None fuel
                    (map (normalized channel_id) taken)
                    (last_id (map (normalized channel_id) taken)) log)
    = Some (Returned
              (map (normalized channel_id)
                   (taken ++ within_quota (quota total_limit (len taken)) rest))).
Proof.
  intros Hbs.
  induction fuel as [|fuel IH];
    intros taken rest ids_t ids_r log Ht Hr Hd Hfuel; [lia|].
  cbn [batch_loop]. unfold batch_step. rewrite len_map.
  pose proof (current_batch_size_quota total_limit batch_size (len taken)) as Hq.
  destruct (current_batch_size total_limit batch_size (len taken)) as [size|].
  2:{ destruct Hq as (q & -> & Hq). cbn [fst within_quota].
      replace (Z.to_nat q) with 0%nat by lia. simpl. now rewrite app_nil_r. }
  assert (Hsize : 1 <= size <= 100).
  { destruct (quota total_limit (len taken)); [destruct Hq|]; lia. }
  set (n := Z.to_nat size).
  assert (Hpage : fst (get_messages (channel_transport (taken ++ rest)) log
                         channel_id size
                         (last_id (map (normalized channel_id) taken)) None)
                  = map (normalized channel_id) (firstn n rest)).
  { rewrite (get_messages_body _ _ _ _ _ _ (firstn n rest)).
    - now rewrite (has_ids_normalizable _ _ (has_ids_firstn n _ _ Hr)).
    - replace (Z.min size 100) with size by lia.
      now apply (channel_transport_next _ _ _ _ ids_t ids_r). }
  replace (if len taken =? 0 then None else None) with (@None Z)
    by now destruct (len taken =? 0).
  destruct (get_messages (channel_transport (taken ++ rest)) log channel_id
                         size (last_id (map (normalized channel_id) taken))
                         None) as [messages log'] eqn:Hget.
  cbn [fst] in Hpage. subst messages.
  assert (Hwant : within_quota (quota total_limit (len taken)) rest
                  = firstn n rest
                    ++ within_quota (quota total_limit (len taken + size))
                                    (skipn n rest)).
  { unfold quota in *. destruct total_limit as [B|]; cbn [within_quota].
    - destruct (0 <? B); cbn [within_quota].
      + destruct Hq as [Hq ->].
        replace (Z.to_nat (B - len taken))
          with (Z.to_nat (Z.min batch_size (B - len taken))
                + Z.to_nat (B - (len taken
                                 + Z.min batch_size (B - len taken))))%nat
          by lia.
        apply firstn_plus.
      + symmetry. apply firstn_skipn.
    - symmetry. apply firstn_skipn. }
  destruct (Nat.lt_ge_cases (List.length rest) n) as [Hshort|Hfull].
  - (* the channel ends within this page *)
    rewrite firstn_short in * by lia.
    assert (Hnone : within_quota (quota total_limit (len taken + size))
                                 (skipn n rest) = []).
    { rewrite skipn_all2 by lia.
      destruct (quota total_limit (len taken + size)); cbn;
        now rewrite ?firstn_nil. }
    rewrite Hwant, Hnone, app_nil_r.
    destruct rest as [|r0 rest']; [cbn; now rewrite app_nil_r|].
    cbn [map]. fold (map (normalized channel_id) rest').
    change (normalized channel_id r0 :: map (normalized channel_id) rest')
      with (map (normalized channel_id) (r0 :: rest')).
    assert (Hlt : (len (map (normalized channel_id) (r0 :: rest')) <? size)
                  = true).
    { apply Z.ltb_lt. rewrite len_map. unfold len, n in *. lia. }
    cbn [map] in *. rewrite Hlt. cbn [fst]. now rewrite map_app.
  - (* a full page: the walk goes on *)
    assert (Hlen : len (map (normalized channel_id) (firstn n rest)) = size).
    { rewrite len_map. unfold len. rewrite firstn_length_le by assumption.
      unfold n. lia. }
    destruct (map (normalized channel_id) (firstn n rest)) as [|m0 ms] eqn:Hmap;
      [unfold len in Hlen; simpl in Hlen; lia|].
    rewrite Hlen, Z.ltb_irrefl. rewrite <- Hmap.
    rewrite <- (last_id_app (map (normalized channel_id) taken))
      by (rewrite Hmap; discriminate).
    rewrite <- map_app.
    assert (Hlen' : len (taken ++ firstn n rest) = len taken + size).
    { unfold len. rewrite length_app, firstn_length_le by assumption.
      unfold n. lia. }
    replace (taken ++ rest) with ((taken ++ firstn n rest) ++ skipn n rest)
      by now rewrite <- app_assoc, firstn_skipn.
    rewrite (IH (taken ++ firstn n rest) (skipn n rest)
                (ids_t ++ firstn n ids_r) (skipn n ids_r)).
    + rewrite Hlen', Hwant. now rewrite <- !app_assoc.
    + apply has_ids_app; [assumption | now apply has_ids_firstn].
    + now apply has_ids_skipn.
    + now rewrite <- app_assoc, firstn_skipn.
    + rewrite length_skipn. unfold n in *. lia.
Qed.

(** X1: the harvest of a channel whose messages all normalise and carry
    strictly descending decimal ids, with no date window and a batch
    size of at least 1, returns the channel's messages in the order of
    the channel, without gap or repetition: all of them when there is no
    positive budget, the [B] newest under a budget [B > 0]. *)
Theorem harvest_of_channel (channel : list json) (log : list Request)
    (fuel : nat) (channel_id : string) (total_limit : option Z)
    (batch_size : Z)
    (Hok : channel_ok channel = true) (Hbs : 1 <= batch_size)
    (Hfuel : (List.length channel < fuel)%nat) :
  fst (get_messages_batch (channel_transport channel) log fuel channel_id
                          total_limit batch_size None None)
  = Some (Returned (map (normalized channel_id)
                        (within_quota (quota total_limit 0) channel))).
Proof.
  destruct (channel_ok_ids channel Hok) as (ids & Hids & Hd).
  unfold get_messages_batch. cbn [bound given].
  apply (channel_harvest channel_id total_limit (Z.min batch_size 100)
                         ltac:(lia) fuel [] channel [] ids log);
    try assumption; reflexivity.
Qed.

Lemma harvest_of_channel_witness :
  channel_ok (sample_channel 7) = true
  /\ 1 <= 3
  /\ (List.length (sample_channel 7) < 9)%nat
  /\ fst (get_messages_batch (channel_transport (sample_channel 7)) [] 9 "c"
                             None 3 None None)
     = Some (Returned (map (normalized "c") (sample_channel 7)))
  /\ fst (get_messages_batch (channel_transport (sample_channel 7)) [] 9 "c"
                             (Some 5) 3 None None)
     = Some (Returned (map (normalized "c") (firstn 5 (sample_channel 7)))).
Proof.
  split; [vm_compute; reflexivity|]. split; [lia|].
  split; [vm_compute; lia|]. split.
  - apply (harvest_of_channel (sample_channel 7) [] 9 "c" None 3);
      [vm_compute; reflexivity | lia | vm_compute; lia].
  - apply (harvest_of_channel (sample_channel 7) [] 9 "c" (Some 5) 3);
      [vm_compute; reflexivity | lia | vm_compute; lia].
Defined.

(** *** A budget that is not positive *)

(** C10: a [total_limit] that is zero or negative is no limit. The
    budget check is skipped, so the harvest is, iteration for iteration
    and request for request, the harvest with no [total_limit] at all;
    every iteration issues a request for the whole batch size however
    many messages have been collected; and the harvest of a channel
    returns all of the channel's messages, not none of them. *)
Theorem nonpositive_total_limit_is_no_limit (z : Z) (H : z <= 0) :
  (forall tr log fuel channel_id batch_size after_date before_date,
      get_messages_batch tr log fuel channel_id (Some z) batch_size
                         after_date before_date
      = get_messages_batch tr log fuel channel_id None batch_size
                           after_date before_date)
  /\ (forall tr channel_id batch_size after_snowflake all_messages before_id
             log,
         step_log (batch_step tr channel_id (Some z) batch_size
                              after_snowflake all_messages before_id log)
         = params channel_id (Z.min batch_size 100) before_id
                  (if len all_messages =? 0 then after_snowflake else None)
             :: log)
  /\ (forall channel log fuel channel_id batch_size,
         channel_ok channel = true -> 1 <= batch_size ->
         (List.length channel < fuel)%nat ->
         fst (get_messages_batch (channel_transport channel) log fuel
                                 channel_id (Some z) batch_size None None)
         = Some (Returned (map (normalized channel_id) channel))).
Proof.
  split; [|split].
  - intros. unfold get_messages_batch.
    destruct (bound _date_to_snowflake after_date); [|reflexivity].
    destruct (bound before_snowflake before_date); [|reflexivity].
    now apply batch_loop_unbounded.
  - intros. unfold batch_step.
    rewrite current_batch_size_unbounded by assumption.
    unfold get_messages.
    repeat match goal with
           | |- context [match ?x with _ => _ end] => destruct x; try reflexivity
           end.
  - intros channel log fuel channel_id batch_size Hok Hbs Hfuel.
    destruct (channel_ok_ids channel Hok) as (ids & Hids & Hd).
    unfold get_messages_batch. cbn [bound given].
    assert (Hq : within_quota (quota (Some z) 0) channel = channel)
      by (unfold quota; destruct (Z.ltb_spec 0 z); [lia | reflexivity]).
    transitivity
      (Some (Returned (map (normalized channel_id)
                           (within_quota (quota (Some z) 0) channel))));
      [|now rewrite Hq].
    apply (channel_harvest channel_id (Some z) (Z.min batch_size 100)
                           ltac:(lia) fuel [] channel [] ids log);
      try assumption; reflexivity.
Qed.

Lemma nonpositive_total_limit_is_no_limit_witness :
  -3 <= 0
  /\ channel_ok (sample_channel 7) = true
  /\ 1 <= 3
  /\ (List.length (sample_channel 7) < 9)%nat
  /\ get_messages_batch (channel_transport (sample_channel 7)) [] 9 "c"
                        (Some (-3)) 3 None None
     = get_messages_batch (channel_transport (sample_channel 7)) [] 9 "c"
                          None 3 None None
  /\ step_log (batch_step (channel_transport (sample_channel 7)) "c"
                          (Some (-3)) 3 None
                          (map (normalized "c") (firstn 3 (sample_channel 7)))
                          (JStr "5") [])
     = [params "c" 3 (JStr "5") None]
  /\ fst (get_messages_batch (channel_transport (sample_channel 7)) [] 9 "c"
                             (Some (-3)) 3 None None)
     = Some (Returned (map (normalized "c") (sample_channel 7))).
Proof.
  pose proof (nonpositive_total_limit_is_no_limit (-3) ltac:(lia))
    as (H1 & H2 & H3).
  split; [lia|]. split; [vm_compute; reflexivity|]. split; [lia|].
  split; [vm_compute; lia|]. split; [apply H1|]. split.
  - exact (H2 (channel_transport (sample_channel 7)) "c" 3 None
              (map (normalized "c") (firstn 3 (sample_channel 7)))
              (JStr "5") []).
  - apply (H3 (sample_channel 7) [] 9%nat "c" 3);
      [vm_compute; reflexivity | lia | vm_compute; lia].
Defined.

(** With [total_limit] zero the walk over a channel of seven messages
    returns all seven, not none. *)
Example zero_total_limit_walks_channel :
  returned_ids (get_messages_batch (channel_transport (sample_channel 7)) []
                                   9 "c" (Some 0) 3 None None)
  = Some [7; 6; 5; 4; 3; 2; 1].
Proof. vm_compute. reflexivity. Qed.

(** *** The requests of a harvest *)

Lemma current_batch_size_le (total_limit : option Z) (batch_size k size : Z) :
  current_batch_size total_limit batch_size k = Some size -> size <= batch_size.
Proof.
  intros H.
  pose proof (current_batch_size_quota total_limit batch_size k) as Hq.
  rewrite H in Hq. destruct (quota total_limit k); [destruct Hq|]; lia.
Qed.

Lemma py_int_raises (v : json) (e : Exn) :
  py_int v = Raised e -> int_error e.
Proof.
  unfold int_error.
  destruct v as [| | |s| | |f]; simpl; try discriminate;
    try (intros [= <-]; now left).
  - destruct (int_of_str s); [discriminate | intros [= <-]; auto].
  - destruct f; try discriminate; intros [= <-]; auto.
Qed.

Lemma filter_after_raises (lo : Z) (messages : list Message) (e : Exn) :
  filter_after lo messages = Raised e -> int_error e.
Proof.
  induction messages as [|m rest IH]; simpl; [discriminate|].
  destruct (py_int (m_id m)) as [i|e'] eqn:Hi; simpl.
  - destruct (lo <=? i); [|discriminate].
    destruct (filter_after lo rest) as [[k s]|e'']; simpl; [discriminate|].
    intros [= <-]. now apply IH.
  - intros [= <-]. now apply (py_int_raises (m_id m)).
Qed.

(** What a step does to the state: it returns at once on an exhausted
    budget or issues exactly one request, and when the loop goes on the
    cursor is the id of the last message collected. *)
Lemma batch_step_state (tr : Transport) (channel_id : string)
    (total_limit : option Z) (batch_size : Z) (after_snowflake : option Z)
    (all_messages : list Message) (before_id : json) (log : list Request) :
  let step := batch_step tr channel_id total_limit batch_size after_snowflake
                         all_messages before_id log in
  (step = Done (Returned all_messages) log
   \/ exists size,
        size <= batch_size
        /\ step_log step
           = params channel_id (Z.min size 100) before_id
                    (if len all_messages =? 0 then after_snowflake else None)
               :: log)
  /\ match step with
     | Done (Returned r) _ => exists extra, r = all_messages ++ extra
     | Done (Raised e) _ =>
         after_snowflake <> None /\ int_error e
     | Again all_messages' before_id' _ =>
         (exists extra, extra <> [] /\ all_messages' = all_messages ++ extra)
         /\ before_id' = last_id all_messages'
     end.
Proof.
  unfold batch_step.
  destruct (current_batch_size total_limit batch_size (len all_messages))
    as [size|] eqn:Hsize.
  2:{ split; [now left | exists []; now rewrite app_nil_r]. }
  apply current_batch_size_le in Hsize.
  unfold get_messages. cbv zeta.
  set (req := params channel_id (Z.min size 100) before_id _).
  fold (page_of tr channel_id (req :: log)).
  assert (Hreq : forall s, step_log s = req :: log ->
                           s = Done (Returned all_messages) log
                           \/ exists size0,
                                size0 <= batch_size
                                /\ step_log s
                                   = params channel_id (Z.min size0 100)
                                            before_id
                                            (if len all_messages =? 0
                                             then after_snowflake else None)
                                       :: log)
    by (intros s Hs; right; now exists size).
  destruct (page_of tr channel_id (req :: log)) as [|m0 rest].
  { split; [now apply Hreq | exists []; now rewrite app_nil_r]. }
  destruct after_snowflake as [lo|].
  - destruct (filter_after lo (m0 :: rest)) as [[k stop]|e] eqn:Hf.
    + destruct stop; [split; [now apply Hreq | now exists k]|].
      destruct k as [|k0 k'];
        [split; [now apply Hreq | exists []; now rewrite app_nil_r]|].
      destruct (len (k0 :: k') <? size);
        (split; [now apply Hreq|]); [now exists (k0 :: k')|].
      split; [now exists (k0 :: k') | now rewrite last_id_app].
    + split; [now apply Hreq|]. split; [discriminate|].
      now apply (filter_after_raises lo (m0 :: rest)).
  - destruct (len (m0 :: rest) <? size);
      (split; [now apply Hreq|]); [now exists (m0 :: rest)|].
    split; [now exists (m0 :: rest) | now rewrite last_id_app].
Qed.

Lemma last_id_in (l : list Message) :
  l <> [] -> exists m, In m l /\ last_id l = m_id m.
Proof.
  intros H. destruct (nil_or_snoc l) as [-> | (l' & x & ->)]; [congruence|].
  exists x. split; [apply in_or_app; right; now left|].
  unfold last_id. now rewrite rev_app_distr.
Qed.

Lemma batch_loop_requests (tr : Transport) (channel_id : string)
    (total_limit : option Z) (batch_size : Z) (after_snowflake : option Z)
    (fuel : nat) :
  forall all_messages before_id log,
  exists new,
    snd (batch_loop tr channel_id total_limit batch_size after_snowflake fuel
                    all_messages before_id log)
    = new ++ log
    /\ (List.length new <= fuel)%nat
    /\ Forall (fun q => req_channel q = channel_id
                        /\ req_limit q <= 100
                        /\ req_limit q <= batch_size) new.
Proof.
  induction fuel as [|fuel IH]; intros all_messages before_id log;
    [exists []; repeat split; auto|].
  cbn [batch_loop].
  pose proof (batch_step_state tr channel_id total_limit batch_size
                after_snowflake all_messages before_id log) as [Hlog _].
  cbv zeta in Hlog.
  destruct Hlog as [-> | (size & Hsize & Hlog)];
    [exists []; repeat split; [simpl; lia | constructor]|].
  assert (Hq : Forall (fun q => req_channel q = channel_id
                                /\ req_limit q <= 100
                                /\ req_limit q <= batch_size)
                      [params channel_id (Z.min size 100) before_id
                              (if len all_messages =? 0
                               then after_snowflake else None)])
    by (repeat constructor; simpl; lia).
  destruct batch_step as [res l0 | a b l0]; cbn [step_log] in Hlog; subst l0.
  - eexists [_]. cbn [snd]. split; [reflexivity|]. split; [simpl; lia | exact Hq].
  - destruct (IH a b (params channel_id (Z.min size 100) before_id
                             (if len all_messages =? 0
                              then after_snowflake else None) :: log))
      as (new & -> & Hlen & Hall).
    eexists (new ++ [_]). rewrite <- app_assoc. split; [reflexivity|].
    split; [rewrite length_app; simpl; lia | now apply Forall_app].
Qed.

Lemma batch_loop_raised (tr : Transport) (channel_id : string)
    (total_limit : option Z) (batch_size : Z) (after_snowflake : option Z)
    (fuel : nat) :
  forall all_messages before_id log e log',
    batch_loop tr channel_id total_limit batch_size after_snowflake fuel
               all_messages before_id log
    = (Some (Raised e), log') ->
    after_snowflake <> None /\ int_error e.
Proof.
  induction fuel as [|fuel IH]; intros all_messages before_id log e log';
    cbn [batch_loop]; [discriminate|].
  pose proof (batch_step_state tr channel_id total_limit batch_size
                after_snowflake all_messages before_id log) as [_ Hst].
  cbv zeta in Hst.
  destruct batch_step as [[r0|e0] l0 | a b l0].
  - discriminate.
  - now intros [= <- <-].
  - apply IH.
Qed.

Lemma batch_loop_paging (tr : Transport) (channel_id : string)
    (total_limit : option Z) (batch_size : Z) (after_snowflake : option Z)
    (fuel : nat) :
  forall all_messages log r log',
    batch_loop tr channel_id total_limit batch_size after_snowflake fuel
               all_messages (last_id all_messages) log
    = (Some (Returned r), log') ->
    exists new extra,
      log' = new ++ log
      /\ r = all_messages ++ extra
      /\ paging (sent_cursor (last_id all_messages))
                (if len all_messages =? 0 then after_snowflake else None)
                r new.
Proof.
  induction fuel as [|fuel IH]; intros all_messages log r log';
    cbn [batch_loop]; [discriminate|].
  pose proof (batch_step_state tr channel_id total_limit batch_size
                after_snowflake all_messages (last_id all_messages) log)
    as [Hlog Hst].
  cbv zeta in Hlog, Hst.
  destruct Hlog as [-> | (size & _ & Hlog)].
  { intros [= <- <-]. exists [], []. rewrite app_nil_r. repeat split. now left. }
  set (req := params channel_id (Z.min size 100) (last_id all_messages)
                     (if len all_messages =? 0 then after_snowflake else None))
    in *.
  destruct batch_step as [[r0|e0] l0 | a b l0]; cbn [step_log] in Hlog; subst l0.
  - intros [= <- <-]. destruct Hst as [extra ->].
    exists [req], extra. repeat split. right. exists [], req. now repeat split.
  - discriminate.
  - destruct Hst as [(extra & Hne & ->) ->]. intros Hrun.
    destruct (IH _ _ _ _ Hrun) as (new & extra' & -> & -> & Hpaging).
    exists (new ++ [req]), (extra ++ extra').
    rewrite <- !app_assoc. repeat split.
    right. exists new, req. repeat split.
    assert (Hnonempty : all_messages ++ extra <> [])
      by (destruct all_messages; [simpl; assumption | discriminate]).
    assert (Hlen0 : (len (all_messages ++ extra) =? 0) = false).
    { apply Z.eqb_neq. unfold len.
      destruct (all_messages ++ extra); [congruence | simpl; lia]. }
    rewrite Hlen0 in Hpaging.
    destruct Hpaging as [-> | (later & first & -> & Hb & Ha & Hlater)];
      [constructor|].
    rewrite <- !app_assoc in *.
    apply Forall_app. split; [exact Hlater|].
    constructor; [|constructor]. split; [assumption|].
    rewrite Hb. unfold sent_cursor.
    destruct (py_truthy (last_id (all_messages ++ extra))); [|now left].
    right. destruct (last_id_in _ Hnonempty) as (m & Hin & ->).
    exists m. split; [|reflexivity].
    rewrite app_assoc. apply in_or_app. now left.
Qed.

(** X2: whatever the transport answers and however the harvest ends, it
    issues at most one request per iteration of its loop, each for the
    channel it was given and for a number of messages that is at most
    100 and at most the batch size asked for. *)
Theorem harvest_requests_bounded (tr : Transport) (log : list Request)
    (fuel : nat) (channel_id : string) (total_limit : option Z)
    (batch_size : Z) (after_date before_date : option string) :
  exists new,
    snd (get_messages_batch tr log fuel channel_id total_limit batch_size
                            after_date before_date)
    = new ++ log
    /\ (List.length new <= fuel)%nat
    /\ Forall (fun q => req_channel q = channel_id
                        /\ req_limit q <= 100
                        /\ req_limit q <= batch_size) new.
Proof.
  unfold get_messages_batch.
  destruct (bound _date_to_snowflake after_date) as [after_snowflake|];
    [|exists []; repeat split; [simpl; lia | constructor]].
  destruct (bound before_snowflake before_date);
    [|exists []; repeat split; [simpl; lia | constructor]].
  destruct (batch_loop_requests tr channel_id total_limit
              (Z.min batch_size 100) after_snowflake fuel [] JNull log)
    as (new & Hlog & Hlen & Hall).
  exists new. repeat split; try assumption.
  eapply Forall_impl; [|exact Hall]. simpl. intros q (? & ? & ?).
  repeat split; try assumption. lia.
Qed.

(** X3: in a harvest that returns, the first request carries no
    [before] cursor and carries the lower bound, when there is one, as
    [after]; every later request carries no [after], and as [before]
    either nothing or the id of a message of the result. *)
Theorem harvest_paging (tr : Transport) (log : list Request) (fuel : nat)
    (channel_id : string) (total_limit : option Z) (batch_size : Z)
    (after_date before_date : option string)
    (r : list Message) (log' : list Request)
    (Hrun : get_messages_batch tr log fuel channel_id total_limit batch_size
                               after_date before_date
            = (Some (Returned r), log')) :
  exists new, log' = new ++ log /\ paging None (after_bound after_date) r new.
Proof.
  revert Hrun. unfold get_messages_batch, after_bound.
  destruct (bound _date_to_snowflake after_date) as [after_snowflake|];
    [|intros [= <- <-]; exists []; split; [reflexivity | now left]].
  destruct (bound before_snowflake before_date);
    [|intros [= <- <-]; exists []; split; [reflexivity | now left]].
  intros Hrun.
  destruct (batch_loop_paging _ _ _ _ _ fuel [] log r log' Hrun)
    as (new & extra & -> & _ & Hpaging).
  now exists new.
Qed.

Lemma harvest_paging_witness :
  let r := map (normalized "c") (sample_channel 7) in
  let log' := [params "c" 3 (JStr "2") None; params "c" 3 (JStr "5") None;
               params "c" 3 JNull None] in
  get_messages_batch (channel_transport (sample_channel 7)) [] 9 "c" None 3
                     None None
  = (Some (Returned r), log')
  /\ exists new, log' = new ++ [] /\ paging None (after_bound None) r new.
Proof.
  intros r log'.
  assert (Hrun : get_messages_batch (channel_transport (sample_channel 7)) []
                                    9 "c" None 3 None None
                 = (Some (Returned r), log')) by (vm_compute; reflexivity).
  split; [exact Hrun|].
  exact (harvest_paging _ _ _ _ _ _ _ _ r log' Hrun).
Defined.

(** *** What makes a harvest raise *)

(** X4: a harvest raises only when a lower-bound date is in force, and
    then only what [int(msg['id'])] raises: [TypeError], [ValueError],
    or the [OverflowError] of an id that is an infinite float; without
    [after_date] no transport can make it raise. *)
Theorem harvest_raises_only_on_ids (tr : Transport) (log : list Request)
    (fuel : nat) (channel_id : string) (total_limit : option Z)
    (batch_size : Z) (after_date before_date : option string)
    (e : Exn) (log' : list Request)
    (Hrun : get_messages_batch tr log fuel channel_id total_limit batch_size
                               after_date before_date
            = (Some (Raised e), log')) :
  given after_date <> None
  /\ (e = TypeError \/ e = ValueError \/ e = OverflowError).
Proof.
  revert Hrun. unfold get_messages_batch, bound.
  destruct (given after_date) as [d|].
  - destruct (_date_to_snowflake d); [|discriminate].
    destruct (match given before_date with
              | Some d0 => match before_snowflake d0 with
                           | Some s => Some (Some s)
                           | None => None
                           end
              | None => Some None
              end); [|discriminate].
    intros Hrun. apply batch_loop_raised in Hrun. split; [discriminate|].
    apply Hrun.
  - destruct (match given before_date with
              | Some d0 => match before_snowflake d0 with
                           | Some s => Some (Some s)
                           | None => None
                           end
              | None => Some None
              end); [|discriminate].
    intros Hrun. apply batch_loop_raised in Hrun. now destruct Hrun.
Qed.

Lemma harvest_raises_only_on_ids_witness :
  get_messages_batch page_without_id [] 3 "c" None 50 (Some "2015-01-02") None
  = (Some (Raised TypeError), [params "c" 50 JNull (Some 362387865600000)])
  /\ given (Some "2015-01-02") <> None
  /\ (TypeError = TypeError \/ TypeError = ValueError
      \/ TypeError = OverflowError).
Proof.
  assert (Hrun : get_messages_batch page_without_id [] 3 "c" None 50
                                    (Some "2015-01-02") None
                 = (Some (Raised TypeError),
                    [params "c" 50 JNull (Some 362387865600000)]))
    by (vm_compute; reflexivity).
  split; [exact Hrun|].
  exact (harvest_raises_only_on_ids _ _ _ _ _ _ _ _ _ _ Hrun).
Defined.

(** An id of 1e400 is the float infinity, and [int] of it overflows. *)
Example infinite_id_overflows :
  get_messages_batch page_with_infinite_id [] 3 "c" None 50
                     (Some "2015-01-02") None
  = (Some (Raised OverflowError),
     [params "c" 50 JNull (Some 362387865600000)]).
Proof. vm_compute. reflexivity. Qed.

(** What [int] reads of an id and what it refuses: a numeral between
    white space, in ASCII or not (a no-break space, fullwidth digits),
    and the whole part of a float; not a numeral after the control
    character 0x1C, nor one of more than 4300 digits. *)
Example int_of_ids :
  py_int (JStr " 12 ") = Returned 12
  /\ py_int (JStr (of_bytes [194; 160; 49; 50])) = Returned 12
  /\ py_int (JStr (of_bytes [239; 188; 145; 239; 188; 146])) = Returned 12
  /\ py_int (JStr "1_000") = Returned 1000
  /\ py_int (JFloat (S754_finite false 3 (-1))) = Returned 1
  /\ py_int (JFloat (S754_finite true 3 (-1))) = Returned (-1)
  /\ py_int (JStr (of_bytes [28; 49; 50])) = Raised ValueError
  /\ py_int (JStr "12a") = Raised ValueError
  /\ py_int (JStr (string_of_list_ascii (repeat "1"%char 4301)))
     = Raised ValueError
  /\ py_int (JFloat S754_nan) = Raised ValueError
  /\ py_int JNull = Raised TypeError.
Proof. vm_compute. repeat split. Qed.

Lemma filter_after_raise_at (lo : Z) (pre post : list Message) (m : Message)
    (e : Exn) :
  Forall (at_or_above lo) pre -> py_int (m_id m) = Raised e ->
  filter_after lo (pre ++ m :: post) = Raised e.
Proof.
  intros Hpre Hm. induction Hpre as [|x pre (i & Hi & Hle) _ IH]; simpl.
  - now rewrite Hm.
  - rewrite Hi. simpl. destruct (Z.leb_spec lo i); [|lia]. now rewrite IH.
Qed.

(** X5: under a lower bound, a message whose id [int] cannot read (a
    missing id, a text that is not a numeral, a float that is infinite
    or NaN), met in a page before any
    message below the bound, makes the harvest raise that error: the
    messages collected so far are not returned. *)
Theorem unreadable_id_aborts (tr : Transport) (channel_id : string)
    (total_limit : option Z) (batch_size lo : Z) (fuel : nat)
    (all_messages : list Message) (before_id : json) (log : list Request)
    (size : Z) (pre post : list Message) (m : Message) (e : Exn)
    (Hsize : current_batch_size total_limit batch_size (len all_messages)
             = Some size)
    (Hpage : fst (get_messages tr log channel_id size before_id
                               (if len all_messages =? 0 then Some lo else None))
             = pre ++ m :: post)
    (Hpre : Forall (at_or_above lo) pre)
    (Hm : py_int (m_id m) = Raised e) :
  batch_loop tr channel_id total_limit batch_size (Some lo) (S fuel)
             all_messages before_id log
  = (Some (Raised e),
     params channel_id (Z.min size 100) before_id
            (if len all_messages =? 0 then Some lo else None)
       :: log).
Proof.
  simpl. unfold batch_step. rewrite Hsize.
  unfold get_messages in *. simpl in Hpage. rewrite Hpage.
  destruct (pre ++ m :: post) as [|m0 rest] eqn:Hsplit; [now destruct pre|].
  rewrite <- Hsplit. now rewrite (filter_after_raise_at lo pre post m e).
Qed.

Lemma unreadable_id_aborts_witness :
  let lo := 362387865600000 in
  let pre := [normalized "c"
                (raw_message 500000000000000 "2015-01-02T09:06:49+00:00")] in
  let m := normalized "c" (JObj [("content", JStr "no id")]) in
  let post := [normalized "c"
                 (raw_message 400000000000000 "2015-01-02T02:29:27+00:00")] in
  current_batch_size None 50 (len (@nil Message)) = Some 50
  /\ fst (get_messages page_without_id [] "c" 50 JNull
                       (if len (@nil Message) =? 0 then Some lo else None))
     = pre ++ m :: post
  /\ Forall (at_or_above lo) pre
  /\ py_int (m_id m) = Raised TypeError
  /\ batch_loop page_without_id "c" None 50 (Some lo) 1 [] JNull []
     = (Some (Raised TypeError), [params "c" 50 JNull (Some lo)]).
Proof.
  intros lo pre m post.
  assert (Hpre : Forall (at_or_above lo) pre).
  { constructor; [|constructor].
    exists 500000000000000. split; [reflexivity | unfold lo; lia]. }
  repeat (split; [first [reflexivity | assumption] |]).
  exact (unreadable_id_aborts page_without_id "c" None 50 lo 0 [] JNull [] 50
                              pre post m TypeError eq_refl eq_refl Hpre eq_refl).
Defined.

(** X6: when the body of a page holds one record that cannot be
    normalised, the harvest takes the page for the end of the history:
    it returns the messages collected so far, with nothing of that page,
    and does not raise. *)
Theorem unreadable_record_ends_harvest (tr : Transport) (channel_id : string)
    (total_limit : option Z) (batch_size : Z) (after_snowflake : option Z)
    (fuel : nat) (all_messages : list Message) (before_id : json)
    (log : list Request) (size : Z) (raws : list json)
    (Hsize : current_batch_size total_limit batch_size (len all_messages)
             = Some size)
    (Hbody : tr (params channel_id (Z.min size 100) before_id
                        (if len all_messages =? 0
                         then after_snowflake else None) :: log)
             = Body (JArr raws))
    (Hbad : forallb normalizable raws = false) :
  batch_loop tr channel_id total_limit batch_size after_snowflake (S fuel)
             all_messages before_id log
  = (Some (Returned all_messages),
     params channel_id (Z.min size 100) before_id
            (if len all_messages =? 0 then after_snowflake else None)
       :: log).
Proof.
  pose proof (get_messages_body _ _ _ _ _ _ _ Hbody) as Hpage.
  rewrite Hbad in Hpage.
  simpl. unfold batch_step. rewrite Hsize.
  unfold get_messages in *. simpl in Hpage. now rewrite Hpage.
Qed.

Lemma unreadable_record_ends_harvest_witness :
  let collected :=
    map (normalized "c") [raw_message 6 "2024-05-06T00:00:00+00:00";
                          raw_message 5 "2024-05-05T00:00:00+00:00"] in
  let raws := [raw_message 4 "2024-05-04T00:00:00+00:00";
               JObj [("id", JStr "3"); ("author", JNull)]] in
  let log := [params "c" 2 JNull None] in
  current_batch_size None 2 (len collected) = Some 2
  /\ bad_second_page (params "c" (Z.min 2 100) (JStr "5")
                             (if len collected =? 0 then None else None)
                        :: log)
     = Body (JArr raws)
  /\ forallb normalizable raws = false
  /\ batch_loop bad_second_page "c" None 2 None 1 collected (JStr "5") log
     = (Some (Returned collected),
        params "c" (Z.min 2 100) (JStr "5")
               (if len collected =? 0 then None else None) :: log)
  /\ get_messages_batch bad_second_page [] 5 "c" None 2 None None
     = (Some (Returned collected), params "c" 2 (JStr "5") None :: log).
Proof.
  intros collected raws log.
  split; [reflexivity|]. split; [reflexivity|]. split; [reflexivity|]. split.
  - exact (unreadable_record_ends_harvest bad_second_page "c" None 2 None 0
             collected (JStr "5") log 2 raws eq_refl eq_refl eq_refl).
  - vm_compute. reflexivity.
Defined.

(** *** Days in order *)

Lemma days_before_year_succ (y : Z) :
  _days_before_year (y + 1) = _days_before_year y + 365 + Z.b2z (_is_leap y).
Proof.
  unfold _days_before_year, _is_leap. cbv zeta.
  replace (y + 1 - 1) with y by lia.
  destruct (Z.eqb_spec (y mod 4) 0); destruct (Z.eqb_spec (y mod 100) 0);
    destruct (Z.eqb_spec (y mod 400) 0); cbn [andb orb negb Z.b2z];
    Z.div_mod_to_equations; lia.
Qed.

Lemma days_before_year_mono (y1 y2 : Z) :
  y1 <= y2 -> _days_before_year y1 <= _days_before_year y2.
Proof.
  intros H. unfold _days_before_year. cbv zeta.
  Z.div_mod_to_equations. lia.
Qed.

Ltac eval_month_tables :=
  repeat match goal with
         | |- context [nth (Z.to_nat ?n) ?l 0] =>
             let v := eval vm_compute in (nth (Z.to_nat n) l 0) in
             change (nth (Z.to_nat n) l 0) with v
         | |- context [Z.pos ?a =? Z.pos ?b] =>
             let v := eval vm_compute in (Z.pos a =? Z.pos b) in
             change (Z.pos a =? Z.pos b) with v
         | |- context [Z.pos ?a <? Z.pos ?b] =>
             let v := eval vm_compute in (Z.pos a <? Z.pos b) in
             change (Z.pos a <? Z.pos b) with v
         end;
  cbn [andb Z.b2z].

Lemma month_cases (m : Z) :
  1 <= m <= 12 ->
  m = 1 \/ m = 2 \/ m = 3 \/ m = 4 \/ m = 5 \/ m = 6 \/ m = 7 \/ m = 8
  \/ m = 9 \/ m = 10 \/ m = 11 \/ m = 12.
Proof. lia. Qed.

(** Within a valid date the day of the year is between 1 and the length
    of the year. *)
Lemma day_of_year_bounds (d : date) :
  valid_date d = true ->
  1 <= _days_before_month (year d) (month d) + day d
    <= 365 + Z.b2z (_is_leap (year d)).
Proof.
  destruct d as [y m dd]. unfold valid_date. cbn [year month day].
  rewrite !andb_true_iff, !Z.leb_le. intros [[[[[Hy1 Hy2] Hm1] Hm2] Hd1] Hd2].
  revert Hd2. unfold _days_in_month, _days_before_month.
  destruct (month_cases m ltac:(lia)) as
      [-> | [-> | [-> | [-> | [-> | [-> | [-> | [-> | [-> | [-> | [-> | ->]]]]]]]]]]];
    destruct (_is_leap y); eval_month_tables; lia.
Qed.

Lemma days_before_month_step (y m1 m2 d1 : Z) :
  1 <= m1 -> m1 < m2 -> m2 <= 12 -> d1 <= _days_in_month y m1 ->
  _days_before_month y m1 + d1 <= _days_before_month y m2.
Proof.
  intros H1 H12 H2. unfold _days_in_month, _days_before_month.
  destruct (month_cases m1 ltac:(lia)) as
      [-> | [-> | [-> | [-> | [-> | [-> | [-> | [-> | [-> | [-> | [-> | ->]]]]]]]]]]];
    destruct (month_cases m2 ltac:(lia)) as
      [-> | [-> | [-> | [-> | [-> | [-> | [-> | [-> | [-> | [-> | [-> | ->]]]]]]]]]]];
    try lia; destruct (_is_leap y); eval_month_tables; lia.
Qed.

(** The ordinal of a day grows with the calendar. *)
Lemma ymd2ord_lt (d1 d2 : date) :
  valid_date d1 = true -> valid_date d2 = true -> date_lt d1 d2 ->
  _ymd2ord (year d1) (month d1) (day d1)
  < _ymd2ord (year d2) (month d2) (day d2).
Proof.
  intros H1 H2 Hlt.
  pose proof (day_of_year_bounds d1 H1) as B1.
  pose proof (day_of_year_bounds d2 H2) as B2.
  unfold _ymd2ord.
  destruct Hlt as [Hy | [Hy [Hm | [Hm Hd]]]].
  - pose proof (days_before_year_succ (year d1)) as Hs.
    pose proof (days_before_year_mono (year d1 + 1) (year d2) ltac:(lia)).
    lia.
  - rewrite Hy in *.
    destruct d1 as [y1 m1 dd1], d2 as [y2 m2 dd2]. cbn [year month day] in *.
    unfold valid_date in H1, H2. cbn [year month day] in H1, H2.
    rewrite !andb_true_iff, !Z.leb_le in H1, H2.
    pose proof (days_before_month_step y2 m1 m2 dd1).
    subst y1. lia.
  - rewrite Hy, Hm. lia.
Qed.

(** X7: the day windows of two dates are in calendar order and do not
    meet: for date strings that read as days [d1] before [d2], the upper
    bound of [d1] is below the lower bound of [d2] (and so is the lower
    bound of [d1]). *)
Theorem day_windows_in_order (D1 D2 : string) (d1 d2 : date)
    (H1 : strptime D1 = Some d1) (H2 : strptime D2 = Some d2)
    (Hlt : date_lt d1 d2) :
  exists lo1 hi1 lo2,
    _date_to_snowflake D1 = Some lo1
    /\ before_snowflake D1 = Some hi1
    /\ _date_to_snowflake D2 = Some lo2
    /\ lo1 <= hi1 /\ hi1 < lo2.
Proof.
  unfold _date_to_snowflake, before_snowflake. rewrite H1, H2.
  do 3 eexists. do 3 (split; [reflexivity|]).
  pose proof (ymd2ord_lt d1 d2 (strptime_valid _ _ H1) (strptime_valid _ _ H2)
                         Hlt) as Hord.
  rewrite !Z.shiftl_mul_pow2 by lia. unfold seconds_since_epoch. lia.
Qed.

Lemma day_windows_in_order_witness :
  strptime "2024-02-29" = Some (mkdate 2024 2 29)
  /\ strptime "2024-3-1" = Some (mkdate 2024 3 1)
  /\ date_lt (mkdate 2024 2 29) (mkdate 2024 3 1)
  /\ exists lo1 hi1 lo2,
       _date_to_snowflake "2024-02-29" = Some lo1
       /\ before_snowflake "2024-02-29" = Some hi1
       /\ _date_to_snowflake "2024-3-1" = Some lo2
       /\ lo1 <= hi1 /\ hi1 < lo2.
Proof.
  assert (Hlt : date_lt (mkdate 2024 2 29) (mkdate 2024 3 1))
    by (right; split; [reflexivity | left; simpl; lia]).
  split; [reflexivity|]. split; [reflexivity|]. split; [exact Hlt|].
  exact (day_windows_in_order "2024-02-29" "2024-3-1" _ _ eq_refl eq_refl Hlt).
Defined.

(** X8: the lower bound has its 22 low bits clear and its other bits
    are the milliseconds from the epoch to midnight, so the test
    [int(msg['id']) >= int(after_snowflake)] of the date filter holds
    exactly when the id shifted right by 22 bits, the time the platform
    encodes in it, is at or after that midnight. *)
Theorem lower_bound_is_a_time_test (D : string) (d : date) (lo : Z)
    (HD : strptime D = Some d) (Hlo : _date_to_snowflake D = Some lo) :
  Z.shiftr lo 22 = seconds_since_epoch d 0 0 0 * 1000
  /\ Z.land lo (Z.ones 22) = 0
  /\ forall id,
       (lo <=? id) = (seconds_since_epoch d 0 0 0 * 1000 <=? Z.shiftr id 22).
Proof.
  set (ms := seconds_since_epoch d 0 0 0 * 1000).
  assert (Hl : Some lo = Some (Z.shiftl ms 22))
    by (rewrite <- Hlo; unfold _date_to_snowflake; now rewrite HD).
  apply (f_equal (fun o => match o with Some x => x | None => 0 end)) in Hl.
  cbv beta iota in Hl. subst lo. clear Hlo.
  split; [rewrite Z.shiftr_shiftl_l by lia; apply Z.shiftl_0_r|]. split.
  - rewrite Z.land_ones, Z.shiftl_mul_pow2 by lia. apply Z.mod_mul. lia.
  - intros id. rewrite Z.shiftl_mul_pow2, Z.shiftr_div_pow2 by lia.
    change (2 ^ 22) with 4194304.
    destruct (Z.leb_spec (ms * 4194304) id);
      destruct (Z.leb_spec ms (id / 4194304)); try reflexivity;
      exfalso; Z.div_mod_to_equations; lia.
Qed.

Lemma lower_bound_is_a_time_test_witness :
  strptime "2015-01-02" = Some (mkdate 2015 1 2)
  /\ _date_to_snowflake "2015-01-02" = Some 362387865600000
  /\ Z.shiftr 362387865600000 22 = 86400000
  /\ Z.land 362387865600000 (Z.ones 22) = 0
  /\ forall id,
       (362387865600000 <=? id)
       = (seconds_since_epoch (mkdate 2015 1 2) 0 0 0 * 1000 <=? Z.shiftr id 22).
Proof.
  split; [reflexivity|]. split; [reflexivity|].
  exact (lower_bound_is_a_time_test "2015-01-02" (mkdate 2015 1 2)
                                    362387865600000 eq_refl eq_refl).
Defined.

(** *** [str] and [int] of a snowflake *)

Lemma uint_value_pos (d : Decimal.uint) (acc : positive) :
  uint_value d (Z.pos acc) = Z.pos (Pos.of_uint_acc d acc).
Proof.
  revert acc. induction d; intros acc; cbn [uint_value Pos.of_uint_acc];
    [reflexivity | ..];
    match goal with
    | |- uint_value _ ?a = Z.pos (Pos.of_uint_acc _ ?b) =>
        replace a with (Z.pos b) by lia
    end; apply IHd.
Qed.

Lemma uint_value_0 (d : Decimal.uint) :
  uint_value d 0 = Z.of_N (Pos.of_uint d).
Proof.
  induction d; cbn [uint_value Pos.of_uint]; [reflexivity | exact IHd | ..];
    match goal with
    | |- uint_value _ (10 * 0 + ?k) = _ =>
        change (10 * 0 + k) with k
    end; rewrite uint_value_pos; reflexivity.
Qed.

(** A numeral is worth at least what was read before it, shifted by its
    digits. *)
Lemma uint_value_ge (d : Decimal.uint) :
  forall acc, 0 <= acc ->
    acc * 10 ^ Z.of_nat (Decimal.nb_digits d) <= uint_value d acc.
Proof.
  induction d; intros acc Hacc; cbn [uint_value Decimal.nb_digits];
    [simpl; lia | ..];
    rewrite Nat2Z.inj_succ, Z.pow_succ_r by lia;
    match goal with
    | |- _ <= uint_value _ ?a =>
        specialize (IHd a ltac:(lia));
        assert (0 < 10 ^ Z.of_nat (Decimal.nb_digits d))
          by (apply Z.pow_pos_nonneg; lia);
        nia
    end.
Qed.

(** The numeral of a positive number does not start with a zero. *)
Lemma to_uint_head (p : positive) (l : Decimal.uint) :
  Pos.to_uint p <> Decimal.D0 l.
Proof.
  intros H.
  pose proof (Unsigned.to_of (Pos.to_uint p)) as Hnorm.
  rewrite Unsigned.of_to in Hnorm. cbn [N.to_uint] in Hnorm.
  rewrite H in Hnorm. rewrite DecimalFacts.unorm_D0 in Hnorm.
  destruct l as [|l|l|l|l|l|l|l|l|l|l];
    [apply (Unsigned.to_uint_nonzero p); exact H | ..];
    match goal with
    | Hn : Decimal.D0 ?x = Decimal.unorm ?x |- _ =>
        pose proof (DecimalFacts.nb_digits_unorm x ltac:(discriminate)) as Hle;
        rewrite <- Hn in Hle; cbn [Decimal.nb_digits] in Hle; lia
    end.
Qed.

Lemma nb_digits_to_uint (p : positive) (k : Z) :
  0 <= k -> Z.pos p < 10 ^ k ->
  Z.of_nat (Decimal.nb_digits (Pos.to_uint p)) <= k.
Proof.
  intros Hk Hp.
  assert (Hval : uint_value (Pos.to_uint p) 0 = Z.pos p)
    by now rewrite uint_value_0, Unsigned.of_to.
  pose proof (to_uint_head p) as Hhead.
  destruct (Pos.to_uint p) as [|l|l|l|l|l|l|l|l|l|l] eqn:Hd;
    [simpl; lia | now destruct (Hhead l) | ..];
    cbn [uint_value Decimal.nb_digits] in *;
    match type of Hval with
    | uint_value _ ?a = _ =>
        pose proof (uint_value_ge l a ltac:(lia)) as Hge
    end;
    rewrite Hval in Hge;
    destruct (Z.le_gt_cases (Z.of_nat (S (Decimal.nb_digits l))) k) as [|Hgt];
      try assumption;
    assert (Hpow : 10 ^ k <= 10 ^ Z.of_nat (Decimal.nb_digits l))
      by (apply Z.pow_le_mono_r; lia);
    nia.
Qed.

Ltac eval_digit_of :=
  match goal with
  | |- context [digit_of ?c] =>
      let v := eval vm_compute in (digit_of c) in
      change (digit_of c) with v; cbv iota
  end.

Lemma code_points_numeral (d : Decimal.uint) :
  code_points (NilEmpty.string_of_uint d) = Some (uint_codes d).
Proof.
  induction d; cbn [NilEmpty.string_of_uint uint_codes];
    [reflexivity | ..];
    rewrite code_points_ascii by reflexivity; rewrite IHd; reflexivity.
Qed.

Lemma to_ascii_numeral (d : Decimal.uint) :
  map to_ascii (uint_codes d) = uint_codes d.
Proof.
  induction d; cbn [uint_codes map]; [reflexivity | ..];
    rewrite IHd; reflexivity.
Qed.

Lemma count_digits_numeral (d : Decimal.uint) :
  count_digits (uint_codes d) = Z.of_nat (Decimal.nb_digits d).
Proof.
  induction d; cbn [uint_codes Decimal.nb_digits]; [reflexivity | ..];
    rewrite Nat2Z.inj_succ; cbn [count_digits]; eval_digit_of;
    rewrite IHd; lia.
Qed.

Lemma int_digits_numeral (d : Decimal.uint) (acc : Z) (after_digit : bool) :
  d <> Decimal.Nil \/ after_digit = true ->
  int_digits (uint_codes d) acc after_digit = Some (uint_value d acc).
Proof.
  revert acc after_digit.
  induction d; intros acc b Hb; cbn [uint_codes uint_value];
    [destruct Hb as [Hb | ->]; [congruence | reflexivity] | ..];
    cbn [int_digits]; eval_digit_of; apply IHd; now right.
Qed.

(** [int] reads a numeral of at most 4300 digits, with or without a
    sign, as its value. *)
Lemma int_of_str_numeral (d : Decimal.uint) :
  d <> Decimal.Nil ->
  Z.of_nat (Decimal.nb_digits d) <= int_max_str_digits ->
  int_of_str (NilEmpty.string_of_uint d) = Some (uint_value d 0)
  /\ int_of_str (String "-" (NilEmpty.string_of_uint d))
     = Some (- uint_value d 0).
Proof.
  intros Hd Hn. unfold int_of_str.
  rewrite (code_points_ascii "-") by reflexivity.
  rewrite code_points_numeral. cbn [option_map map].
  rewrite to_ascii_numeral. change (to_ascii (byte "-")) with 45.
  cbn [count_digits]. change (digit_of 45) with (@None Z). cbv iota.
  rewrite count_digits_numeral.
  destruct (Z.ltb_spec int_max_str_digits (Z.of_nat (Decimal.nb_digits d)));
    [lia|].
  split.
  - rewrite <- (int_digits_numeral d 0 false) by now left.
    destruct d; [congruence | reflexivity ..].
  - cbn [lstrip]. change (is_blank 45) with false. cbv iota.
    change (45 =? 45) with true. cbv iota.
    now rewrite int_digits_numeral by now left.
Qed.

(** [int(str(n)) == n] for an integer of at most 4300 digits. *)
Lemma int_of_str_of_int (n : Z) :
  Z.abs n < 10 ^ int_max_str_digits -> py_int (JStr (py_str n)) = Returned n.
Proof.
  intros Hn. unfold py_int, py_str.
  destruct n as [|p|p]; cbn [Z.to_int NilZero.string_of_int]; [reflexivity | |].
  - pose proof (Unsigned.to_uint_nonnil p) as Hnil.
    destruct (int_of_str_numeral (Pos.to_uint p) Hnil) as [Hpos _];
      [apply nb_digits_to_uint; [unfold int_max_str_digits; lia | exact Hn]|].
    replace (NilZero.string_of_uint (Pos.to_uint p))
      with (NilEmpty.string_of_uint (Pos.to_uint p))
      by (destruct (Pos.to_uint p); [congruence | reflexivity ..]).
    rewrite Hpos, uint_value_0, Unsigned.of_to. reflexivity.
  - pose proof (Unsigned.to_uint_nonnil p) as Hnil.
    destruct (int_of_str_numeral (Pos.to_uint p) Hnil) as [_ Hneg];
      [apply nb_digits_to_uint; [unfold int_max_str_digits; lia | exact Hn]|].
    replace (NilZero.string_of_uint (Pos.to_uint p))
      with (NilEmpty.string_of_uint (Pos.to_uint p))
      by (destruct (Pos.to_uint p); [congruence | reflexivity ..]).
    rewrite Hneg, uint_value_0, Unsigned.of_to. reflexivity.
Qed.

Lemma py_str_truthy (n : Z) : py_truthy (JStr (py_str n)) = true.
Proof.
  unfold py_str.
  destruct n as [|p|p]; cbn [Z.to_int NilZero.string_of_int];
    [reflexivity | | reflexivity].
  pose proof (Unsigned.to_uint_nonnil p) as Hnil.
  destruct (Pos.to_uint p); [congruence | reflexivity ..].
Qed.

(** The ordinal of a date [datetime] accepts. *)
Lemma ymd2ord_bounds (d : date) :
  valid_date d = true ->
  1 <= _ymd2ord (year d) (month d) (day d) <= 3652060.
Proof.
  intros H. pose proof (day_of_year_bounds d H) as Hday.
  unfold valid_date in H. rewrite !andb_true_iff, !Z.leb_le in H.
  destruct H as [[[[[Hy1 Hy2] _] _] _] _].
  pose proof (days_before_year_mono 1 (year d) Hy1) as Hlo.
  pose proof (days_before_year_mono (year d) 9999 Hy2) as Hhi.
  change (_days_before_year 1) with 0 in Hlo.
  change (_days_before_year 9999) with 3651694 in Hhi.
  unfold _ymd2ord. destruct (_is_leap (year d)); simpl Z.b2z in Hday; lia.
Qed.

(** X9: the lower bound that [_date_to_snowflake] hands over as a str is
    read back as the integer it was computed as: for every date text the
    codec accepts the snowflake is below 10^22 in magnitude, far from
    the 4300 digits at which [str] and [int] refuse a number, the text
    [str] makes of it is not empty, so that the test
    [not after_snowflake] of the harvest does not take it for a failed
    conversion (not even the snowflake 0 of the epoch), and [int] of
    that text is the snowflake. *)
Theorem snowflake_read_back (D : string) (lo : Z)
    (H : _date_to_snowflake D = Some lo) :
  Z.abs lo < 10 ^ 22
  /\ py_truthy (JStr (py_str lo)) = true
  /\ py_int (JStr (py_str lo)) = Returned lo.
Proof.
  assert (Hlo : Z.abs lo < 10 ^ 22).
  { revert H. unfold _date_to_snowflake.
    destruct (strptime D) as [d|] eqn:HD; [|discriminate].
    cbv zeta. intros Heq.
    assert (Hl : lo = Z.shiftl (seconds_since_epoch d 0 0 0 * 1000) 22)
      by congruence.
    subst lo. clear Heq. apply strptime_valid in HD.
    pose proof (ymd2ord_bounds d HD) as Hord.
    rewrite Z.shiftl_mul_pow2 by lia. unfold seconds_since_epoch.
    change (_ymd2ord 2015 1 1) with 735599. lia. }
  split; [exact Hlo|]. split; [apply py_str_truthy|].
  apply int_of_str_of_int. unfold int_max_str_digits.
  eapply Z.lt_le_trans; [exact Hlo|]. apply Z.pow_le_mono_r; lia.
Qed.

Lemma snowflake_read_back_witness :
  _date_to_snowflake "2024-02-29" = Some 1212549798297600000
  /\ Z.abs 1212549798297600000 < 10 ^ 22
  /\ py_truthy (JStr (py_str 1212549798297600000)) = true
  /\ py_int (JStr (py_str 1212549798297600000)) = Returned 1212549798297600000.
Proof.
  assert (H : _date_to_snowflake "2024-02-29" = Some 1212549798297600000)
    by reflexivity.
  split; [exact H|].
  exact (snowflake_read_back "2024-02-29" 1212549798297600000 H).
Defined.

(** The snowflake of the epoch is 0 and its text "0", which is true as
    a str; a date before the epoch has a negative snowflake. *)
Example epoch_snowflake_text :
  option_map py_str (_date_to_snowflake "2015-01-01") = Some "0"
  /\ option_map py_str (_date_to_snowflake "2014-12-31")
     = Some "-362387865600000".
Proof. split; reflexivity. Qed.

(** *** More on the renderer's sort *)

Lemma py_lt_null_l (b : json) : py_lt JNull b = Raised TypeError.
Proof. reflexivity. Qed.

Lemma py_lt_null_r (a : json) : py_lt a JNull = Raised TypeError.
Proof. now destruct a. Qed.

Lemma py_lt_raises : forall (a b : json) (e : Exn),
  py_lt a b = Raised e -> e = TypeError.
Proof.
  fix IH 1. intros a b e.
  destruct a as [| | | |l| |]; destruct b as [| | | |l0| |]; simpl;
    try discriminate; try (now intros [= <-]).
  revert l0. induction l as [|x l IHl]; intros [|y l0]; simpl;
    try discriminate.
  destruct (py_eq x y); [apply IHl | apply IH].
Qed.

Lemma insert_sorted_raises (x : Message) (l : list Message) (e : Exn) :
  insert_sorted m_timestamp x l = Raised e -> e = TypeError.
Proof.
  induction l as [|y l IH]; simpl; [discriminate|].
  destruct (py_lt (m_timestamp y) (m_timestamp x)) as [b|e'] eqn:Hlt; simpl.
  - destruct b; [|discriminate].
    destruct (insert_sorted m_timestamp x l); simpl; [discriminate|].
    intros [= <-]. now apply IH.
  - intros [= <-]. now apply py_lt_raises in Hlt.
Qed.

Lemma insert_sorted_perm (x : Message) (l r : list Message) :
  insert_sorted m_timestamp x l = Returned r -> Permutation (x :: l) r.
Proof.
  revert r. induction l as [|y l IH]; intros r; simpl.
  - now intros [= <-].
  - destruct (py_lt (m_timestamp y) (m_timestamp x)) as [b|]; simpl;
      [|discriminate].
    destruct b; [|now intros [= <-]].
    destruct (insert_sorted m_timestamp x l) as [r'|]; simpl; [|discriminate].
    intros [= <-]. rewrite perm_swap. constructor. now apply IH.
Qed.

Lemma sorted_messages_perm (l r : list Message) :
  sorted_messages l = Returned r -> Permutation l r.
Proof.
  unfold sorted_messages. revert r. induction l as [|x l IH]; intros r; simpl.
  - now intros [= <-].
  - destruct (py_sorted m_timestamp l) as [r'|]; simpl; [|discriminate].
    intros H. apply insert_sorted_perm in H.
    now rewrite <- H, <- (IH r' eq_refl).
Qed.

Lemma sorted_messages_raises (l : list Message) (e : Exn) :
  sorted_messages l = Raised e -> e = TypeError.
Proof.
  unfold sorted_messages. induction l as [|x l IH]; simpl; [discriminate|].
  destruct (py_sorted m_timestamp l) as [r'|e']; simpl.
  - apply insert_sorted_raises.
  - intros [= <-]. now apply IH.
Qed.



Lemma insert_sorted_last (x : Message) (l : list Message) :
  Forall (fun y => timestamp_gt x y) l ->
  insert_sorted m_timestamp x l = Returned (l ++ [x]).
Proof.
  induction 1 as [|y l (s & t & Hx & Hy & Hlt) _ IH]; simpl; [reflexivity|].
  rewrite Hx, Hy. simpl. rewrite Hlt, IH. reflexivity.
Qed.

(** X11: on a list that is strictly newest-first by timestamp (every
    message has a str timestamp smaller than those of all messages
    before it), the order of a harvest from the wire, the renderer's
    sort is the reversal of the list. *)
Theorem sort_reverses_newest_first (messages : list Message)
    (H : ForallOrdPairs timestamp_gt messages) :
  sorted_messages messages = Returned (rev messages).
Proof.
  unfold sorted_messages. induction H as [|x l Hx _ IH]; simpl; [reflexivity|].
  rewrite IH. simpl. apply insert_sorted_last. now apply Forall_rev.
Qed.

Lemma sort_reverses_newest_first_witness :
  let messages := map (normalized "c") three_days in
  ForallOrdPairs timestamp_gt messages
  /\ sorted_messages messages = Returned (rev messages).
Proof.
  intros messages.
  assert (H : ForallOrdPairs timestamp_gt messages).
  { repeat constructor;
      (eexists; eexists; split; [reflexivity | split; reflexivity]). }
  split; [exact H | exact (sort_reverses_newest_first messages H)].
Defined.

Lemma leb_ltb_false (s t : string) :
  String.leb s t = true -> String.ltb t s = false.
Proof.
  unfold String.leb, String.ltb. rewrite (String.compare_antisym t s).
  now destruct (String.compare s t).
Qed.

(** X12: a list already in ascending order of timestamp is left as it
    is by the renderer's sort; in particular messages with equal
    timestamps keep their order, and sorting what the sort returned
    changes nothing. *)
Theorem sort_keeps_sorted (messages : list Message)
    (H : Sorted timestamp_le messages) :
  sorted_messages messages = Returned messages.
Proof.
  unfold sorted_messages. induction H as [|x l _ IH Hhd]; simpl; [reflexivity|].
  rewrite IH. simpl. destruct Hhd as [|y l (s & t & Hx & Hy & Hle)];
    [reflexivity|].
  simpl. rewrite Hx, Hy. simpl. now rewrite (leb_ltb_false s t Hle).
Qed.

Lemma sort_keeps_sorted_witness :
  let messages := rev (map (normalized "c") three_days)
                  ++ [normalized "c" (raw_message 9 "2024-05-03T10:00:00+00:00")] in
  Sorted timestamp_le messages
  /\ sorted_messages messages = Returned messages.
Proof.
  intros messages.
  assert (H : Sorted timestamp_le messages).
  { repeat constructor;
      (eexists; eexists; split; [reflexivity | split; reflexivity]). }
  split; [exact H | exact (sort_keeps_sorted messages H)].
Defined.

(** *** The rendered document *)

(** The three replacements, in the order the code makes them, escape
    each character on its own. *)
Lemma escape_markdown_cons (c : ascii) (s : string) :
  escape_markdown (String c s)
  = if Ascii.eqb c "\" || Ascii.eqb c "*" || Ascii.eqb c "_"
    then String "\" (String c (escape_markdown s))
    else String c (escape_markdown s).
Proof.
  unfold escape_markdown. cbn [replace_char].
  destruct (Ascii.eqb_spec c "\") as [-> | H1]; [reflexivity|].
  cbn [replace_char orb].
  destruct (Ascii.eqb_spec c "*") as [-> | H2]; [reflexivity|].
  cbn [replace_char orb].
  destruct (Ascii.eqb_spec c "_") as [-> | H3]; reflexivity.
Qed.

Lemma unescape_escaped (d : ascii) (s : string) :
  unescape (String "\" (String d s)) = String d (unescape s).
Proof. reflexivity. Qed.

Lemma unescape_plain (c : ascii) (s : string) :
  c <> "\"%char -> unescape (String c s) = String c (unescape s).
Proof.
  intros H. simpl. now destruct (Ascii.eqb_spec c "\").
Qed.

(** X13: the escaping of a message's content loses nothing: dropping
    every escaping backslash from the escaped text gives the content
    back, whatever backslashes, asterisks and underscores it holds. *)
Theorem escape_markdown_unescape (content : string) :
  unescape (escape_markdown content) = content.
Proof.
  induction content as [|c s IH]; [reflexivity|].
  rewrite escape_markdown_cons.
  destruct (Ascii.eqb_spec c "\") as [-> | H1].
  - cbn [orb]. rewrite unescape_escaped. now rewrite IH.
  - cbn [orb]. destruct (Ascii.eqb c "*" || Ascii.eqb c "_").
    + rewrite unescape_escaped. now rewrite IH.
    + rewrite (unescape_plain c _ H1). now rewrite IH.
Qed.

Section RenderFacts.
Variable repr_container : json -> string.
Variable now : string.
Variable strftime_utc : string -> Py string.

Lemma render_message_needs_str (m : Message) :
  (forall s, m_content m <> JStr s) ->
  exists e, render_message repr_container strftime_utc m = Raised e.
Proof.
  intros H. unfold render_message.
  destruct (time_str strftime_utc (m_timestamp m)) as [t|e]; [|now exists e].
  simpl. destruct (m_content m) as [| | |s| | |]; try (now eexists).
  now destruct (H s).
Qed.

Lemma py_mapM_returns {A B : Type} (f : A -> Py B) (l : list A) :
  (forall x, In x l -> exists y, f x = Returned y) ->
  exists l', py_mapM f l = Returned l'.
Proof.
  induction l as [|x l IH]; intros H; simpl; [now eexists|].
  destruct (H x (or_introl eq_refl)) as [y ->]. simpl.
  destruct IH as [l' ->]; [intros; apply H; now right|]. now eexists.
Qed.

Lemma render_message_renderable (m : Message) :
  renderable strftime_utc m ->
  exists text, render_message repr_container strftime_utc m = Returned text.
Proof.
  intros ((s & Hs & Ht) & (c & Hc) & He).
  unfold render_message, time_str. rewrite Hs, Hc.
  assert (Htime : exists t,
             (if py_truthy (JStr s)
              then strftime_utc (replace_char "Z" "+00:00" s)
              else Returned "Unknown time") = Returned t).
  { destruct Ht as [-> | [t Ht]]; [now eexists|].
    rewrite Ht. destruct (py_truthy (JStr s)); now eexists. }
  destruct Htime as [t ->]. simpl.
  destruct (String.eqb (py_strip c) "" && _ && _); [now eexists|].
  destruct He as [-> | [n Hn]]; [now eexists|].
  rewrite Hn. destruct (py_truthy (m_embeds m)); now eexists.
Qed.

Lemma render_channel_returns (channel_info : json) :
  channel_info = JNull \/ is_object channel_info = true ->
  exists text, render_channel repr_container channel_info = Returned text.
Proof.
  intros [-> | H]; [now eexists|].
  destruct channel_info as [| | | | |d|]; try discriminate.
  unfold render_channel. destruct (py_truthy (JObj d)); [|now eexists].
  rewrite !py_get_object. now eexists.
Qed.
End RenderFacts.

(** X14: one message whose content is not a str (a [None] content is
    what [get_messages] keeps for a record whose content is null) makes
    the whole document fail: [format_messages_markdown] raises and
    returns no text for any of the messages. *)
Theorem content_must_be_str (repr_container : json -> string) (now : string)
    (strftime_utc : string -> Py string) (messages : list Message)
    (channel_info : json)
    (H : exists m, In m messages /\ forall s, m_content m <> JStr s) :
  exists e,
    format_messages_markdown repr_container now strftime_utc messages
                             channel_info
    = Raised e.
Proof.
  destruct H as (m & Hin & Hm).
  destruct messages as [|m0 rest]; [destruct Hin|].
  unfold format_messages_markdown.
  destruct (sorted_messages (m0 :: rest)) as [sorted|e] eqn:Hs;
    [|now exists e].
  simpl.
  destruct (render_channel repr_container channel_info) as [c|e];
    [|now exists e].
  simpl.
  destruct (py_mapM_raises (render_message repr_container strftime_utc) sorted)
    as [e He].
  - exists m. split.
    + eapply Permutation_in; [apply (sorted_messages_perm _ _ Hs) | exact Hin].
    + now apply render_message_needs_str.
  - rewrite He. now exists e.
Qed.

Lemma content_must_be_str_witness :
  let messages :=
    map (normalized "c")
        [raw_message 3 "2024-05-03T10:00:00+00:00";
         JObj [("id", JStr "2"); ("content", JNull);
               ("timestamp", JStr "2024-05-02T10:00:00+00:00")]] in
  (exists m, In m messages /\ forall s, m_content m <> JStr s)
  /\ exists e,
       format_messages_markdown (fun _ => "") "" (fun s => Returned s)
                                messages JNull
       = Raised e.
Proof.
  intros messages.
  assert (H : exists m, In m messages /\ forall s, m_content m <> JStr s).
  { eexists. split; [right; left; reflexivity|]. intros s. discriminate. }
  split; [exact H|].
  exact (content_must_be_str _ _ _ messages JNull H).
Defined.



(** A message with nothing to show adds nothing to the document. *)
Lemma render_message_blank (repr_container : json -> string)
    (strftime_utc : string -> Py string) (m : Message) :
  renderable strftime_utc m -> blank m ->
  render_message repr_container strftime_utc m = Returned "".
Proof.
  intros ((s & Hs & Ht) & _ & _) ((c & Hc & Hstrip) & Hatt & Hemb).
  unfold render_message, time_str. rewrite Hs, Hc, Hatt, Hemb, Hstrip.
  assert (Htime : exists t,
             (if py_truthy (JStr s)
              then strftime_utc (replace_char "Z" "+00:00" s)
              else Returned "Unknown time") = Returned t).
  { destruct Ht as [-> | [t Ht]]; [now eexists|].
    rewrite Ht. destruct (py_truthy (JStr s)); now eexists. }
  destruct Htime as [t ->]. reflexivity.
Qed.

Lemma concat_empty {A : Type} (l : list A) :
  String.concat "" (map (fun _ : A => "") l) = "".
Proof.
  induction l as [|x [|y l] IH]; [reflexivity | reflexivity | exact IH].
Qed.



(** *** Harvests that end, and one that does not *)

(** Under a budget a step that goes round again has added a message, and
    a step issues a request only while budget remains. *)
Lemma batch_step_budget (tr : Transport) (channel_id : string)
    (B batch_size : Z) (after_snowflake : option Z)
    (all_messages : list Message) (before_id : json) (log : list Request) :
  0 < B ->
  match batch_step tr channel_id (Some B) batch_size after_snowflake
                   all_messages before_id log with
  | Done _ log' =>
      log' = log \/ (len all_messages < B /\ exists q, log' = q :: log)
  | Again all_messages' _ log' =>
      len all_messages < len all_messages'
      /\ len all_messages < B /\ exists q, log' = q :: log
  end.
Proof.
  intros HB. unfold batch_step.
  rewrite current_batch_size_bounded by assumption.
  destruct (Z.leb_spec (B - len all_messages) 0) as [|Hrem]; [now left|].
  unfold get_messages. cbv zeta.
  set (req := params channel_id _ before_id _).
  fold (page_of tr channel_id (req :: log)).
  assert (Hq : len all_messages < B /\ exists q, req :: log = q :: log)
    by (split; [lia | now exists req]).
  assert (Hgrow : forall m ms, len all_messages < len (all_messages ++ m :: ms))
    by (intros; unfold len; rewrite length_app; simpl; lia).
  destruct (page_of tr channel_id (req :: log)) as [|m0 rest]; [now right|].
  destruct after_snowflake as [lo|].
  - destruct (filter_after lo (m0 :: rest)) as [[k stop]|e]; [|now right].
    destruct stop; [now right|].
    destruct k as [|k0 k']; [now right|].
    destruct (len (k0 :: k') <? _); [now right|].
    split; [apply Hgrow | exact Hq].
  - destruct (len (m0 :: rest) <? _); [now right|].
    split; [apply Hgrow | exact Hq].
Qed.

Lemma batch_loop_ends (tr : Transport) (channel_id : string)
    (B batch_size : Z) (after_snowflake : option Z) :
  0 < B ->
  forall fuel all_messages before_id log,
    (Z.to_nat (B - len all_messages) < fuel)%nat ->
    exists result new,
      batch_loop tr channel_id (Some B) batch_size after_snowflake fuel
                 all_messages before_id log
      = (Some result, new ++ log)
      /\ (List.length new <= Z.to_nat (B - len all_messages))%nat.
Proof.
  intros HB.
  induction fuel as [|fuel IH]; intros all_messages before_id log Hfuel; [lia|].
  cbn [batch_loop].
  pose proof (batch_step_budget tr channel_id B batch_size after_snowflake
                all_messages before_id log HB) as Hstep.
  destruct batch_step as [res l0 | a b l0].
  - destruct Hstep as [-> | (Hlt & q & ->)].
    + exists res, []. split; [reflexivity | simpl; lia].
    + exists res, [q]. split; [reflexivity | simpl; lia].
  - destruct Hstep as (Hgrow & Hlt & q & ->).
    destruct (IH a b (q :: log)) as (res & new & Hrun & Hlen); [lia|].
    exists res, (new ++ [q]). rewrite <- app_assoc. split; [exact Hrun|].
    rewrite length_app. simpl. lia.
Qed.

(** X17: with a positive [total_limit] the harvest ends whatever the
    transport answers: within [total_limit] + 1 iterations of its loop
    it has returned or raised, after at most [total_limit] requests. *)
Theorem budgeted_harvest_ends (tr : Transport) (log : list Request)
    (fuel : nat) (channel_id : string) (B batch_size : Z)
    (after_date before_date : option string)
    (HB : 0 < B) (Hfuel : (Z.to_nat B < fuel)%nat) :
  exists result new,
    get_messages_batch tr log fuel channel_id (Some B) batch_size
                       after_date before_date
    = (Some result, new ++ log)
    /\ (List.length new <= Z.to_nat B)%nat.
Proof.
  unfold get_messages_batch.
  destruct (bound _date_to_snowflake after_date) as [after_snowflake|];
    [|exists (Returned []), []; split; [reflexivity | simpl; lia]].
  destruct (bound before_snowflake before_date);
    [|exists (Returned []), []; split; [reflexivity | simpl; lia]].
  destruct (batch_loop_ends tr channel_id B (Z.min batch_size 100)
              after_snowflake HB fuel [] JNull log)
    as (res & new & Hrun & Hlen).
  - unfold len. simpl. now rewrite Z.sub_0_r.
  - exists res, new. split; [exact Hrun|].
    unfold len in Hlen. simpl in Hlen. now rewrite Z.sub_0_r in Hlen.
Qed.

Lemma budgeted_harvest_ends_witness :
  0 < 2
  /\ (Z.to_nat 2 < 3)%nat
  /\ exists result new,
       get_messages_batch endless [] 3 "c" (Some 2) 1 None None
       = (Some result, new ++ [])
       /\ (List.length new <= Z.to_nat 2)%nat.
Proof.
  split; [lia|]. split; [simpl; lia|].
  apply (budgeted_harvest_ends endless [] 3 "c" 2 1 None None);
    [lia | simpl; lia].
Defined.

Lemma always_full_endless : always_full endless.
Proof.
  intros r log Hr. eexists. split; [reflexivity|]. split.
  - apply forallb_forall. intros x Hx. apply repeat_spec in Hx. now subst x.
  - unfold len. rewrite repeat_length. lia.
Qed.

Lemma batch_loop_full_pages (tr : Transport) (channel_id : string)
    (batch_size : Z) :
  always_full tr -> 1 <= batch_size <= 100 ->
  forall fuel all_messages before_id log,
  exists new,
    batch_loop tr channel_id None batch_size None fuel all_messages before_id
               log
    = (None, new ++ log)
    /\ List.length new = fuel.
Proof.
  intros Hfull Hbs.
  induction fuel as [|fuel IH]; intros all_messages before_id log;
    [now exists []|].
  cbn [batch_loop]. unfold batch_step. cbn [current_batch_size].
  replace (if len all_messages =? 0 then None else None) with (@None Z)
    by now destruct (len all_messages =? 0).
  set (req := params channel_id (Z.min batch_size 100) before_id None).
  destruct (Hfull req log) as (l & Hbody & Hnorm & Hlen);
    [simpl; lia|].
  pose proof (get_messages_body tr log channel_id batch_size before_id None l
                Hbody) as Hpage.
  rewrite Hnorm in Hpage.
  assert (Hlog : snd (get_messages tr log channel_id batch_size before_id None)
                 = req :: log) by reflexivity.
  destruct (get_messages tr log channel_id batch_size before_id None)
    as [messages log'].
  cbn [fst snd] in Hpage, Hlog. subst messages log'.
  assert (Hsize : len (map (normalized channel_id) l) = batch_size)
    by (rewrite len_map, Hlen; simpl; lia).
  destruct (map (normalized channel_id) l) as [|m0 ms] eqn:Hmap;
    [unfold len in Hsize; simpl in Hsize; lia|].
  rewrite Hsize, Z.ltb_irrefl.
  destruct (IH (all_messages ++ m0 :: ms) (last_id (m0 :: ms)) (req :: log))
    as (new & Hrun & Hnew).
  exists (new ++ [req]). rewrite <- app_assoc. split; [exact Hrun|].
  rewrite length_app. simpl. lia.
Qed.

(** X18: nothing in the loop bounds an unbudgeted harvest: against a
    transport that answers every request with a full page, a harvest
    with no [total_limit] and no dates is still running after any number
    of iterations, and has issued one request in each. *)
Theorem full_pages_never_end (tr : Transport) (log : list Request)
    (fuel : nat) (channel_id : string) (batch_size : Z)
    (Hfull : always_full tr) (Hbs : 1 <= batch_size) :
  exists new,
    get_messages_batch tr log fuel channel_id None batch_size None None
    = (None, new ++ log)
    /\ List.length new = fuel.
Proof.
  unfold get_messages_batch. cbn [bound given].
  apply batch_loop_full_pages; [assumption | lia].
Qed.

Lemma full_pages_never_end_witness :
  always_full endless
  /\ 1 <= 50
  /\ exists new,
       get_messages_batch endless [] 20 "c" None 50 None None
       = (None, new ++ [])
       /\ List.length new = 20%nat.
Proof.
  split; [exact always_full_endless|]. split; [lia|].
  apply (full_pages_never_end endless [] 20 "c" 50 always_full_endless).
  lia.
Defined.

(** *** Capturing a channel *)

Lemma get_channel_info_object (d : list (string * json)) :
  get_channel_info (Body (JObj d))
  = Info (field d "id" JNull) (field d "name" JNull) (field d "type" JNull)
         (field d "guild_id" JNull) (field d "topic" JNull).
Proof. unfold get_channel_info. now rewrite !py_get_object. Qed.

(** X19: once the channel itself has been read, [capture_channel] of an
    enabled channel with a positive [max_history] reports success
    whatever the requests for messages come to, failures included: it
    ends after at most [max_history] requests, its [message_count] is
    the number of messages it hands over, and against a transport that
    honours [limit] that number is at most [max_history]. *)
Theorem capture_succeeds_once_channel_is_read (tr : Transport)
    (log : list Request) (fuel : nat) (channel_config : DiscordChannelConfig)
    (channel_data : list (string * json))
    (Henabled : cfg_enabled channel_config = true)
    (Hmax : 0 < cfg_max_history channel_config)
    (Hfuel : (Z.to_nat (cfg_max_history channel_config) < fuel)%nat) :
  exists messages new,
    capture_channel (Body (JObj channel_data)) tr log fuel channel_config
    = (Some (Success (get_channel_info (Body (JObj channel_data))) messages
                     (len messages)),
       new ++ log)
    /\ (List.length new <= Z.to_nat (cfg_max_history channel_config))%nat
    /\ (respects_limit tr -> len messages <= cfg_max_history channel_config).
Proof.
  unfold capture_channel. rewrite Henabled. cbn [negb].
  rewrite get_channel_info_object.
  unfold get_messages_batch. cbn [bound given].
  destruct (batch_loop_ends tr (cfg_channel_id channel_config)
              (cfg_max_history channel_config) (Z.min 50 100) None Hmax
              fuel [] JNull log)
    as (res & new & Hrun & Hlen);
    [unfold len; simpl; now rewrite Z.sub_0_r|].
  unfold len in Hlen. simpl in Hlen. rewrite Z.sub_0_r in Hlen.
  rewrite Hrun. destruct res as [messages|e].
  - exists messages, new. split; [reflexivity|]. split; [exact Hlen|].
    intros Htr. revert Hrun.
    apply batch_loop_within_budget; try assumption. unfold len; simpl; lia.
  - exfalso. apply batch_loop_raised in Hrun. now destruct Hrun.
Qed.

Lemma capture_succeeds_once_channel_is_read_witness :
  let channel_config :=
    mkDiscordChannelConfig "general" None "c" None None true 200 in
  cfg_enabled channel_config = true
  /\ 0 < cfg_max_history channel_config
  /\ (Z.to_nat (cfg_max_history channel_config) < 201)%nat
  /\ exists messages new,
       capture_channel (Body (JObj [("id", JStr "c")])) unreachable [] 201
                       channel_config
       = (Some (Success (get_channel_info (Body (JObj [("id", JStr "c")])))
                        messages (len messages)),
          new ++ [])
       /\ (List.length new <= Z.to_nat (cfg_max_history channel_config))%nat
       /\ (respects_limit unreachable
           -> len messages <= cfg_max_history channel_config).
Proof.
  intros channel_config.
  split; [reflexivity|]. split; [reflexivity|]. split; [simpl; lia|].
  apply (capture_succeeds_once_channel_is_read unreachable [] 201
           channel_config [("id", JStr "c")]);
    [reflexivity | reflexivity | simpl; lia].
Defined.

(** A capture whose every request for messages fails reports success
    with no message. *)
Example capture_of_unreachable_messages :
  fst (capture_channel (Body (JObj [("id", JStr "c"); ("name", JStr "general")]))
                       unreachable [] 201
                       (mkDiscordChannelConfig "general" None "c" None None
                                               true 200))
  = Some (Success (Info (JStr "c") (JStr "general") JNull JNull JNull) [] 0).
Proof. vm_compute. reflexivity. Qed.

(** *** The spacing of requests *)

(** What is below a positive finite [b] is below [max(d, b)] when [d] is
    a number. *)
Lemma py_max_above (t d : float) (m : positive) (e : Z) :
  d <> S754_nan ->
  SFltb t (S754_finite false m e) = true ->
  SFltb t (py_max d (S754_finite false m e)) = true.
Proof.
  intros Hd Ht. unfold py_max.
  destruct (SFltb d (S754_finite false m e)) eqn:Hd2; [assumption|].
  revert Ht Hd2. unfold SFltb, SFcompare.
  destruct d as [sd | sd | | sd md ed]; [| | congruence |];
    destruct t as [st | st | | st mt et];
    try destruct sd; try destruct st; try discriminate; try reflexivity.
  change (PosDef.Pos.compare_cont Eq) with Pos.compare.
  destruct (Z.compare_spec et e), (Z.compare_spec ed e),
    (Z.compare_spec et ed); try discriminate; try reflexivity; try lia;
    destruct (Pos.compare_spec mt m), (Pos.compare_spec md m),
      (Pos.compare_spec mt md); try discriminate; try reflexivity; lia.
Qed.

(** X20: a client built with a delay that is a number spaces its
    requests: whatever that delay, [_rate_limit] called less than 2.0
    seconds after the last request sleeps, for the delay kept minus the
    time that has passed. *)
Theorem numeric_delay_spaces_requests (d time_since_last : float)
    (Hd : d <> S754_nan)
    (Ht : SFltb time_since_last float_2_0 = true) :
  _rate_limit (init_rate_limit_delay d) time_since_last
  = Some (SFsub 53 1024 (init_rate_limit_delay d) time_since_last).
Proof.
  unfold _rate_limit, init_rate_limit_delay, float_2_0.
  now rewrite (py_max_above time_since_last d _ _ Hd Ht).
Qed.

Lemma numeric_delay_spaces_requests_witness :
  let d := S754_finite false 4503599627370496 (-53) in
  let time_since_last := S754_finite false 4503599627370496 (-52) in
  d <> S754_nan
  /\ SFltb time_since_last float_2_0 = true
  /\ _rate_limit (init_rate_limit_delay d) time_since_last
     = Some (SFsub 53 1024 (init_rate_limit_delay d) time_since_last).
Proof.
  intros d time_since_last.
  assert (Hd : d <> S754_nan) by discriminate.
  assert (Ht : SFltb time_since_last float_2_0 = true) by reflexivity.
  split; [exact Hd|]. split; [exact Ht|].
  exact (numeric_delay_spaces_requests d time_since_last Hd Ht).
Defined.

(** A delay of 0.5 and a second since the last request: the call sleeps
    one second. *)
Example half_second_delay_sleeps_a_second :
  _rate_limit (init_rate_limit_delay (S754_finite false 4503599627370496 (-53)))
              (S754_finite false 4503599627370496 (-52))
  = Some (S754_finite false 4503599627370496 (-52)).
Proof. vm_compute. reflexivity. Qed.
